(** * Per-chat state persistence of GDGAjuBot

    A shallow embedding of [gdgajubot/data/resources.py]: the JSON codec
    with its timestamp tagging ([JSONCodec], [DATETIME_FORMAT]) and the
    state store built on it ([Resources.set_state], [get_state],
    [load_states], [__state_dict]).

    Conventions of the embedding.
    - A Python value is a tree ([pyval]); a [dict] is an association list in
      insertion order, whose keys are strings (the field names of a record).
    - A [str] is a sequence of characters with code points below 256.
    - The library is the one of CPython 3.11 on glibc: what [strftime],
      [strptime] and the [json] package do is read off their sources.
    - The text kept in the [info] column is represented by the JSON document
      it spells ([json]): the grammar of the text belongs to the [json]
      package, the code under study only plugs [default] and [object_hook]
      into it.
    - An exception is a value of [exn]; code that can raise returns a
      [result].  Code that talks to the database threads the table of
      [State] rows and keeps it when an exception escapes, so that one can
      tell whether a write came before the failure. *)

From Stdlib Require Import ZArith String Ascii List Bool Lia.
From Stdlib Require Import Floats.SpecFloat.
From stdpp Require Import base option list strings gmap fin_maps.

Local Open Scope string_scope.
Local Open Scope Z_scope.

(** ** Exceptions and fallible computations *)

Inductive exn : Type :=
| ObjectNotFound   (* orm.ObjectNotFound *)
| TypeError
| ValueError
| AttributeError
| CacheIndexError.   (* pony: a second object under one primary key *)

Inductive result (A : Type) : Type :=
| Ok (a : A)
| Raise (e : exn).
Arguments Ok {A} a.
Arguments Raise {A} e.

#[global] Instance exn_eq_dec : EqDecision exn.
Proof. solve_decision. Defined.

#[global] Instance result_ret : MRet result := fun A a => Ok a.
#[global] Instance result_bind : MBind result := fun A B f m =>
  match m with
  | Ok a => f a
  | Raise e => Raise e
  end.
#[global] Instance result_fmap : FMap result := fun A B f m =>
  match m with
  | Ok a => Ok (f a)
  | Raise e => Raise e
  end.

Definition is_ok {A} (r : result A) : bool :=
  match r with Ok _ => true | Raise _ => false end.

(** ** Timestamps and [DATETIME_FORMAT] *)

(** A [datetime.datetime].  Of its [tzinfo] only the offset from UTC is
    kept, in microseconds ([None] for a naive value): it is all that [%z]
    prints, and all that [==] on aware values looks at besides the fields. *)
Record datetime : Type := mk_datetime {
  year : Z;
  month : Z;
  day : Z;
  hour : Z;
  minute : Z;
  second : Z;
  microsecond : Z;
  utcoffset : option Z
}.

#[global] Instance datetime_eq_dec : EqDecision datetime.
Proof. solve_decision. Defined.

Definition is_leap (y : Z) : bool :=
  (y mod 4 =? 0) && (negb (y mod 100 =? 0) || (y mod 400 =? 0)).

Definition days_in_month (y m : Z) : Z :=
  if m =? 2 then (if is_leap y then 29 else 28)
  else if (m =? 4) || (m =? 6) || (m =? 9) || (m =? 11) then 30
  else 31.

(** [datetime.timezone] takes an offset strictly between minus and plus
    twenty-four hours. *)
Definition valid_offset (o : Z) : bool :=
  (-86400000000 <? o) && (o <? 86400000000).

(** The values the [datetime] constructor accepts. *)
Definition valid_datetime (t : datetime) : bool :=
  (1 <=? year t) && (year t <=? 9999) &&
  (1 <=? month t) && (month t <=? 12) &&
  (1 <=? day t) && (day t <=? days_in_month (year t) (month t)) &&
  (0 <=? hour t) && (hour t <? 24) &&
  (0 <=? minute t) && (minute t <? 60) &&
  (0 <=? second t) && (second t <? 60) &&
  (0 <=? microsecond t) && (microsecond t <? 1000000) &&
  match utcoffset t with
  | None => true
  | Some o => valid_offset o
  end.

Definition is_aware (t : datetime) : bool :=
  match utcoffset t with Some _ => true | None => false end.

(** *** Printing: [strftime]

    [datetime.strftime] fills in [%f] and [%z] itself and leaves the other
    directives to the C library; the one of the platform the bot runs on
    (glibc) pads [%m], [%d], [%H], [%M] and [%S] to two digits and writes
    [%Y] without padding. *)

Definition digit_char (d : Z) : ascii := ascii_of_nat (48 + Z.to_nat d).

(** [zfill w n] is [n] written with exactly [w] decimal digits. *)
Fixpoint zfill (w : nat) (n : Z) : string :=
  match w with
  | O => ""
  | S w' => String (digit_char ((n / 10 ^ Z.of_nat w') mod 10)) (zfill w' n)
  end.

(** [%Y] of glibc: the year in decimal, as many digits as it has (a year
    is at most 9999). *)
Definition format_Y (y : Z) : string :=
  if y <? 10 then zfill 1 y
  else if y <? 100 then zfill 2 y
  else if y <? 1000 then zfill 3 y
  else zfill 4 y.

(** [%z]: empty for a naive value, else sign, hours and minutes, then the
    seconds if the offset has any, then a point and the microseconds if it
    has any. *)
Definition format_z (o : option Z) : string :=
  match o with
  | None => ""
  | Some us =>
      let a := Z.abs us in
      let s := (a / 1000000) mod 60 in
      let u := a mod 1000000 in
      (if us <? 0 then "-" else "+")
        +:+ zfill 2 (a / 3600000000) +:+ zfill 2 ((a / 60000000) mod 60)
        +:+ (if negb (u =? 0) then zfill 2 s +:+ "." +:+ zfill 6 u
             else if negb (s =? 0) then zfill 2 s
             else "")
  end.

(** The format with the year written by [Y]. *)
Definition strftime_Y (Y : Z -> string) (t : datetime) : string :=
  Y (year t) +:+ "-" +:+ zfill 2 (month t) +:+ "-" +:+ zfill 2 (day t)
    +:+ "T" +:+ zfill 2 (hour t) +:+ ":" +:+ zfill 2 (minute t)
    +:+ ":" +:+ zfill 2 (second t) +:+ "." +:+ zfill 6 (microsecond t)
    +:+ format_z (utcoffset t).

(** [obj.strftime('%Y-%m-%dT%H:%M:%S.%f%z')] *)
Definition strftime (t : datetime) : string := strftime_Y format_Y t.

(** The spelling with four digits of year, [YYYY-MM-DDTHH:MM:SS.ffffff]
    and the offset: what [strftime] writes from the year 1000 on. *)
Definition fixed_width (t : datetime) : string := strftime_Y (zfill 4) t.

(** *** Parsing: [strptime]

    [datetime.strptime] compiles the format into the regular expression
<<
    (?P<Y>\d\d\d\d)-(?P<m>1[0-2]|0[1-9]|[1-9])
    -(?P<d>3[0-1]|[1-2]\d|0[1-9]|[1-9]| [1-9])
    T(?P<H>2[0-3]|[0-1]\d|\d):(?P<M>[0-5]\d|\d)
    :(?P<S>6[0-1]|[0-5]\d|\d)\.(?P<f>[0-9]{1,6})
    (?P<z>[+-]\d\d:?[0-5]\d(:?[0-5]\d(\.\d{1,6})?)?|(?-i:Z))
>>
    matched at the start of the string without regard to case, asks that
    the match ends where the string ends, converts the groups and hands
    the fields to the [datetime] and [timezone] constructors.  Every
    failure on the way is a [ValueError].  A field of one or two characters
    is followed by a character that is no digit, so the match is found
    without backtracking: the two-character alternatives are tried before
    the one-character one.  A [string] is a sequence of characters with
    code points below 256, among which [\d] matches ['0'] to ['9'] only. *)

Definition is_digit (c : ascii) : bool :=
  (48 <=? nat_of_ascii c)%nat && (nat_of_ascii c <=? 57)%nat.

Definition digit_val (c : ascii) : Z := Z.of_nat (nat_of_ascii c) - 48.

(** [[lo-hi]] *)
Definition in_range (lo hi c : ascii) : bool :=
  (nat_of_ascii lo <=? nat_of_ascii c)%nat
    && (nat_of_ascii c <=? nat_of_ascii hi)%nat.

(** Reads exactly [w] decimal digits. *)
Fixpoint read_digits (w : nat) (acc : Z) (s : string) : option (Z * string) :=
  match w with
  | O => Some (acc, s)
  | S w' =>
      match s with
      | String c s' =>
          if is_digit c then read_digits w' (10 * acc + digit_val c) s'
          else None
      | EmptyString => None
      end
  end.

Definition expect (c : ascii) (s : string) : option string :=
  match s with
  | String c' s' => if Ascii.eqb c c' then Some s' else None
  | EmptyString => None
  end.

(** The [T] of the format, in either case. *)
Definition expect_T (s : string) : option string :=
  match s with
  | String c s' =>
      if Ascii.eqb c "T"%char || Ascii.eqb c "t"%char then Some s' else None
  | EmptyString => None
  end.

(** [int] of two characters, the first of which may be a space. *)
Definition int2 (a b : ascii) : Z :=
  10 * (if Ascii.eqb a " "%char then 0 else digit_val a) + digit_val b.

(** A group of one or two characters: [two] tells the pairs that one of
    the two-character alternatives matches, [one] the characters that the
    one-character alternative matches. *)
Definition read_group (two : ascii -> ascii -> bool) (one : ascii -> bool)
    (s : string) : option (Z * string) :=
  match s with
  | String a (String b s') =>
      if two a b then Some (int2 a b, s')
      else if one a then Some (digit_val a, String b s')
      else None
  | String a EmptyString => if one a then Some (digit_val a, "") else None
  | EmptyString => None
  end.

Definition nonzero_digit (c : ascii) : bool := in_range "1" "9" c.

(** [%m]: [1[0-2]|0[1-9]|[1-9]] *)
Definition m_two (a b : ascii) : bool :=
  (Ascii.eqb a "1" && in_range "0" "2" b)
    || (Ascii.eqb a "0" && nonzero_digit b).

(** [%d]: [3[0-1]|[1-2]\d|0[1-9]|[1-9]| [1-9]] *)
Definition d_two (a b : ascii) : bool :=
  (Ascii.eqb a "3" && in_range "0" "1" b)
    || (in_range "1" "2" a && is_digit b)
    || (Ascii.eqb a "0" && nonzero_digit b)
    || (Ascii.eqb a " " && nonzero_digit b).

(** [%H]: [2[0-3]|[0-1]\d|\d] *)
Definition H_two (a b : ascii) : bool :=
  (Ascii.eqb a "2" && in_range "0" "3" b)
    || (in_range "0" "1" a && is_digit b).

(** [%M]: [[0-5]\d|\d] *)
Definition M_two (a b : ascii) : bool := in_range "0" "5" a && is_digit b.

(** [%S]: [6[0-1]|[0-5]\d|\d] *)
Definition S_two (a b : ascii) : bool :=
  (Ascii.eqb a "6" && in_range "0" "1" b)
    || (in_range "0" "5" a && is_digit b).

(** At most [w] more digits of a fraction of which [acc] was read: the
    value is padded with zeros to the full width. *)
Fixpoint read_frac (w : nat) (acc : Z) (s : string) : Z * string :=
  match w with
  | O => (acc, s)
  | S w' =>
      match s with
      | String c s' =>
          if is_digit c then read_frac w' (10 * acc + digit_val c) s'
          else (acc * 10 ^ Z.of_nat w, s)
      | EmptyString => (acc * 10 ^ Z.of_nat w, s)
      end
  end.

(** [%f]: [[0-9]{1,6}], as microseconds *)
Definition read_fraction (s : string) : option (Z * string) :=
  match s with
  | String c _ => if is_digit c then Some (read_frac 6 0 s) else None
  | EmptyString => None
  end.

(** [:?] *)
Definition read_colon (s : string) : bool * string :=
  match s with
  | String c s' => if Ascii.eqb c ":"%char then (true, s') else (false, s)
  | EmptyString => (false, s)
  end.

(** [[0-5]\d] *)
Definition read_sixty (s : string) : option (Z * string) :=
  match s with
  | String a (String b s') =>
      if M_two a b then Some (10 * digit_val a + digit_val b, s') else None
  | _ => None
  end.

(** [(\.\d{1,6})?], as microseconds *)
Definition read_z_fraction (s : string) : Z * string :=
  match s with
  | String c s' =>
      if Ascii.eqb c "."%char
      then match read_fraction s' with
           | Some (u, s'') => (u, s'')
           | None => (0, s)
           end
      else (0, s)
  | EmptyString => (0, s)
  end.

(** [%z], as the offset in microseconds.  After the match the conversion
    asks that the seconds, if there are any, are set off by a colon exactly
    when the minutes are. *)
Definition read_z (s : string) : option (Z * string) :=
  match s with
  | String c s1 =>
      if Ascii.eqb c "Z"%char then Some (0, s1)
      else
        sg ← (if Ascii.eqb c "+"%char then Some 1
              else if Ascii.eqb c "-"%char then Some (-1)
              else None);
        '(zh, s2) ← read_digits 2 0 s1;
        let '(colon1, s3) := read_colon s2 in
        '(zm, s4) ← read_sixty s3;
        let '(colon2, s5) := read_colon s4 in
        match read_sixty s5 with
        | Some (zs, s6) =>
            let '(zu, s7) := read_z_fraction s6 in
            if Bool.eqb colon1 colon2
            then Some (sg * ((zh * 3600 + zm * 60 + zs) * 1000000 + zu), s7)
            else None
        | None => Some (sg * ((zh * 3600 + zm * 60) * 1000000), s4)
        end
  | EmptyString => None
  end.

(** [datetime.strptime(s, '%Y-%m-%dT%H:%M:%S.%f%z')]; [None] stands for the
    [ValueError]. *)
Definition strptime (s : string) : option datetime :=
  '(y, s) ← read_digits 4 0 s;
  s ← expect "-"%char s;
  '(m, s) ← read_group m_two nonzero_digit s;
  s ← expect "-"%char s;
  '(d, s) ← read_group d_two nonzero_digit s;
  s ← expect_T s;
  '(hh, s) ← read_group H_two is_digit s;
  s ← expect ":"%char s;
  '(mi, s) ← read_group M_two is_digit s;
  s ← expect ":"%char s;
  '(ss, s) ← read_group S_two is_digit s;
  s ← expect "."%char s;
  '(us, s) ← read_fraction s;
  '(off, s) ← read_z s;
  let t := mk_datetime y m d hh mi ss us (Some off) in
  if String.eqb s "" && valid_datetime t then Some t else None.

(** The fixed format in the words of the spec,
    [YYYY-MM-DDTHH:MM:SS.ffffff±HHMM]: the string is made of digits in the
    places of the letters, of the punctuation as it stands, and of a sign
    and four digits for the offset. *)
Definition shape_char (p c : ascii) : bool :=
  if Ascii.eqb p "d"%char then is_digit c
  else if Ascii.eqb p "s"%char
       then Ascii.eqb c "+"%char || Ascii.eqb c "-"%char
       else Ascii.eqb p c.

Fixpoint has_shape (p s : string) : bool :=
  match p, s with
  | EmptyString, EmptyString => true
  | String pc p', String c s' => shape_char pc c && has_shape p' s'
  | _, _ => false
  end.

Definition in_fixed_format (s : string) : bool :=
  has_shape "dddd-dd-ddTdd:dd:dd.ddddddsdddd" s.

(** ** Python values and JSON documents *)

(** The values a record is made of.  A [float] is the number it stands for
    in binary64, all NaNs being one.  [PObject] stands for an object of any
    other class (a set, a connection, ...), known by its address only.
    The induction principles that reach below lists follow the types. *)
Unset Elimination Schemes.
Inductive pyval : Type :=
| PNone
| PBool (b : bool)
| PInt (n : Z)
| PFloat (f : spec_float)
| PStr (s : string)
| PList (l : list pyval)
| PTuple (l : list pyval)
| PDict (d : list (string * pyval))
| PDatetime (t : datetime)
| PObject (addr : nat).

Abbreviation pydict := (list (string * pyval)).

(** What the text of an [info] column spells.  A number written with a
    fraction or an exponent, and each of the constants [NaN], [Infinity]
    and [-Infinity], is kept as the [float] that it reads as. *)
Inductive json : Type :=
| JNull
| JBool (b : bool)
| JNum (n : Z)
| JFloat (f : spec_float)
| JStr (s : string)
| JArr (items : list json)
| JObj (members : list (string * json)).
Set Elimination Schemes.

(** ** Induction on values and documents *)

Section pyval_induction.
Variable P : pyval -> Prop.
Hypothesis HNone : P PNone.
Hypothesis HBool : forall b, P (PBool b).
Hypothesis HInt : forall n, P (PInt n).
Hypothesis HFloat : forall f, P (PFloat f).
Hypothesis HStr : forall s, P (PStr s).
Hypothesis HList : forall l, Forall P l -> P (PList l).
Hypothesis HTuple : forall l, Forall P l -> P (PTuple l).
Hypothesis HDict : forall d, Forall (fun kv => P kv.2) d -> P (PDict d).
Hypothesis HDatetime : forall t, P (PDatetime t).
Hypothesis HObject : forall a, P (PObject a).

Definition pyval_ind : forall v, P v :=
  fix go (v : pyval) : P v :=
    match v with
    | PNone => HNone
    | PBool b => HBool b
    | PInt n => HInt n
    | PFloat f => HFloat f
    | PStr s => HStr s
    | PList l =>
        HList l
          ((fix all (l : list pyval) : Forall P l :=
              match l with
              | [] => List.Forall_nil _
              | x :: l' => @List.Forall_cons _ P x l' (go x) (all l')
              end) l)
    | PTuple l =>
        HTuple l
          ((fix all (l : list pyval) : Forall P l :=
              match l with
              | [] => List.Forall_nil _
              | x :: l' => @List.Forall_cons _ P x l' (go x) (all l')
              end) l)
    | PDict d =>
        HDict d
          ((fix all (d : pydict) : Forall (fun kv => P kv.2) d :=
              match d with
              | [] => List.Forall_nil _
              | kv :: d' =>
                  @List.Forall_cons _ (fun kv => P kv.2) kv d' (go kv.2) (all d')
              end) d)
    | PDatetime t => HDatetime t
    | PObject a => HObject a
    end.
End pyval_induction.

Section json_induction.
Variable P : json -> Prop.
Hypothesis HNull : P JNull.
Hypothesis HBool : forall b, P (JBool b).
Hypothesis HNum : forall n, P (JNum n).
Hypothesis HFloat : forall f, P (JFloat f).
Hypothesis HStr : forall s, P (JStr s).
Hypothesis HArr : forall l, Forall P l -> P (JArr l).
Hypothesis HObj : forall m, Forall (fun kv => P kv.2) m -> P (JObj m).

Definition json_ind : forall j, P j :=
  fix go (j : json) : P j :=
    match j with
    | JNull => HNull
    | JBool b => HBool b
    | JNum n => HNum n
    | JFloat f => HFloat f
    | JStr s => HStr s
    | JArr l =>
        HArr l
          ((fix all (l : list json) : Forall P l :=
              match l with
              | [] => List.Forall_nil _
              | x :: l' => @List.Forall_cons _ P x l' (go x) (all l')
              end) l)
    | JObj m =>
        HObj m
          ((fix all (m : list (string * json))
              : Forall (fun kv => P kv.2) m :=
              match m with
              | [] => List.Forall_nil _
              | kv :: m' =>
                  @List.Forall_cons _ (fun kv => P kv.2) kv m' (go kv.2) (all m')
              end) m)
    end.
End json_induction.

(** *** [dict] operations, on association lists in insertion order *)

Section dict.
Context {V : Type}.
Implicit Types (d : list (string * V)) (k : string) (v : V).

(** [d.get(k)] *)
Fixpoint dict_get d k : option V :=
  match d with
  | [] => None
  | (k', v) :: d' => if String.eqb k k' then Some v else dict_get d' k
  end.

(** [k in d] *)
Definition dict_contains d k : bool :=
  match dict_get d k with Some _ => true | None => false end.

(** [d[k] = v]: an existing key keeps its place, a new one goes last. *)
Fixpoint dict_set d k v : list (string * V) :=
  match d with
  | [] => [(k, v)]
  | (k', v') :: d' =>
      if String.eqb k k' then (k', v) :: d' else (k', v') :: dict_set d' k v
  end.

(** [d.pop(k, None)], the popped value dropped. *)
Fixpoint dict_pop d k : list (string * V) :=
  match d with
  | [] => []
  | (k', v) :: d' =>
      if String.eqb k k' then d' else (k', v) :: dict_pop d' k
  end.

(** [d.update(other)] *)
Definition dict_update d (other : list (string * V)) : list (string * V) :=
  fold_left (fun acc kv => dict_set acc kv.1 kv.2) other d.

(** [dict(pairs)] *)
Definition dict_of_pairs (pairs : list (string * V)) : list (string * V) :=
  dict_update [] pairs.

Definition dict_keys d : list string := map fst d.
End dict.

(** *** Traversals that stop at the first exception *)

Definition traverse {A B} (f : A -> result B) : list A -> result (list B) :=
  fix go l :=
    match l with
    | [] => Ok []
    | x :: l' =>
        match f x with
        | Ok y => match go l' with Ok ys => Ok (y :: ys) | Raise e => Raise e end
        | Raise e => Raise e
        end
    end.

(** One [(key, value)] member, its value mapped by [f]. *)
Definition on_value {A B} (f : A -> result B) (kv : string * A)
  : result (string * B) :=
  match f kv.2 with Ok y => Ok (kv.1, y) | Raise e => Raise e end.

(** ** The codec *)

(** [JSONCodec.Encoder.default]: a timestamp becomes the tagging object,
    anything else goes to [json.JSONEncoder.default], which raises. *)
Definition default (obj : pyval) : result pyval :=
  match obj with
  | PDatetime t => Ok (PDict [("__datetime__", PStr (strftime t))])
  | _ => Raise TypeError
  end.

(** [json.JSONEncoder]: the types it knows are written as they are, lists
    and tuples alike; for a value of any other type it asks [dflt].  A
    [float] is written by [float.__repr__], the shortest decimal that reads
    back as the same number, and as [NaN], [Infinity] or [-Infinity] if it
    is none ([allow_nan] is left on). *)
Fixpoint iterencode (dflt : pyval -> result json) (o : pyval) : result json :=
  match o with
  | PNone => Ok JNull
  | PBool b => Ok (JBool b)
  | PInt n => Ok (JNum n)
  | PFloat f => Ok (JFloat f)
  | PStr s => Ok (JStr s)
  | PList l | PTuple l => JArr <$> traverse (iterencode dflt) l
  | PDict d => JObj <$> traverse (on_value (iterencode dflt)) d
  | PDatetime _ | PObject _ => dflt o
  end.

(** [Encoder().encode]: where [json.JSONEncoder] meets a type it does not
    know it calls [default] and encodes what [default] returns.  What
    [default] returns here is a mapping with one string in it, so the inner
    encoding never comes back to [default] (lemma [default_is_plain]). *)
Definition Encoder_encode : pyval -> result json :=
  iterencode (fun o => default o ≫= iterencode (fun _ => Raise TypeError)).

(** [datetime.datetime.strptime(x, DATETIME_FORMAT)] *)
Definition py_strptime (x : pyval) : result pyval :=
  match x with
  | PStr s =>
      match strptime s with
      | Some t => Ok (PDatetime t)
      | None => Raise ValueError
      end
  | _ => Raise TypeError
  end.

(** [JSONCodec.Decoder.object_hook] *)
Definition object_hook (obj : pydict) : result pyval :=
  match dict_get obj "__datetime__" with
  | Some x => py_strptime x
  | None => Ok (PDict obj)
  end.

(** [Decoder().decode]: [json.JSONDecoder] calls [object_hook] on every
    object, innermost first, once its members are read into a [dict]. *)
Fixpoint Decoder_decode (j : json) : result pyval :=
  match j with
  | JNull => Ok PNone
  | JBool b => Ok (PBool b)
  | JNum n => Ok (PInt n)
  | JFloat f => Ok (PFloat f)
  | JStr s => Ok (PStr s)
  | JArr items => PList <$> traverse Decoder_decode items
  | JObj members =>
      traverse (on_value Decoder_decode) members
        ≫= fun pairs => object_hook (dict_of_pairs pairs)
  end.

(** *** [JSONCodec.__new__]: the singleton *)

Record codec : Type := mk_codec {
  codec_addr : nat;
  encode : pyval -> result json;
  decode : json -> result pyval
}.

(** The part of the interpreter's state that [__new__] reads and writes:
    the allocator and the class attribute [JSONCodec.instance] ([None] while
    [hasattr(cls, 'instance')] is false). *)
Record interp : Type := mk_interp {
  next_addr : nat;
  instance : option codec
}.

(** The class is loaded and the constructor has not been called yet. *)
Definition interp0 : interp := mk_interp 0 None.

(** [JSONCodec()], that is [JSONCodec.__new__]: the first call allocates the
    instance, binds its [encode] and [decode] and keeps it in the class;
    every call returns [cls.instance]. *)
Definition JSONCodec (w : interp) : codec * interp :=
  match instance w with
  | Some c => (c, w)
  | None =>
      let c := mk_codec (next_addr w) Encoder_encode Decoder_decode in
      (c, mk_interp (S (next_addr w)) (Some c))
  end.

(** The instance that the first call creates, and that every later call
    returns. *)
Definition the_codec : codec := (JSONCodec interp0).1.

(** [json_encode(info)]: [JSONCodec().encode(info)] *)
Definition json_encode (info : pyval) : result json := encode the_codec info.

(** [json_decode(info)]: [JSONCodec().decode(info)] *)
Definition json_decode (info : json) : result pyval := decode the_codec info.

(** ** The table of [State] rows and the ORM *)

(** One row per primary key [(telegram_id, description)], holding [info]. *)
Abbreviation store := (gmap (Z * string) json).

Record State : Type := mk_State {
  telegram_id : Z;
  description : string;
  info : json
}.

(** Code that runs against a state [S]: it returns or raises, and leaves the
    state as it was at that point. *)
Definition st (S A : Type) : Type := S -> result A * S.

#[global] Instance st_ret {S} : MRet (st S) := fun A a s => (Ok a, s).
#[global] Instance st_bind {S} : MBind (st S) := fun A B f m s =>
  match m s with
  | (Ok a, s') => f a s'
  | (Raise e, s') => (Raise e, s')
  end.

(** A computation that does not touch the state. *)
Definition lift {S A} (r : result A) : st S A := fun s => (r, s).

(** [try: body except e: handler] *)
Definition try_except {S A} (body : st S A) (e : exn) (handler : st S A)
  : st S A :=
  fun s =>
    match body s with
    | (Raise e', s') => if decide (e' = e) then handler s' else (Raise e', s')
    | (Ok a, s') => (Ok a, s')
    end.

(** Code that runs against the table of rows. *)
Abbreviation db := (st store).

(** [@orm.db_session]: what the body wrote is committed when it returns and
    rolled back when it raises. *)
Definition db_session {A} (body : db A) : db A :=
  fun s =>
    match body s with
    | (Ok a, s') => (Ok a, s')
    | (Raise e, _) => (Raise e, s)
    end.

(** [State[chat_id, state_id]] *)
Definition State_getitem (chat_id : Z) (state_id : string) : db State :=
  fun s =>
    match s !! (chat_id, state_id) with
    | Some text => (Ok (mk_State chat_id state_id text), s)
    | None => (Raise ObjectNotFound, s)
    end.

(** [State.get(telegram_id=chat_id, description=state_id)] *)
Definition State_get (chat_id : Z) (state_id : string) : db (option State) :=
  fun s => (Ok (mk_State chat_id state_id <$> s !! (chat_id, state_id)), s).

(** [state.info = text] *)
Definition State_set_info (state : State) (text : json) : db unit :=
  fun s => (Ok tt, <[(telegram_id state, description state) := text]> s).

(** [State(telegram_id=chat_id, description=state_id, info=text)]; a second
    row under a primary key in use is refused. *)
Definition State_new (chat_id : Z) (state_id : string) (text : json) : db unit :=
  fun s =>
    match s !! (chat_id, state_id) with
    | Some _ => (Raise CacheIndexError, s)
    | None => (Ok tt, <[(chat_id, state_id) := text]> s)
    end.

(** [State.select()], the rows in the order the table yields them. *)
Definition State_select : db (list State) :=
  fun s =>
    (Ok (map (fun r => mk_State r.1.1 r.1.2 r.2) (map_to_list s)), s).

(** ** The state store: [Resources] *)

(** [info.update(chat_state)]: only a mapping has the method. *)
Definition py_update (info : pyval) (chat_state : pydict) : result pyval :=
  match info with
  | PDict d => Ok (PDict (dict_update d chat_state))
  | _ => Raise AttributeError
  end.

(** The body of [Resources.set_state].  On values, [chat_state.copy()] is
    the same record again; the copy and the caller's object are told apart
    in module [Obj] below. *)
Definition set_state_body (state_id : string) (chat_id : Z)
    (chat_state : pydict) : db unit :=
  let chat_state := dict_pop chat_state "__memory__" in
  try_except
    (state ← State_getitem chat_id state_id;
     info ← lift (json_decode (info state));
     info ← lift (py_update info chat_state);
     text ← lift (json_encode info);
     State_set_info state text)
    ObjectNotFound
    (text ← lift (json_encode (PDict chat_state));
     State_new chat_id state_id text).

(** [Resources.set_state] *)
Definition set_state (state_id : string) (chat_id : Z) (chat_state : pydict)
  : db unit :=
  db_session (set_state_body state_id chat_id chat_state).

(** [Resources.get_state] *)
Definition get_state (state_id : string) (chat_id : Z) : db pyval :=
  db_session
    (state ← State_get chat_id state_id;
     match state with
     | Some state => lift (json_decode (info state))
     | None => mret (PDict [])
     end).

(** *** Write-through records and the lazy map *)

(** Modelled from the spec: [gdgajubot.util.StateDict], which is not among
    the sources.  A record wraps a mapping and a dump function; every
    mutation of the mapping is followed by a call of the dump function on a
    shallow copy of the mapping without its scratch field. *)
Record StateDict : Type := mk_StateDict {
  sd_data : pydict;
  dump_function : pydict -> db unit
}.

Definition StateDict_dump (r : StateDict) : db unit :=
  dump_function r (dict_pop (sd_data r) "__memory__").

(** [record[k] = v] *)
Definition StateDict_setitem (r : StateDict) (k : string) (v : pyval)
  : db StateDict :=
  let r' := mk_StateDict (dict_set (sd_data r) k v) (dump_function r) in
  StateDict_dump r' ≫= fun _ => mret r'.

(** [del record[k]] for a field that is there *)
Definition StateDict_delitem (r : StateDict) (k : string) : db StateDict :=
  let r' := mk_StateDict (dict_pop (sd_data r) k) (dump_function r) in
  StateDict_dump r' ≫= fun _ => mret r'.

(** Modelled from the spec: [gdgajubot.util.MissingDict], which is not among
    the sources.  Reading a key that is not there calls the factory on the
    key once, stores what it returns under the key and returns it. *)
Record MissingDict (K V : Type) `{Countable K} : Type := mk_MissingDict {
  md_items : gmap K V;
  default_factory : K -> db V
}.
Arguments mk_MissingDict {K V _ _} md_items default_factory.
Arguments md_items {K V _ _} m.
Arguments default_factory {K V _ _} m.

Section MissingDict.
Context {K V : Type} `{Countable K}.

(** [m[k]], with the map as the read leaves it *)
Definition MissingDict_getitem (m : MissingDict K V) (k : K)
  : db (V * MissingDict K V) :=
  match md_items m !! k with
  | Some v => mret (v, m)
  | None =>
      default_factory m k ≫= fun v =>
      mret (v, mk_MissingDict (<[k := v]> (md_items m)) (default_factory m))
  end.

(** [m[k] = v] *)
Definition MissingDict_setitem (m : MissingDict K V) (k : K) (v : V)
  : MissingDict K V :=
  mk_MissingDict (<[k := v]> (md_items m)) (default_factory m).
End MissingDict.

Abbreviation states_map := (MissingDict string (MissingDict Z StateDict)).

(** [sub in s] for two strings *)
Definition str_contains (s sub : string) : bool :=
  match String.index 0 sub s with Some _ => true | None => false end.

(** [s in l] for a string and a list or tuple, where the comparisons it
    takes are between values of the classes known here: an element is found
    when it is that string. *)
Definition holds_str (l : list pyval) (s : string) : bool :=
  existsb (fun x => match x with PStr s' => String.eqb s' s | _ => false end) l.

Definition is_object (v : pyval) : bool :=
  match v with PObject _ => true | _ => false end.

(** The values on which [__state_dict] below raises by itself: those that
    are no container, and the lists, tuples and strings for which the
    membership test comes out false. *)
Definition no_record (v : pyval) : bool :=
  match v with
  | PNone | PBool _ | PInt _ | PFloat _ | PDatetime _ => true
  | PStr s => negb (str_contains s "__memory__")
  | PList l | PTuple l =>
      negb (existsb is_object l || holds_str l "__memory__")
  | PDict _ | PObject _ => false
  end.

Section lazy_map.

(** What the sources do not tell.  [StateDict] is made for a mapping.  When
    [__state_dict] hands it a value of another kind, because the membership
    test came out true on a list, a tuple or a string, or because an object
    of another class took part in it, what comes of it is decided in
    [gdgajubot.util], which is not among the sources.  [StateDict_other]
    stands for it: from the value and the dump function, a record or an
    exception.  What is proved below holds whichever it is. *)
Variable StateDict_other : pyval -> (pydict -> db unit) -> result StateDict.

(** [Resources.__state_dict].  On a mapping, the constructor of the record
    is modelled from the spec.  On a value that is no container the
    membership test raises [TypeError]; on a list, a tuple or a string
    without ['__memory__'] the item assignment does. *)
Definition __state_dict (state_id : string) (chat_id : Z) (data : pyval)
  : result StateDict :=
  let dump := fun state => set_state state_id chat_id state in
  match data with
  | PDict d =>
      let d :=
        if dict_contains d "__memory__" then d
        else dict_set d "__memory__" (PDict []) in
      Ok (mk_StateDict d dump)
  | PNone | PBool _ | PInt _ | PFloat _ | PDatetime _ => Raise TypeError
  | PStr s =>
      if str_contains s "__memory__" then StateDict_other data dump
      else Raise TypeError
  | PList l | PTuple l =>
      if existsb is_object l || holds_str l "__memory__"
      then StateDict_other data dump
      else Raise TypeError
  | PObject _ => StateDict_other data dump
  end.

(** The two factories [load_states] builds its map with. *)
Definition chat_factory (state_id : string) (chat_id : Z) : db StateDict :=
  get_state state_id chat_id ≫= fun data =>
  lift (__state_dict state_id chat_id data).

Definition state_factory (state_id : string) : db (MissingDict Z StateDict) :=
  mret (mk_MissingDict ∅ (chat_factory state_id)).

(** [states[state_id][chat_id] = record]: the inner map is an object that
    [states] holds, so what is stored in it shows through [states]. *)
Definition states_setitem (states : states_map) (state_id : string)
    (chat_id : Z) (record : StateDict) : db states_map :=
  MissingDict_getitem states state_id ≫= fun '(inner, states) =>
  mret (MissingDict_setitem states state_id
          (MissingDict_setitem inner chat_id record)).

(** [states[state_id][chat_id]] *)
Definition states_getitem (states : states_map) (state_id : string)
    (chat_id : Z) : db (StateDict * states_map) :=
  MissingDict_getitem states state_id ≫= fun '(inner, states) =>
  MissingDict_getitem inner chat_id ≫= fun '(record, inner) =>
  mret (record, MissingDict_setitem states state_id inner).

(** The loop of [load_states] over the rows. *)
Fixpoint load_rows (rows : list State) (states : states_map) : db states_map :=
  match rows with
  | [] => mret states
  | state :: rows' =>
      lift (json_decode (info state)
              ≫= __state_dict (description state) (telegram_id state))
        ≫= fun record =>
      states_setitem states (description state) (telegram_id state) record
        ≫= fun states =>
      load_rows rows' states
  end.

(** [Resources.load_states] *)
Definition load_states : db states_map :=
  db_session
    (let states := mk_MissingDict ∅ state_factory in
     State_select ≫= fun rows => load_rows rows states).

End lazy_map.

(** A constructor that refuses what is no mapping: one of the ways it can
    go. *)
Definition refuse_other (data : pyval) (dump : pydict -> db unit)
  : result StateDict :=
  Raise TypeError.

(** ** [set_state] on objects

    The caller of [set_state] holds a [dict] object, which the callee could
    write to.  Here the mappings that [set_state] handles live at addresses
    in a heap; the values inside them stay trees, since [set_state] writes
    to no value below the top of a mapping. *)
Module Obj.

Record mem : Type := mk_mem {
  heap : gmap nat pydict;
  table : store
}.

Abbreviation prog := (st mem).

(** What a variable holds: the address of a mapping, or another value. *)
Inductive ref : Type :=
| Ref (a : nat)
| Val (v : pyval).

(** A new mapping object. *)
Definition alloc (d : pydict) : prog nat :=
  fun m =>
    let a := fresh (dom (heap m)) in
    (Ok a, mk_mem (<[a := d]> (heap m)) (table m)).

(** The contents of the object at [a]; an address comes from [alloc] or
    from the caller, who holds a live object. *)
Definition read (a : nat) : prog pydict :=
  fun m => (Ok (from_option id [] (heap m !! a)), m).

Definition write (a : nat) (d : pydict) : prog unit :=
  fun m => (Ok tt, mk_mem (<[a := d]> (heap m)) (table m)).

(** [x.copy()] *)
Definition copy (a : nat) : prog nat := read a ≫= alloc.

(** [x.pop(k, None)] *)
Definition pop (a : nat) (k : string) : prog unit :=
  read a ≫= fun d => write a (dict_pop d k).

(** [x.update(y)] *)
Definition update (x : ref) (b : nat) : prog unit :=
  match x with
  | Ref a =>
      read a ≫= fun d => read b ≫= fun other => write a (dict_update d other)
  | Val _ => lift (Raise AttributeError)
  end.

(** A call into the ORM. *)
Definition orm {A} (f : db A) : prog A :=
  fun m => let '(r, t) := f (table m) in (r, mk_mem (heap m) t).

(** [json_decode(text)]: a decoded mapping is a new object. *)
Definition decode_text (text : json) : prog ref :=
  match json_decode text with
  | Ok (PDict d) => alloc d ≫= fun a => mret (Ref a)
  | Ok v => mret (Val v)
  | Raise e => lift (Raise e)
  end.

(** [json_encode(x)] *)
Definition encode_ref (x : ref) : prog json :=
  match x with
  | Ref a => read a ≫= fun d => lift (json_encode (PDict d))
  | Val v => lift (json_encode v)
  end.

(** [@orm.db_session]: the rollback is of the table, not of the heap. *)
Definition session {A} (body : prog A) : prog A :=
  fun m =>
    match body m with
    | (Ok a, m') => (Ok a, m')
    | (Raise e, m') => (Raise e, mk_mem (heap m') (table m))
    end.

(** [Resources.set_state], [chat_state] being the address of the
    caller's record. *)
Definition set_state (state_id : string) (chat_id : Z) (chat_state : nat)
  : prog unit :=
  session
    (chat_state ← copy chat_state;
     _ ← pop chat_state "__memory__";
     try_except
       (state ← orm (State_getitem chat_id state_id);
        info ← decode_text (info state);
        _ ← update info chat_state;
        text ← encode_ref info;
        orm (State_set_info state text))
       ObjectNotFound
       (text ← encode_ref (Ref chat_state);
        orm (State_new chat_id state_id text))).

(** The heap [m'] holds, at every address in use in [m], what [m] holds
    there. *)
Definition preserves (m m' : mem) : Prop :=
  forall b, is_Some (heap m !! b) -> heap m' !! b = heap m !! b.

End Obj.

(** ** The domains of the statements *)

(** What holds of every value Python can build: the keys of a mapping are
    distinct and the fields of a timestamp are in range. *)
Fixpoint well_formed (v : pyval) : bool :=
  match v with
  | PNone | PBool _ | PInt _ | PFloat _ | PStr _ | PObject _ => true
  | PList l | PTuple l => forallb well_formed l
  | PDict d =>
      bool_decide (NoDup (dict_keys d))
        && forallb (fun kv => well_formed kv.2) d
  | PDatetime t => valid_datetime t
  end.


(** The same without tuples and without a mapping that has the key
    ["__datetime__"]. *)
Fixpoint untagged (v : pyval) : bool :=
  match v with
  | PNone | PBool _ | PInt _ | PFloat _ | PStr _ => true
  | PList l => forallb untagged l
  | PTuple _ => false
  | PDict d =>
      negb (dict_contains d "__datetime__")
        && forallb (fun kv => untagged kv.2) d
  | PDatetime t => is_aware t
  | PObject _ => false
  end.

(** Every timestamp in the value has a year of four digits. *)
Fixpoint four_digit_years (v : pyval) : bool :=
  match v with
  | PNone | PBool _ | PInt _ | PFloat _ | PStr _ | PObject _ => true
  | PList l | PTuple l => forallb four_digit_years l
  | PDict d => forallb (fun kv => four_digit_years kv.2) d
  | PDatetime t => 1000 <=? year t
  end.



(** A value that the encoder has no spelling for: an object of another
    class occurs in it. *)
Fixpoint has_unsupported (v : pyval) : bool :=
  match v with
  | PNone | PBool _ | PInt _ | PFloat _ | PStr _ | PDatetime _ => false
  | PList l | PTuple l => existsb has_unsupported l
  | PDict d => existsb (fun kv => has_unsupported kv.2) d
  | PObject _ => true
  end.

(** The document is an object with a member named [k]. *)
Definition has_member (j : json) (k : string) : bool :=
  match j with
  | JObj members => dict_contains members k
  | _ => false
  end.

(** [j] occurs in a document, at any depth. *)
Inductive occurs_in (j : json) : json -> Prop :=
| occurs_here : occurs_in j j
| occurs_item items x :
    x ∈ items -> occurs_in j x -> occurs_in j (JArr items)
| occurs_member members k x :
    (k, x) ∈ members -> occurs_in j x -> occurs_in j (JObj members).

(** [n] calls of the constructor in a row: the instances they return and
    the state they leave. *)
Fixpoint construct (n : nat) (w : interp) : list codec * interp :=
  match n with
  | O => ([], w)
  | S n' =>
      let '(c, w') := JSONCodec w in
      let '(cs, w'') := construct n' w' in
      (c :: cs, w'')
  end.

(** Sample values. *)
Definition sample_time : datetime :=
  mk_datetime 2020 2 29 23 59 58 123456 (Some (-10800000000)).

(** An aware timestamp of the year 999. *)
Definition early_time : datetime :=
  mk_datetime 999 1 2 3 4 5 6 (Some (-10800000000)).


(** Two mappings with the same fields, in whatever order: what [==] tells
    of two [dict]s whose values are numbers or strings. *)
Definition same_mapping (d1 d2 : pydict) : Prop :=
  forall k, dict_get d1 k = dict_get d2 k.

(** What the update branch of [set_state] computes from the text of the row
    and the record stripped of its scratch field. *)
Definition merged_text (text : json) (chat_state : pydict) : result json :=
  match json_decode text with
  | Ok old =>
      match py_update old chat_state with
      | Ok new => json_encode new
      | Raise e => Raise e
      end
  | Raise e => Raise e
  end.

(** [set_state] called for one key with each record of a list in turn, a
    failed call leaving the table as it was: the table in the end. *)
Fixpoint replay (state_id : string) (chat_id : Z) (records : list pydict)
    (s : store) : store :=
  match records with
  | [] => s
  | r :: records' =>
      replay state_id chat_id records' (set_state state_id chat_id r s).2
  end.

(** No row of the table has the scratch field among its members. *)
Definition scratch_free (s : store) : Prop :=
  forall key text, s !! key = Some text -> has_member text "__memory__" = false.

(** The tables that [set_state] builds from the empty one. *)
Inductive written_by_set_state : store -> Prop :=
| written_empty : written_by_set_state ∅
| written_set s state_id chat_id chat_state :
    written_by_set_state s ->
    NoDup (dict_keys chat_state) ->
    written_by_set_state (set_state state_id chat_id chat_state s).2.

(** A record with an object in its scratch field, the same record after the
    scratch field has changed, and the table that holds its fields. *)
Definition scratch_record : pydict :=
  [("step", PInt 1); ("__memory__", PDict [("conn", PObject 7)])].

Definition scratch_record' : pydict :=
  [("__memory__", PDict [("n", PInt 2)]); ("step", PInt 1)].

Definition flow_table : store := {[(42, "flow") := JObj [("step", JNum 1)]]}.


(** A table of two rows: one with a field written twice, one with a
    timestamp. *)
Definition loaded_table : store :=
  {[(42, "flow") := JObj [("step", JNum 1); ("step", JNum 2)];
    (7, "quiz") := JObj [("at", JObj [("__datetime__",
                                       JStr (strftime sample_time))])]]}.

(** What [load_states] maintains while it fills the map: the factories are
    the ones it was built with, and a record is stored only under a key of
    [K], the keys of the rows read so far. *)
Definition filled_from
    (other : pyval -> (pydict -> db unit) -> result StateDict)
    (K : Z * string -> Prop) (states : states_map) : Prop :=
  default_factory states = state_factory other /\
  forall state_id inner,
    md_items states !! state_id = Some inner ->
    default_factory inner = chat_factory other state_id /\
    forall chat_id record,
      md_items inner !! chat_id = Some record -> K (chat_id, state_id).

(** ** The rest of the state store *)

(** The inner loop of [Resources.update_states]: [set_state] for every chat
    of one state id, in the order of the mapping. *)
Fixpoint update_chats (state_id : string) (data : list (Z * pydict))
  : db unit :=
  match data with
  | [] => mret tt
  | (chat_id, chat_state) :: data' =>
      set_state state_id chat_id chat_state ≫= fun _ =>
      update_chats state_id data'
  end.

(** The outer loop, over the state ids. *)
Fixpoint update_entries (states : list (string * list (Z * pydict)))
  : db unit :=
  match states with
  | [] => mret tt
  | (state_id, data) :: states' =>
      update_chats state_id data ≫= fun _ => update_entries states'
  end.

(** [Resources.update_states]: one session around the two loops. *)
Definition update_states (states : list (string * list (Z * pydict)))
  : db unit :=
  db_session (update_entries states).

(** The primary keys that a snapshot names. *)
Definition snapshot_keys (states : list (string * list (Z * pydict)))
  : list (Z * string) :=
  flat_map (fun entry => map (fun chat => (chat.1, entry.1)) entry.2) states.

(** The record that [__state_dict] wraps around a decoded mapping. *)
Definition record_for (state_id : string) (chat_id : Z) (d : pydict)
  : StateDict :=
  mk_StateDict
    (if dict_contains d "__memory__" then d
     else dict_set d "__memory__" (PDict []))
    (fun state => set_state state_id chat_id state).

(** What a lazy map holds under a key, without reading it. *)
Definition states_lookup (states : states_map) (key : Z * string)
  : option StateDict :=
  md_items states !! key.2 ≫= fun inner => md_items inner !! key.1.

(** The text that [set_state] writes under a key, from the row it finds
    there, if any, and the record. *)
Definition new_text (row : option json) (chat_state : pydict) : result json :=
  match row with
  | Some text => merged_text text (dict_pop chat_state "__memory__")
  | None => json_encode (PDict (dict_pop chat_state "__memory__"))
  end.

(** ** Documents without the tag *)

(** No object of the document, at any depth, has a member named
    ["__datetime__"]. *)
Fixpoint tag_free (j : json) : bool :=
  match j with
  | JNull | JBool _ | JNum _ | JFloat _ | JStr _ => true
  | JArr items => forallb tag_free items
  | JObj members =>
      negb (dict_contains members "__datetime__")
        && forallb (fun kv => tag_free kv.2) members
  end.

(** The value with the structure of the document: arrays as lists, objects
    as mappings, a repeated member name keeping its last value. *)
Fixpoint plain (j : json) : pyval :=
  match j with
  | JNull => PNone
  | JBool b => PBool b
  | JNum n => PInt n
  | JFloat f => PFloat f
  | JStr s => PStr s
  | JArr items => PList (map plain items)
  | JObj members =>
      PDict (dict_of_pairs (map (fun kv => (kv.1, plain kv.2)) members))
  end.

(** A timestamp occurs in the value. *)
Fixpoint has_timestamp (v : pyval) : bool :=
  match v with
  | PNone | PBool _ | PInt _ | PFloat _ | PStr _ | PObject _ => false
  | PList l | PTuple l => existsb has_timestamp l
  | PDict d => existsb (fun kv => has_timestamp kv.2) d
  | PDatetime _ => true
  end.

(** * Properties *)

(** ** The timestamp format *)

Lemma append_cons c s rest : String c s +:+ rest = String c (s +:+ rest).
Proof. reflexivity. Qed.

Lemma append_empty_l rest : "" +:+ rest = rest.
Proof. reflexivity. Qed.

Lemma append_empty_r s : s +:+ "" = s.
Proof.
  induction s as [| c s IH]; [reflexivity |].
  rewrite append_cons. by f_equal.
Qed.

Lemma digit_char_digit d :
  0 <= d < 10 -> is_digit (digit_char d) = true /\ digit_val (digit_char d) = d.
Proof.
  intros Hd.
  assert (Hcases : d = 0 \/ d = 1 \/ d = 2 \/ d = 3 \/ d = 4 \/ d = 5 \/
                   d = 6 \/ d = 7 \/ d = 8 \/ d = 9) by lia.
  repeat (destruct Hcases as [-> | Hcases]; [vm_compute; auto |]).
  subst d. vm_compute. auto.
Qed.

Lemma read_digits_zfill w n a rest :
  read_digits w a (zfill w n +:+ rest)
  = Some (a * 10 ^ Z.of_nat w + n mod 10 ^ Z.of_nat w, rest).
Proof.
  revert a. induction w as [| w IH]; intros a.
  - cbn. rewrite Z.mod_1_r. do 2 f_equal. lia.
  - cbn [zfill String.append read_digits].
    set (d := (n / 10 ^ Z.of_nat w) mod 10).
    assert (Hd : 0 <= d < 10) by (apply Z.mod_pos_bound; lia).
    rewrite append_cons.
    destruct (digit_char_digit d Hd) as [-> ->].
    rewrite IH. do 2 f_equal.
    rewrite Nat2Z.inj_succ, Z.pow_succ_r by lia.
    assert (Hp : 0 < 10 ^ Z.of_nat w) by (apply Z.pow_pos_nonneg; lia).
    rewrite (Z.mul_comm 10 (10 ^ Z.of_nat w)).
    rewrite (Z.rem_mul_r n (10 ^ Z.of_nat w) 10) by lia.
    fold d. ring.
Qed.

Lemma read_field w n rest :
  0 <= n < 10 ^ Z.of_nat w ->
  read_digits w 0 (zfill w n +:+ rest) = Some (n, rest).
Proof.
  intros Hn. rewrite read_digits_zfill, Z.mod_small by lia. reflexivity.
Qed.

(** Digits followed by a character that is none are not enough digits. *)
Lemma read_digits_short w j n a c rest :
  is_digit c = false ->
  read_digits (w + S j) a (zfill w n +:+ String c rest) = None.
Proof.
  intros Hc. revert a. induction w as [| w IH]; intros a.
  - cbn [Nat.add zfill]. rewrite append_empty_l. cbn [read_digits].
    by rewrite Hc.
  - cbn [zfill Nat.add read_digits]. rewrite append_cons.
    set (d := (n / 10 ^ Z.of_nat w) mod 10).
    assert (Hd : 0 <= d < 10) by (apply Z.mod_pos_bound; lia).
    destruct (digit_char_digit d Hd) as [-> _]. apply IH.
Qed.

Lemma expect_lit c rest : expect c (String c "" +:+ rest) = Some rest.
Proof. rewrite append_cons, append_empty_l. cbn. by rewrite Ascii.eqb_refl. Qed.

Lemma expect_T_lit rest : expect_T ("T" +:+ rest) = Some rest.
Proof. reflexivity. Qed.

(** A property of the numbers of a range, checked one by one. *)
Lemma forallb_range (P : Z -> bool) lo k :
  forallb P (map (fun i => lo + Z.of_nat i) (seq 0 k)) = true ->
  forall n, lo <= n < lo + Z.of_nat k -> P n = true.
Proof.
  rewrite forallb_forall. intros Hall n Hn. apply Hall.
  apply in_map_iff. exists (Z.to_nat (n - lo)). split; [lia |].
  apply in_seq. lia.
Qed.

Lemma zfill_2 n :
  0 <= n < 100 ->
  zfill 2 n = String (digit_char (n / 10)) (String (digit_char (n mod 10)) "").
Proof.
  intros Hn. cbn [zfill]. change (10 ^ Z.of_nat 1) with 10.
  change (10 ^ Z.of_nat 0) with 1. rewrite Z.div_1_r.
  rewrite (Z.mod_small (n / 10)); [done |].
  split; [apply Z.div_pos; lia | apply Z.div_lt_upper_bound; lia].
Qed.

Lemma int2_digits n :
  0 <= n < 100 -> int2 (digit_char (n / 10)) (digit_char (n mod 10)) = n.
Proof.
  revert n. 
  enough (H : forall n, 0 <= n < 0 + Z.of_nat 100 ->
              (int2 (digit_char (n / 10)) (digit_char (n mod 10)) =? n) = true).
  { intros n Hn. apply Z.eqb_eq, H. lia. }
  apply forallb_range. vm_compute. reflexivity.
Qed.

(** A two-digit field that one of the two-character alternatives matches
    is read whole. *)
Lemma read_group_zfill two one n rest :
  0 <= n < 100 ->
  two (digit_char (n / 10)) (digit_char (n mod 10)) = true ->
  read_group two one (zfill 2 n +:+ rest) = Some (n, rest).
Proof.
  intros Hn Htwo. rewrite zfill_2 by done.
  rewrite !append_cons, append_empty_l. cbn [read_group].
  by rewrite Htwo, int2_digits.
Qed.

Lemma m_two_digits n :
  1 <= n <= 12 -> m_two (digit_char (n / 10)) (digit_char (n mod 10)) = true.
Proof.
  intros Hn.
  apply (forallb_range
           (fun n => m_two (digit_char (n / 10)) (digit_char (n mod 10))) 1 12);
    [vm_compute; reflexivity | lia].
Qed.

Lemma d_two_digits n :
  1 <= n <= 31 -> d_two (digit_char (n / 10)) (digit_char (n mod 10)) = true.
Proof.
  intros Hn.
  apply (forallb_range
           (fun n => d_two (digit_char (n / 10)) (digit_char (n mod 10))) 1 31);
    [vm_compute; reflexivity | lia].
Qed.

Lemma H_two_digits n :
  0 <= n < 24 -> H_two (digit_char (n / 10)) (digit_char (n mod 10)) = true.
Proof.
  intros Hn.
  apply (forallb_range
           (fun n => H_two (digit_char (n / 10)) (digit_char (n mod 10))) 0 24);
    [vm_compute; reflexivity | lia].
Qed.

Lemma M_two_digits n :
  0 <= n < 60 -> M_two (digit_char (n / 10)) (digit_char (n mod 10)) = true.
Proof.
  intros Hn.
  apply (forallb_range
           (fun n => M_two (digit_char (n / 10)) (digit_char (n mod 10))) 0 60);
    [vm_compute; reflexivity | lia].
Qed.

Lemma S_two_digits n :
  0 <= n < 60 -> S_two (digit_char (n / 10)) (digit_char (n mod 10)) = true.
Proof.
  intros Hn.
  apply (forallb_range
           (fun n => S_two (digit_char (n / 10)) (digit_char (n mod 10))) 0 60);
    [vm_compute; reflexivity | lia].
Qed.

Lemma read_sixty_zfill n rest :
  0 <= n < 60 -> read_sixty (zfill 2 n +:+ rest) = Some (n, rest).
Proof.
  intros Hn. rewrite zfill_2 by lia. rewrite !append_cons, append_empty_l.
  cbn [read_sixty]. rewrite M_two_digits by done.
  assert (H1 : 0 <= n / 10 < 10).
  { split; [apply Z.div_pos; lia | apply Z.div_lt_upper_bound; lia]. }
  assert (H2 : 0 <= n mod 10 < 10) by (apply Z.mod_pos_bound; lia).
  destruct (digit_char_digit _ H1) as [_ ->].
  destruct (digit_char_digit _ H2) as [_ ->].
  do 2 f_equal. pose proof (Z.div_mod n 10). lia.
Qed.

Lemma read_frac_zfill w n a rest :
  read_frac w a (zfill w n +:+ rest)
  = (a * 10 ^ Z.of_nat w + n mod 10 ^ Z.of_nat w, rest).
Proof.
  revert a. induction w as [| w IH]; intros a.
  - cbn. rewrite Z.mod_1_r. f_equal. lia.
  - cbn [zfill String.append read_frac].
    set (d := (n / 10 ^ Z.of_nat w) mod 10).
    assert (Hd : 0 <= d < 10) by (apply Z.mod_pos_bound; lia).
    rewrite append_cons.
    destruct (digit_char_digit d Hd) as [-> ->].
    rewrite IH. f_equal.
    rewrite Nat2Z.inj_succ, Z.pow_succ_r by lia.
    assert (Hp : 0 < 10 ^ Z.of_nat w) by (apply Z.pow_pos_nonneg; lia).
    rewrite (Z.mul_comm 10 (10 ^ Z.of_nat w)).
    rewrite (Z.rem_mul_r n (10 ^ Z.of_nat w) 10) by lia.
    fold d. ring.
Qed.

Lemma read_fraction_zfill n rest :
  0 <= n < 1000000 -> read_fraction (zfill 6 n +:+ rest) = Some (n, rest).
Proof.
  intros Hn. unfold read_fraction.
  rewrite read_frac_zfill. change (10 ^ Z.of_nat 6) with 1000000.
  rewrite Z.mod_small by lia.
  change (zfill 6 n) with
    (String (digit_char ((n / 10 ^ Z.of_nat 5) mod 10)) (zfill 5 n)).
  rewrite append_cons.
  assert (Hd : 0 <= (n / 10 ^ Z.of_nat 5) mod 10 < 10)
    by (apply Z.mod_pos_bound; lia).
  by destruct (digit_char_digit _ Hd) as [-> _].
Qed.

Lemma valid_datetime_bounds t :
  valid_datetime t = true ->
  1 <= year t <= 9999 /\ 1 <= month t <= 12 /\
  1 <= day t <= days_in_month (year t) (month t) /\
  0 <= hour t < 24 /\ 0 <= minute t < 60 /\ 0 <= second t < 60 /\
  0 <= microsecond t < 1000000 /\
  match utcoffset t with
  | Some o => -86400000000 < o < 86400000000
  | None => True
  end.
Proof.
  unfold valid_datetime, valid_offset. rewrite !andb_true_iff.
  rewrite !Z.leb_le, !Z.ltb_lt.
  destruct (utcoffset t); rewrite ?andb_true_iff, ?Z.ltb_lt; intuition lia.
Qed.

Lemma days_in_month_le y m : days_in_month y m <= 31.
Proof.
  unfold days_in_month.
  repeat match goal with |- context [if ?b then _ else _] => destruct b end; lia.
Qed.

(** The parts of an offset, as [%z] prints them, make up the offset. *)
Lemma offset_parts a :
  0 <= a < 86400000000 ->
  0 <= a / 3600000000 < 100 /\
  0 <= (a / 60000000) mod 60 < 60 /\
  0 <= (a / 1000000) mod 60 < 60 /\
  0 <= a mod 1000000 < 1000000 /\
  (a / 3600000000 * 3600 + (a / 60000000) mod 60 * 60
   + (a / 1000000) mod 60) * 1000000 + a mod 1000000 = a.
Proof.
  intros Ha.
  pose proof (Z.div_mod a 1000000 ltac:(lia)) as H1.
  pose proof (Z.mod_pos_bound a 1000000 ltac:(lia)) as B1.
  set (q := a / 1000000) in *.
  assert (E2 : a / 60000000 = q / 60).
  { unfold q. rewrite Z.div_div by lia. reflexivity. }
  assert (E3 : a / 3600000000 = q / 60 / 60).
  { unfold q. rewrite !Z.div_div by lia. reflexivity. }
  rewrite E2, E3.
  pose proof (Z.div_mod q 60 ltac:(lia)) as H2.
  pose proof (Z.mod_pos_bound q 60 ltac:(lia)) as B2.
  set (r := q / 60) in *.
  pose proof (Z.div_mod r 60 ltac:(lia)) as H3.
  pose proof (Z.mod_pos_bound r 60 ltac:(lia)) as B3.
  assert (Hq : 0 <= q < 86400) by lia.
  assert (Hr : 0 <= r < 1440) by lia.
  assert (0 <= r / 60 < 24) by lia.
  repeat split; lia.
Qed.

Lemma read_z_signed (neg : bool) s1 :
  read_z (String (if neg then "-" else "+")%char s1)
  = ('(zh, s2) ← read_digits 2 0 s1;
     let '(colon1, s3) := read_colon s2 in
     '(zm, s4) ← read_sixty s3;
     let '(colon2, s5) := read_colon s4 in
     match read_sixty s5 with
     | Some (zs, s6) =>
         let '(zu, s7) := read_z_fraction s6 in
         if Bool.eqb colon1 colon2
         then Some ((if neg then -1 else 1)
                    * ((zh * 3600 + zm * 60 + zs) * 1000000 + zu), s7)
         else None
     | None => Some ((if neg then -1 else 1)
                     * ((zh * 3600 + zm * 60) * 1000000), s4)
     end).
Proof. by destruct neg. Qed.

Lemma zfill_cons w n :
  zfill (S w) n = String (digit_char ((n / 10 ^ Z.of_nat w) mod 10)) (zfill w n).
Proof. reflexivity. Qed.

(** The first character of a number written by [zfill] is a digit, and so
    no colon and no point. *)
Lemma read_colon_zfill w n rest :
  read_colon (zfill (S w) n +:+ rest) = (false, zfill (S w) n +:+ rest).
Proof.
  rewrite zfill_cons, append_cons. cbn [read_colon].
  set (d := (n / 10 ^ Z.of_nat w) mod 10).
  assert (Hd : 0 <= d < 10) by (apply Z.mod_pos_bound; lia).
  clearbody d.
  assert (Hcases : d = 0 \/ d = 1 \/ d = 2 \/ d = 3 \/ d = 4 \/ d = 5 \/
                   d = 6 \/ d = 7 \/ d = 8 \/ d = 9) by lia.
  repeat (destruct Hcases as [-> | Hcases]; [reflexivity |]).
  by subst d.
Qed.

Lemma read_z_format o :
  valid_offset o = true -> read_z (format_z (Some o)) = Some (o, "").
Proof.
  unfold valid_offset. rewrite andb_true_iff, !Z.ltb_lt. intros Ho.
  assert (Ha : 0 <= Z.abs o < 86400000000) by lia.
  destruct (offset_parts _ Ha) as (Hh & Hm & Hs & Hu & Hsum).
  unfold format_z. cbv zeta.
  set (a := Z.abs o) in *.
  assert (Hsign : (if o <? 0 then "-" else "+")
                  = String (if o <? 0 then "-"%char else "+"%char) "").
  { by destruct (o <? 0). }
  rewrite Hsign, append_cons, append_empty_l, read_z_signed.
  rewrite read_field by (cbn; lia). cbn [mbind option_bind].
  rewrite read_colon_zfill, read_sixty_zfill by done. cbn [mbind option_bind].
  assert (Hoff : (if o <? 0 then -1 else 1) * a = o).
  { unfold a. destruct (Z.ltb_spec o 0); lia. }
  destruct (Z.eqb_spec (a mod 1000000) 0) as [Hu0 | Hu0]; cbn [negb].
  - destruct (Z.eqb_spec ((a / 1000000) mod 60) 0) as [Hs0 | Hs0]; cbn [negb].
    + cbn. do 2 f_equal. rewrite <- Hoff at 2. f_equal. lia.
    + rewrite <- (append_empty_r (zfill 2 ((a / 1000000) mod 60))).
      rewrite read_colon_zfill, read_sixty_zfill by done.
      cbn. do 2 f_equal. rewrite <- Hoff at 2. f_equal. lia.
  - rewrite read_colon_zfill, read_sixty_zfill by done.
    unfold read_z_fraction. rewrite append_cons, append_empty_l.
    cbn [Ascii.eqb Bool.eqb]. 
    rewrite <- (append_empty_r (zfill 6 (a mod 1000000))).
    rewrite read_fraction_zfill by done.
    cbn. do 2 f_equal. rewrite <- Hoff at 2. f_equal. lia.
Qed.

(** [strptime] reads the fixed-width spelling of every aware timestamp. *)
Lemma strptime_fixed_width t :
  valid_datetime t = true -> is_aware t = true ->
  strptime (fixed_width t) = Some t.
Proof.
  intros Hvalid Haware.
  pose proof (valid_datetime_bounds t Hvalid)
    as (Hy & Hm & Hd & Hh & Hmi & Hs & Hus & Ho).
  pose proof (days_in_month_le (year t) (month t)) as Hdim.
  destruct t as [y m d hh mi ss us [o |]]; [| discriminate].
  cbn [year month day hour minute second microsecond utcoffset] in *.
  assert (Hvo : valid_offset o = true).
  { unfold valid_offset. rewrite andb_true_iff, !Z.ltb_lt. lia. }
  unfold fixed_width, strftime_Y, strptime.
  cbn [year month day hour minute second microsecond utcoffset].
  rewrite read_field by (cbn; lia). cbn [mbind option_bind].
  rewrite expect_lit. cbn [mbind option_bind].
  rewrite read_group_zfill by (try apply m_two_digits; lia).
  cbn [mbind option_bind]. rewrite expect_lit. cbn [mbind option_bind].
  rewrite read_group_zfill by (try apply d_two_digits; lia).
  cbn [mbind option_bind]. rewrite expect_T_lit. cbn [mbind option_bind].
  rewrite read_group_zfill by (try apply H_two_digits; lia).
  cbn [mbind option_bind]. rewrite expect_lit. cbn [mbind option_bind].
  rewrite read_group_zfill by (try apply M_two_digits; lia).
  cbn [mbind option_bind]. rewrite expect_lit. cbn [mbind option_bind].
  rewrite read_group_zfill by (try apply S_two_digits; lia).
  cbn [mbind option_bind]. rewrite expect_lit. cbn [mbind option_bind].
  rewrite read_fraction_zfill by done. cbn [mbind option_bind].
  rewrite read_z_format by done. cbn [mbind option_bind].
  by rewrite Hvalid.
Qed.

(** From the year 1000 on [strftime] writes the fixed-width spelling. *)
Lemma strftime_fixed_width t :
  1000 <= year t -> strftime t = fixed_width t.
Proof.
  intros Hy. unfold strftime, fixed_width, strftime_Y, format_Y.
  destruct (Z.ltb_spec (year t) 10); [lia |].
  destruct (Z.ltb_spec (year t) 100); [lia |].
  by destruct (Z.ltb_spec (year t) 1000); [lia |].
Qed.

Lemma strptime_strftime t :
  valid_datetime t = true -> is_aware t = true -> 1000 <= year t ->
  strptime (strftime t) = Some t.
Proof.
  intros Hvalid Haware Hy. rewrite strftime_fixed_width by done.
  by apply strptime_fixed_width.
Qed.

(** Before the year 1000 [strftime] writes fewer than the four digits of
    year that [strptime] asks for. *)
Lemma strptime_early_year t :
  0 <= year t < 1000 -> strptime (strftime t) = None.
Proof.
  intros Hy. unfold strftime, strftime_Y, strptime, format_Y.
  assert (Hshort : forall w j rest,
             (w + S j = 4)%nat ->
             read_digits 4 0 (zfill w (year t) +:+ "-" +:+ rest) = None).
  { intros w j rest <-. rewrite append_cons, append_empty_l.
    by apply read_digits_short. }
  destruct (Z.ltb_spec (year t) 10);
    [by rewrite (Hshort 1%nat 2%nat) |].
  destruct (Z.ltb_spec (year t) 100);
    [by rewrite (Hshort 2%nat 1%nat) |].
  destruct (Z.ltb_spec (year t) 1000); [| lia].
  by rewrite (Hshort 3%nat 0%nat).
Qed.

(** What [strptime] returns went through the constructors, and has an
    offset. *)
Lemma strptime_valid s t :
  strptime s = Some t -> valid_datetime t = true /\ is_aware t = true.
Proof.
  unfold strptime. intros H.
  repeat match type of H with
         | (_ ≫= _) = Some _ =>
             apply bind_Some in H as (? & ? & H)
         | (let '(_, _) := ?p in _) = Some _ => destruct p
         | (if ?b then _ else _) = Some _ =>
             destruct b eqn:?; [| discriminate]
         end.
  injection H as <-. split; [| done].
  match goal with Hb : (_ && _) = true |- _ =>
    by apply andb_true_iff in Hb as [_ ?] end.
Qed.

(** A naive timestamp is written without offset, and [strptime] asks for
    one. *)
Lemma strptime_naive t :
  valid_datetime t = true -> utcoffset t = None ->
  strptime (strftime t) = None.
Proof.
  intros Hvalid Hnaive.
  pose proof (valid_datetime_bounds t Hvalid)
    as (Hy & Hm & Hd & Hh & Hmi & Hs & Hus & _).
  pose proof (days_in_month_le (year t) (month t)) as Hdim.
  destruct (Z.lt_ge_cases (year t) 1000) as [Hearly | Hlate];
    [apply strptime_early_year; lia |].
  rewrite strftime_fixed_width by lia.
  destruct t as [y m d hh mi ss us o].
  cbn [year month day hour minute second microsecond utcoffset] in *.
  subst o. unfold fixed_width, strftime_Y, strptime, format_z.
  cbn [year month day hour minute second microsecond utcoffset].
  rewrite read_field by (cbn; lia). cbn [mbind option_bind].
  rewrite expect_lit. cbn [mbind option_bind].
  rewrite read_group_zfill by (try apply m_two_digits; lia).
  cbn [mbind option_bind]. rewrite expect_lit. cbn [mbind option_bind].
  rewrite read_group_zfill by (try apply d_two_digits; lia).
  cbn [mbind option_bind]. rewrite expect_T_lit. cbn [mbind option_bind].
  rewrite read_group_zfill by (try apply H_two_digits; lia).
  cbn [mbind option_bind]. rewrite expect_lit. cbn [mbind option_bind].
  rewrite read_group_zfill by (try apply M_two_digits; lia).
  cbn [mbind option_bind]. rewrite expect_lit. cbn [mbind option_bind].
  rewrite read_group_zfill by (try apply S_two_digits; lia).
  cbn [mbind option_bind]. rewrite expect_lit. cbn [mbind option_bind].
  rewrite read_fraction_zfill by done. reflexivity.
Qed.

(** ** Mappings as association lists *)

Section dict_facts.
Context {V : Type}.
Implicit Types (d : list (string * V)) (k : string) (v : V).

Lemma dict_get_None d k : dict_get d k = None <-> k ∉ dict_keys d.
Proof.
  induction d as [| [k' v'] d IH]; cbn.
  - split; [intros _; apply not_elem_of_nil | done].
  - destruct (String.eqb_spec k k') as [-> | Hne].
    + split; [done | intros []; left].
    + rewrite IH, not_elem_of_cons. tauto.
Qed.

Lemma dict_contains_false d k : dict_contains d k = false <-> k ∉ dict_keys d.
Proof.
  unfold dict_contains. rewrite <- dict_get_None.
  destruct (dict_get d k); split; congruence.
Qed.

Lemma dict_contains_true d k : dict_contains d k = true <-> k ∈ dict_keys d.
Proof.
  destruct (dict_contains d k) eqn:E.
  - split; [intros _ | done].
    destruct (decide (k ∈ dict_keys d)) as [| Hn]; [done |].
    apply dict_contains_false in Hn. congruence.
  - apply dict_contains_false in E. split; [done | tauto].
Qed.

Lemma dict_set_fresh d k v :
  k ∉ dict_keys d -> dict_set d k v = (d ++ [(k, v)])%list.
Proof.
  induction d as [| [k' v'] d IH]; cbn; [done |].
  rewrite not_elem_of_cons. intros [Hne Hnin].
  destruct (String.eqb_spec k k'); [done |]. by rewrite IH.
Qed.

Lemma dict_keys_set d k v :
  dict_keys (dict_set d k v)
  = if dict_contains d k then dict_keys d else (dict_keys d ++ [k])%list.
Proof.
  unfold dict_contains, dict_keys.
  induction d as [| [k' v'] d IH]; cbn; [done |].
  destruct (String.eqb_spec k k'); cbn; [done |].
  rewrite IH. by destruct (dict_get d k).
Qed.

Lemma dict_get_set d k v k' :
  dict_get (dict_set d k v) k'
  = if String.eqb k' k then Some v else dict_get d k'.
Proof.
  induction d as [| [k0 v0] d IH]; cbn.
  - by destruct (String.eqb k' k).
  - destruct (String.eqb_spec k k0) as [-> | Hne]; cbn.
    + by destruct (String.eqb_spec k' k0).
    + rewrite IH. destruct (String.eqb_spec k' k0) as [-> | ?]; [| done].
      destruct (String.eqb_spec k0 k); [congruence | done].
Qed.

Lemma dict_set_NoDup d k v :
  NoDup (dict_keys d) -> NoDup (dict_keys (dict_set d k v)).
Proof.
  intros Hd. rewrite dict_keys_set.
  destruct (dict_contains d k) eqn:E; [done |].
  apply dict_contains_false in E.
  apply NoDup_app. split_and!; [done | | apply NoDup_singleton].
  intros x Hx Hx'. apply list_elem_of_singleton in Hx'. by subst.
Qed.

Lemma dict_update_NoDup d other :
  NoDup (dict_keys d) -> NoDup (dict_keys (dict_update d other)).
Proof.
  unfold dict_update. revert d.
  induction other as [| [k v] other IH]; intros d Hd; cbn; [done |].
  apply IH. by apply dict_set_NoDup.
Qed.

Lemma dict_update_fresh d other :
  NoDup (dict_keys (d ++ other)%list) -> dict_update d other = (d ++ other)%list.
Proof.
  unfold dict_update. revert d.
  induction other as [| [k v] other IH]; intros d Hd; cbn.
  - by rewrite app_nil_r.
  - rewrite dict_set_fresh.
    + rewrite IH; rewrite <- app_assoc; done.
    + unfold dict_keys in Hd. rewrite map_app in Hd. cbn in Hd.
      apply NoDup_app in Hd as (_ & Hd & _).
      intros Hin. apply (Hd k Hin). left.
Qed.

Lemma dict_of_pairs_NoDup (pairs : list (string * V)) :
  NoDup (dict_keys pairs) -> dict_of_pairs pairs = pairs.
Proof. intros Hd. by apply (dict_update_fresh []). Qed.

Lemma dict_of_pairs_keys_NoDup (pairs : list (string * V)) :
  NoDup (dict_keys (dict_of_pairs pairs)).
Proof. apply dict_update_NoDup. constructor. Qed.

Lemma dict_get_update d other k :
  NoDup (dict_keys other) ->
  dict_get (dict_update d other) k
  = match dict_get other k with
    | Some v => Some v
    | None => dict_get d k
    end.
Proof.
  unfold dict_update. revert d.
  induction other as [| [k0 v0] other IH]; intros d Hnd; cbn; [done |].
  apply NoDup_cons in Hnd as [Hk0 Hnd].
  rewrite IH by done. rewrite dict_get_set.
  destruct (String.eqb_spec k k0) as [-> | Hne]; [| done].
  apply dict_get_None in Hk0. cbn in Hk0. by rewrite Hk0.
Qed.

Lemma dict_keys_update d other k :
  k ∈ dict_keys (dict_update d other)
  <-> k ∈ dict_keys d \/ k ∈ dict_keys other.
Proof.
  unfold dict_update. revert d.
  induction other as [| [k0 v0] other IH]; intros d.
  - cbn. rewrite elem_of_nil. tauto.
  - cbn [fold_left fst snd]. rewrite IH, dict_keys_set.
    change (dict_keys ((k0, v0) :: other)) with (k0 :: dict_keys other).
    rewrite elem_of_cons.
    destruct (dict_contains d k0) eqn:E.
    + apply dict_contains_true in E.
      split; [tauto |]. intros [? | [-> | ?]]; tauto.
    + rewrite elem_of_app, list_elem_of_singleton. tauto.
Qed.

Lemma dict_keys_pop d k k' :
  k' ∈ dict_keys (dict_pop d k) -> k' ∈ dict_keys d.
Proof.
  induction d as [| [k0 v0] d IH]; cbn; [done |].
  destruct (String.eqb k k0); cbn; rewrite ?elem_of_cons; tauto.
Qed.

Lemma dict_pop_absent d k : k ∉ dict_keys d -> dict_pop d k = d.
Proof.
  induction d as [| [k0 v0] d IH]; cbn; [done |].
  rewrite not_elem_of_cons. intros [Hne Hnin].
  destruct (String.eqb_spec k k0); [done |]. by rewrite IH.
Qed.

Lemma dict_pop_NoDup d k :
  NoDup (dict_keys d) ->
  NoDup (dict_keys (dict_pop d k)) /\ k ∉ dict_keys (dict_pop d k).
Proof.
  induction d as [| [k0 v0] d IH]; cbn.
  - split; [constructor | apply not_elem_of_nil].
  - rewrite NoDup_cons. intros [Hk0 Hnd].
    destruct (String.eqb_spec k k0) as [-> | Hne]; [done |].
    destruct (IH Hnd) as [IH1 IH2]. cbn. split.
    + apply NoDup_cons. split; [| done].
      intros Hin. by apply Hk0, (dict_keys_pop d k).
    + rewrite not_elem_of_cons. done.
Qed.

Lemma dict_pop_idem d k :
  NoDup (dict_keys d) -> dict_pop (dict_pop d k) k = dict_pop d k.
Proof. intros Hnd. apply dict_pop_absent, dict_pop_NoDup, Hnd. Qed.
End dict_facts.

(** ** The codec *)

Section dict_values.
Context {V : Type} (P : V -> Prop).
Implicit Types (d : list (string * V)).

Lemma dict_set_Forall d k v :
  Forall (fun kv => P kv.2) d -> P v ->
  Forall (fun kv => P kv.2) (dict_set d k v).
Proof.
  intros Hd Hv. induction Hd as [| [k0 v0] d H0 Hd IH]; cbn.
  - by repeat constructor.
  - destruct (String.eqb k k0); constructor; done.
Qed.

Lemma dict_update_Forall d other :
  Forall (fun kv => P kv.2) d -> Forall (fun kv => P kv.2) other ->
  Forall (fun kv => P kv.2) (dict_update d other).
Proof.
  unfold dict_update. intros Hd Ho. revert d Hd.
  induction Ho as [| [k v] other Hkv Ho IH]; intros d Hd; cbn; [done |].
  apply IH. by apply dict_set_Forall.
Qed.

Lemma dict_pop_Forall d k :
  Forall (fun kv => P kv.2) d -> Forall (fun kv => P kv.2) (dict_pop d k).
Proof.
  intros Hd. induction Hd as [| [k0 v0] d H0 Hd IH]; cbn; [constructor |].
  destruct (String.eqb k k0); [done | by constructor].
Qed.

Lemma dict_get_Forall d k v :
  Forall (fun kv => P kv.2) d -> dict_get d k = Some v -> P v.
Proof.
  intros Hd. induction Hd as [| [k0 v0] d H0 Hd IH]; cbn; [done |].
  destruct (String.eqb k k0); [by intros [= <-] | done].
Qed.
End dict_values.

Lemma traverse_Ok {A B} (f : A -> result B) l ys :
  traverse f l = Ok ys <-> Forall2 (fun x y => f x = Ok y) l ys.
Proof.
  revert ys. induction l as [| x l IH]; intros ys; cbn.
  - split.
    + intros [= <-]. constructor.
    + by intros ->%Forall2_nil_inv_l.
  - destruct (f x) as [y | e] eqn:Ex.
    + destruct (traverse f l) as [ys' | e] eqn:El.
      * split.
        -- intros [= <-]. constructor; [done | by apply IH].
        -- intros (y' & ys'' & Hy & Hys & ->)%Forall2_cons_inv_l.
           apply IH in Hys. congruence.
      * split; [done |].
        intros (y' & ys'' & Hy & Hys & ->)%Forall2_cons_inv_l.
        apply IH in Hys. congruence.
    + split; [done |].
      intros (y' & ys'' & Hy & Hys & ->)%Forall2_cons_inv_l. congruence.
Qed.

Lemma traverse_inverse {A B} (f : A -> result B) (g : B -> result A) l :
  Forall (fun x => exists y, f x = Ok y /\ g y = Ok x) l ->
  exists ys, traverse f l = Ok ys /\ traverse g ys = Ok l.
Proof.
  induction 1 as [| x l (y & Hf & Hg) _ (ys & Hfs & Hgs)].
  - by exists [].
  - exists (y :: ys). cbn. by rewrite Hf, Hfs, Hg, Hgs.
Qed.

Lemma on_value_inverse {A B} (f : A -> result B) (g : B -> result A) kv :
  (exists y, f kv.2 = Ok y /\ g y = Ok kv.2) ->
  exists kv', on_value f kv = Ok kv' /\ on_value g kv' = Ok kv.
Proof.
  destruct kv as [k v]. intros (y & Hf & Hg). exists (k, y).
  unfold on_value. cbn in *. by rewrite Hf, Hg.
Qed.

(** [f] is undone by [g] on the elements that [p] holds of; on the others
    [g] raises [e].  Then [g] undoes [f] on a list of which [p] holds
    throughout, and raises [e] on the others. *)
Lemma traverse_partial_inverse {A B} (f : A -> result B) (g : B -> result A)
    (p : A -> bool) (e : exn) l :
  Forall (fun x => exists y, f x = Ok y /\
                             g y = if p x then Ok x else Raise e) l ->
  exists ys, traverse f l = Ok ys /\
             traverse g ys = if forallb p l then Ok l else Raise e.
Proof.
  induction 1 as [| x l (y & Hf & Hg) _ (ys & Hfs & Hgs)].
  - by exists [].
  - exists (y :: ys). cbn. rewrite Hf, Hfs, Hg, Hgs. split; [done |].
    destruct (p x); [| done]. by destruct (forallb p l).
Qed.

Lemma on_value_partial_inverse {A B} (f : A -> result B) (g : B -> result A)
    (p : A -> bool) (e : exn) kv :
  (exists y, f kv.2 = Ok y /\ g y = if p kv.2 then Ok kv.2 else Raise e) ->
  exists kv', on_value f kv = Ok kv' /\
              on_value g kv' = if p kv.2 then Ok kv else Raise e.
Proof.
  destruct kv as [k v]. intros (y & Hf & Hg). exists (k, y).
  unfold on_value. cbn in *. rewrite Hf, Hg. by destruct (p v).
Qed.

Lemma traverse_on_value_keys {A B} (f : A -> result B) l ys :
  traverse (on_value f) l = Ok ys -> dict_keys ys = dict_keys l.
Proof.
  rewrite traverse_Ok. induction 1 as [| [k v] [k' y] l ys Hkv _ IH]; [done |].
  unfold on_value in Hkv. cbn in Hkv. destruct (f v); [| done].
  injection Hkv as -> _. unfold dict_keys in *. cbn. by f_equal.
Qed.

(** The singleton carries the encoder and the decoder. *)
Lemma json_encode_eq info : json_encode info = Encoder_encode info.
Proof. reflexivity. Qed.

Lemma json_decode_eq text : json_decode text = Decoder_decode text.
Proof. reflexivity. Qed.

(** What [default] returns is encoded without another call of [default]. *)
Lemma default_is_plain o o' :
  default o = Ok o' ->
  iterencode (fun _ => Raise TypeError) o' = Encoder_encode o'.
Proof. destruct o; intros [= <-]. reflexivity. Qed.

Lemma encode_datetime t :
  Encoder_encode (PDatetime t)
  = Ok (JObj [("__datetime__", JStr (strftime t))]).
Proof. reflexivity. Qed.

Lemma encode_dict d :
  Encoder_encode (PDict d) = JObj <$> traverse (on_value Encoder_encode) d.
Proof. reflexivity. Qed.

Lemma encode_list l :
  Encoder_encode (PList l) = JArr <$> traverse Encoder_encode l.
Proof. reflexivity. Qed.

Lemma decode_obj members :
  Decoder_decode (JObj members)
  = traverse (on_value Decoder_decode) members
      ≫= fun pairs => object_hook (dict_of_pairs pairs).
Proof. reflexivity. Qed.

Lemma decode_arr items :
  Decoder_decode (JArr items) = PList <$> traverse Decoder_decode items.
Proof. reflexivity. Qed.

Lemma forallb_Forall_snd {A} (p : A -> bool) (d : list (string * A)) :
  forallb (fun kv => p kv.2) d = true <-> Forall (fun kv => p kv.2 = true) d.
Proof. rewrite forallb_forall, Forall_forall. by setoid_rewrite list_elem_of_In. Qed.

Lemma decode_tag s :
  Decoder_decode (JObj [("__datetime__", JStr s)]) = py_strptime (PStr s).
Proof. reflexivity. Qed.

(** An encoded timestamp with a year of four digits is read back as the
    same timestamp. *)
Lemma decode_encode_datetime t :
  valid_datetime t = true -> is_aware t = true -> 1000 <= year t ->
  Encoder_encode (PDatetime t) ≫= Decoder_decode = Ok (PDatetime t).
Proof.
  intros Hv Ha Hy. rewrite encode_datetime. cbn [mbind result_bind].
  rewrite decode_tag. unfold py_strptime. by rewrite strptime_strftime.
Qed.

(** A value of the kind that the decoder returns is encoded, and the text
    is read back as the value if its years have four digits; else the
    decoder raises [ValueError]. *)
Lemma encode_then_decode v :
  well_formed v = true -> untagged v = true ->
  exists j, Encoder_encode v = Ok j /\
            Decoder_decode j
            = if four_digit_years v then Ok v else Raise ValueError.
Proof.
  induction v as [| b | n | f | s | l IH | l IH | d IH | t | a]
    using pyval_ind; intros Hwf Hun; try done;
    try (eexists; split; reflexivity).
  - cbn [well_formed untagged] in Hwf, Hun.
    rewrite forallb_forall in Hwf, Hun.
    destruct (traverse_partial_inverse Encoder_encode Decoder_decode
                four_digit_years ValueError l) as (js & He & Hd).
    { rewrite Forall_forall in IH |- *. intros x Hx.
      apply IH; [done | |]; [apply Hwf | apply Hun];
        by apply list_elem_of_In. }
    exists (JArr js). rewrite encode_list, He, decode_arr, Hd.
    split; [done |]. cbn [four_digit_years].
    by destruct (forallb four_digit_years l).
  - cbn [well_formed untagged] in Hwf, Hun.
    apply andb_true_iff in Hwf as [Hnd Hwf]. apply andb_true_iff in Hun as [Htag Hun].
    apply bool_decide_eq_true in Hnd. apply negb_true_iff in Htag.
    rewrite forallb_Forall_snd in Hwf, Hun.
    destruct (traverse_partial_inverse
                (on_value Encoder_encode) (on_value Decoder_decode)
                (fun kv => four_digit_years kv.2) ValueError d)
      as (ms & He & Hd).
    { rewrite Forall_forall in IH, Hwf, Hun |- *. intros kv Hkv.
      apply on_value_partial_inverse.
      apply IH; [done | by apply Hwf | by apply Hun]. }
    exists (JObj ms). rewrite encode_dict, He, decode_obj, Hd. split; [done |].
    cbn [four_digit_years].
    destruct (forallb (fun kv => four_digit_years kv.2) d); [| done].
    cbn. rewrite dict_of_pairs_NoDup by done.
    unfold object_hook. unfold dict_contains in Htag.
    by destruct (dict_get d "__datetime__").
  - cbn in Hwf, Hun. exists (JObj [("__datetime__", JStr (strftime t))]).
    split; [done |]. rewrite decode_tag. unfold py_strptime.
    cbn [four_digit_years].
    destruct (Z.leb_spec 1000 (year t)) as [Hy | Hy].
    + by rewrite strptime_strftime.
    + pose proof (valid_datetime_bounds t Hwf) as (Hy1 & _).
      rewrite strptime_early_year by lia. done.
Qed.

Lemma codec_round_trip v :
  well_formed v = true -> untagged v = true -> four_digit_years v = true ->
  exists j, Encoder_encode v = Ok j /\ Decoder_decode j = Ok v.
Proof.
  intros Hwf Hun Hy. destruct (encode_then_decode v Hwf Hun) as (j & He & Hd).
  rewrite Hy in Hd. by exists j.
Qed.

(** When the text of such a value is read back at all, it is read back as
    the value. *)
Lemma round_trip_same v j v' :
  well_formed v = true -> untagged v = true ->
  Encoder_encode v = Ok j -> Decoder_decode j = Ok v' -> v' = v.
Proof.
  intros Hwf Hun He Hd. destruct (encode_then_decode v Hwf Hun) as (j' & He' & Hd').
  assert (j' = j) by congruence. subst j'. rewrite Hd in Hd'.
  destruct (four_digit_years v); congruence.
Qed.

Lemma py_strptime_Ok x v :
  py_strptime x = Ok v ->
  exists s t, x = PStr s /\ strptime s = Some t /\ v = PDatetime t.
Proof.
  destruct x; cbn [py_strptime]; try done.
  destruct (strptime s) as [t |] eqn:E; [| done].
  intros [= <-]. eauto.
Qed.

Lemma traverse_Forall_out {A B} (f : A -> result B) (Q : B -> Prop) l ys :
  Forall (fun x => forall y, f x = Ok y -> Q y) l ->
  traverse f l = Ok ys -> Forall Q ys.
Proof.
  rewrite traverse_Ok. intros Hl H2.
  induction H2 as [| x y l ys Hxy _ IH]; [constructor |].
  apply Forall_cons in Hl as [Hx Hl]. constructor; auto.
Qed.

Lemma traverse_on_value_Forall_out {A B} (f : A -> result B) (Q : B -> Prop)
    (l : list (string * A)) ys :
  Forall (fun kv => forall y, f kv.2 = Ok y -> Q y) l ->
  traverse (on_value f) l = Ok ys -> Forall (fun kv => Q kv.2) ys.
Proof.
  intros Hl. apply traverse_Forall_out.
  eapply Forall_impl; [exact Hl |]. intros [k v] Hkv [k' y]. unfold on_value. cbn.
  destruct (f v) as [y' |] eqn:Efv; [| done]. intros [= <- <-]. by apply Hkv.
Qed.

(** Whatever the decoder returns is a value that the codec leaves alone:
    no tuple, no object, no mapping with the tag key, only timestamps with a
    zone. *)
Lemma decode_canonical j v :
  Decoder_decode j = Ok v -> well_formed v = true /\ untagged v = true.
Proof.
  revert v. induction j as [| b | n | f | s | l IH | m IH] using json_ind;
    intros v; try (intros [= <-]; done).
  - rewrite decode_arr. destruct (traverse Decoder_decode l) as [vs |] eqn:E; [| done].
    intros [= <-]. cbn [well_formed untagged]. rewrite !forallb_forall.
    apply traverse_Forall_out with (Q := fun v => well_formed v = true /\ untagged v = true)
      in E; [| done].
    rewrite Forall_forall in E.
    split; intros x Hx%list_elem_of_In; by apply E.
  - rewrite decode_obj.
    destruct (traverse (on_value Decoder_decode) m) as [pairs |] eqn:E; [| done].
    cbn [mbind result_bind]. unfold object_hook.
    apply traverse_on_value_Forall_out
      with (Q := fun v => well_formed v = true /\ untagged v = true) in E; [| done].
    destruct (dict_get (dict_of_pairs pairs) "__datetime__") as [x |] eqn:Etag.
    + intros (s & t & -> & Hs & ->)%py_strptime_Ok.
      apply strptime_valid in Hs. done.
    + intros [= <-]. cbn [well_formed untagged].
      apply (dict_update_Forall
               (fun v => well_formed v = true /\ untagged v = true) [] pairs
               (List.Forall_nil _)) in E.
      fold (dict_of_pairs pairs) in E.
      rewrite !andb_true_iff, !forallb_Forall_snd, negb_true_iff.
      unfold dict_contains. rewrite Etag.
      split_and!; try done.
      * apply bool_decide_eq_true, dict_of_pairs_keys_NoDup.
      * eapply Forall_impl; [exact E |]. by intros ? [].
      * eapply Forall_impl; [exact E |]. by intros ? [].
Qed.

(** Hence decoding, encoding and decoding again changes nothing, when the
    years have four digits. *)
Lemma decode_encode_decode j v :
  Decoder_decode j = Ok v -> four_digit_years v = true ->
  exists j', Encoder_encode v = Ok j' /\ Decoder_decode j' = Ok v.
Proof. intros [Hwf Hun]%decode_canonical Hy. by apply codec_round_trip. Qed.

(** ** Claims about the codec *)




(** The decoded members of an object, by name. *)
Lemma dict_get_update_In {V} (d other : list (string * V)) k v :
  dict_get (dict_update d other) k = Some v ->
  (k, v) ∈ other \/ dict_get d k = Some v.
Proof.
  unfold dict_update. revert d.
  induction other as [| [k0 v0] other IH]; intros d; cbn; [auto |].
  intros [Hin | Hd]%IH.
  - left. by right.
  - rewrite dict_get_set in Hd. destruct (String.eqb_spec k k0) as [-> | Hne].
    + injection Hd as <-. left. left.
    + by right.
Qed.

Lemma traverse_on_value_In {A B} (f : A -> result B) l ys k y :
  traverse (on_value f) l = Ok ys -> (k, y) ∈ ys ->
  exists x, (k, x) ∈ l /\ f x = Ok y.
Proof.
  rewrite traverse_Ok. induction 1 as [| [k1 x1] [k2 y2] l ys H1 _ IH].
  - by intros ?%elem_of_nil.
  - unfold on_value in H1. cbn in H1.
    destruct (f x1) as [y1 |] eqn:E1; [| done]. injection H1 as <- <-.
    intros [[= -> ->] | Hin]%elem_of_cons.
    + exists x1. split; [left | done].
    + destruct (IH Hin) as (x & Hx & Hfx). exists x. split; [by right | done].
Qed.

Lemma decode_PStr j s : Decoder_decode j = Ok (PStr s) -> j = JStr s.
Proof.
  destruct j as [| b | n | f | s' | l | m]; try (by intros [= <-]); try done.
  - rewrite decode_arr. by destruct (traverse Decoder_decode l).
  - rewrite decode_obj.
    destruct (traverse (on_value Decoder_decode) m) as [pairs |]; [| done].
    cbn [mbind result_bind]. unfold object_hook.
    destruct (dict_get (dict_of_pairs pairs) "__datetime__") as [x |]; [| done].
    by intros (s0 & t & _ & _ & [=])%py_strptime_Ok.
Qed.

(** C5, as stated, fails: an object with the tag member and another member
    is not of the single-field shape, and is decoded into a timestamp all
    the same. *)
Lemma two_member_object_is_timestamp :
  json_decode
    (JObj [("__datetime__", JStr (strftime sample_time)); ("x", JNum 1)])
  = Ok (PDatetime sample_time).
Proof. vm_compute. reflexivity. Qed.

(** C5, amended: when an object is decoded, it becomes a timestamp exactly
    when it has a member named ["__datetime__"], alone or among other
    members; the value of that member, the last one of that name, is then a
    string that [strptime] reads, and the timestamp is what [strptime] makes
    of it.  An object without such a member becomes the mapping of its
    decoded members. *)
Theorem object_hook_tag members v :
  json_decode (JObj members) = Ok v ->
  exists pairs,
    traverse (on_value json_decode) members = Ok pairs /\
    if has_member (JObj members) "__datetime__"
    then exists s t,
           dict_get (dict_of_pairs pairs) "__datetime__" = Some (PStr s) /\
           ("__datetime__", JStr s) ∈ members /\
           strptime s = Some t /\ v = PDatetime t
    else v = PDict (dict_of_pairs pairs).
Proof.
  rewrite json_decode_eq, decode_obj. cbn [has_member].
  change (on_value json_decode) with (on_value Decoder_decode).
  destruct (traverse (on_value Decoder_decode) members) as [pairs |] eqn:E; [| done].
  cbn [mbind result_bind]. unfold object_hook. intros Hv.
  exists pairs. split; [done |].
  pose proof (traverse_on_value_keys _ _ _ E) as Hkeys.
  assert (Hk : forall k, k ∈ dict_keys (dict_of_pairs pairs) <-> k ∈ dict_keys members).
  { intros k. unfold dict_of_pairs. rewrite dict_keys_update, Hkeys.
    cbn. rewrite elem_of_nil. tauto. }
  destruct (dict_get (dict_of_pairs pairs) "__datetime__") as [x |] eqn:Etag.
  - apply py_strptime_Ok in Hv as (s & t & -> & Hs & ->).
    assert (Hin : dict_contains members "__datetime__" = true).
    { apply dict_contains_true, Hk, dict_contains_true.
      unfold dict_contains. by rewrite Etag. }
    rewrite Hin. exists s, t. split_and!; try done.
    apply dict_get_update_In in Etag as [Hp | Hn]; [| done].
    destruct (traverse_on_value_In _ _ _ _ _ E Hp) as (j & Hj & Hdec).
    apply decode_PStr in Hdec. by subst j.
  - injection Hv as <-.
    assert (Hnin : dict_contains members "__datetime__" = false).
    { apply dict_contains_false. rewrite <- Hk. by apply dict_get_None. }
    by rewrite Hnin.
Qed.

Lemma object_hook_tag_witness :
  json_decode (JObj [("a", JNum 1); ("__datetime__", JStr (strftime sample_time))])
  = Ok (PDatetime sample_time) /\
  exists pairs,
    traverse (on_value json_decode)
      [("a", JNum 1); ("__datetime__", JStr (strftime sample_time))]
    = Ok pairs /\
    exists s t,
      dict_get (dict_of_pairs pairs) "__datetime__" = Some (PStr s) /\
      ("__datetime__", JStr s)
        ∈ [("a", JNum 1); ("__datetime__", JStr (strftime sample_time))] /\
      strptime s = Some t /\ PDatetime sample_time = PDatetime t.
Proof.
  split; [vm_compute; reflexivity |].
  apply (object_hook_tag
           [("a", JNum 1); ("__datetime__", JStr (strftime sample_time))]
           (PDatetime sample_time)).
  vm_compute. reflexivity.
Defined.

(** An exception raised inside a document leaves the decoder. *)
Lemma traverse_Raise {A B} (f : A -> result B) l x :
  x ∈ l -> is_ok (f x) = false -> is_ok (traverse f l) = false.
Proof.
  induction l as [| y l IH]; [by intros ?%elem_of_nil |].
  intros [-> | Hin]%elem_of_cons Hx; cbn.
  - by destruct (f y).
  - destruct (f y); [| done]. specialize (IH Hin Hx).
    by destruct (traverse f l).
Qed.

Lemma decode_raises_inside j doc :
  occurs_in j doc ->
  is_ok (Decoder_decode j) = false -> is_ok (Decoder_decode doc) = false.
Proof.
  induction 1 as [| items x Hx _ IH | members k x Hx _ IH]; intros Hj; [done | |].
  - rewrite decode_arr.
    pose proof (traverse_Raise Decoder_decode items x Hx (IH Hj)) as Ht.
    by destruct (traverse Decoder_decode items).
  - rewrite decode_obj.
    pose proof (traverse_Raise (on_value Decoder_decode) members (k, x) Hx) as Ht.
    destruct (traverse (on_value Decoder_decode) members); [| done].
    exfalso. enough (is_ok (Ok a) = false) by done.
    apply Ht. unfold on_value. cbn. specialize (IH Hj).
    by destruct (Decoder_decode x).
Qed.

(** C6, as stated, fails when the fixed format is the fixed-width one of
    the spec: [strptime] also reads fields of one digit, fractions of one
    to six digits, [Z] and offsets with colons or seconds, and a tagged
    object with such a string is decoded into a timestamp. *)
Lemma lenient_timestamp_is_read :
  (in_fixed_format "2020-2-9T1:2:3.5Z" = false /\
  json_decode (JObj [("__datetime__", JStr "2020-2-9T1:2:3.5Z")])
   = Ok (PDatetime (mk_datetime 2020 2 9 1 2 3 500000 (Some 0)))) /\
  (in_fixed_format "2020-02-09t01:02:03.500000-03:00:30" = false /\
  json_decode
     (JObj [("__datetime__", JStr "2020-02-09t01:02:03.500000-03:00:30")])
   = Ok (PDatetime
           (mk_datetime 2020 2 9 1 2 3 500000 (Some (-10830000000))))) /\
  in_fixed_format (strftime sample_time) = true.
Proof. vm_compute. repeat split. Qed.

(** C6, amended: decoding a tagged object whose string [strptime] does not
    read for the format raises the format error ([ValueError]), and so does
    not return a string or a mapping; decoding any document in which such
    an object occurs raises as well. *)
Theorem bad_timestamp_raises s :
  strptime s = None ->
  json_decode (JObj [("__datetime__", JStr s)]) = Raise ValueError /\
  forall doc,
    occurs_in (JObj [("__datetime__", JStr s)]) doc ->
    exists e, json_decode doc = Raise e.
Proof.
  intros Hs.
  assert (Htag : Decoder_decode (JObj [("__datetime__", JStr s)]) = Raise ValueError).
  { rewrite decode_tag. unfold py_strptime. by rewrite Hs. }
  split; [exact Htag |].
  intros doc Hin. rewrite json_decode_eq.
  pose proof (decode_raises_inside _ doc Hin) as Hdoc. rewrite Htag in Hdoc.
  destruct (Decoder_decode doc) as [v | e]; [| by exists e].
  by specialize (Hdoc eq_refl).
Qed.

Lemma bad_timestamp_raises_witness :
  strptime "2020-02-30T10:00:00.000000+0000" = None /\
  json_decode (JObj [("__datetime__", JStr "2020-02-30T10:00:00.000000+0000")])
  = Raise ValueError /\
  forall doc,
    occurs_in (JObj [("__datetime__", JStr "2020-02-30T10:00:00.000000+0000")]) doc ->
    exists e, json_decode doc = Raise e.
Proof.
  split; [vm_compute; reflexivity |].
  apply (bad_timestamp_raises "2020-02-30T10:00:00.000000+0000").
  vm_compute. reflexivity.
Defined.

(** [n] more calls return the instance that is already there. *)
Lemma construct_stable c n w :
  instance w = Some c ->
  (construct n w).2 = w /\ Forall (eq c) (construct n w).1.
Proof.
  intros Hw.
  assert (Hcall : JSONCodec w = (c, w)) by (unfold JSONCodec; by rewrite Hw).
  induction n as [| n [IH1 IH2]]; cbn [construct]; [by split |].
  rewrite Hcall. destruct (construct n w) as [cs w'']. cbn in *.
  split; [done |]. by constructor.
Qed.

Lemma JSONCodec_sets_instance w :
  instance (JSONCodec w).2 = Some (JSONCodec w).1.
Proof. unfold JSONCodec. by destruct (instance w) eqn:E. Qed.

(** C8: the constructor is idempotent.  Whatever the state of the class,
    a call returns an instance and leaves it in place; the next call, and
    every call after it, returns that same instance and changes nothing.
    In a fresh interpreter this instance encodes with [Encoder().encode]
    and decodes with [Decoder().decode]. *)
Theorem JSONCodec_singleton w n :
  JSONCodec (JSONCodec w).2 = JSONCodec w /\
  Forall (eq (JSONCodec w).1) (construct n (JSONCodec w).2).1 /\
  (construct n (JSONCodec w).2).2 = (JSONCodec w).2 /\
  encode (JSONCodec interp0).1 = Encoder_encode /\
  decode (JSONCodec interp0).1 = Decoder_decode.
Proof.
  pose proof (JSONCodec_sets_instance w) as Hw.
  destruct (construct_stable _ n _ Hw) as [H1 H2].
  split_and!; try done.
  unfold JSONCodec at 1. rewrite Hw. by destruct (JSONCodec w).
Qed.

(** ** The exceptions of the codec *)

Lemma traverse_Raise_inv {A B} (f : A -> result B) l e :
  traverse f l = Raise e -> exists x, x ∈ l /\ f x = Raise e.
Proof.
  induction l as [| y l IH]; cbn; [done |].
  destruct (f y) as [b |] eqn:Ey.
  - destruct (traverse f l) as [bs | e'] eqn:El; [done |].
    intros [= <-]. destruct (IH eq_refl) as (x & Hx & Hfx).
    exists x. split; [by right | done].
  - intros [= <-]. exists y. split; [left | done].
Qed.

(** The encoder raises nothing but [TypeError]. *)
Lemma encode_raises v e : Encoder_encode v = Raise e -> e = TypeError.
Proof.
  induction v as [| b | n | f | s | l IH | l IH | d IH | t | a] using pyval_ind;
    try done; try (by intros [= <-]).
  - rewrite encode_list.
    destruct (traverse Encoder_encode l) as [js | e'] eqn:E; [done |].
    intros [= <-]. apply traverse_Raise_inv in E as (x & Hx & Hfx).
    rewrite Forall_forall in IH. by apply (IH x).
  - change (Encoder_encode (PTuple l)) with (Encoder_encode (PList l)).
    rewrite encode_list.
    destruct (traverse Encoder_encode l) as [js | e'] eqn:E; [done |].
    intros [= <-]. apply traverse_Raise_inv in E as (x & Hx & Hfx).
    rewrite Forall_forall in IH. by apply (IH x).
  - rewrite encode_dict.
    destruct (traverse (on_value Encoder_encode) d) as [js | e'] eqn:E; [done |].
    intros [= <-]. apply traverse_Raise_inv in E as ([k x] & Hx & Hfx).
    rewrite Forall_forall in IH. apply (IH _ Hx). unfold on_value in Hfx.
    cbn [fst snd] in *. destruct (Encoder_encode x); congruence.
Qed.

(** The decoder raises [TypeError] or [ValueError], both out of
    [strptime]. *)
Lemma decode_raises j e :
  Decoder_decode j = Raise e -> e = TypeError \/ e = ValueError.
Proof.
  induction j as [| b | n | f | s | l IH | m IH] using json_ind; try done.
  - rewrite decode_arr.
    destruct (traverse Decoder_decode l) as [js | e'] eqn:E; [done |].
    intros [= <-]. apply traverse_Raise_inv in E as (x & Hx & Hfx).
    rewrite Forall_forall in IH. by apply (IH x).
  - rewrite decode_obj.
    destruct (traverse (on_value Decoder_decode) m) as [pairs | e'] eqn:E.
    + cbn [mbind result_bind]. unfold object_hook.
      destruct (dict_get (dict_of_pairs pairs) "__datetime__") as [x |]; [| done].
      destruct x; cbn [py_strptime]; try (intros [= <-]; by left).
      destruct (strptime s); [done |]. intros [= <-]. by right.
    + intros [= <-]. apply traverse_Raise_inv in E as ([k x] & Hx & Hfx).
      rewrite Forall_forall in IH. apply (IH _ Hx). unfold on_value in Hfx.
      cbn [fst snd] in *. destruct (Decoder_decode x); congruence.
Qed.

Lemma existsb_snd_In {A} (p : A -> bool) (d : list (string * A)) :
  existsb (fun kv => p kv.2) d = true <-> exists k v, (k, v) ∈ d /\ p v = true.
Proof.
  rewrite existsb_exists. split.
  - intros ([k v] & Hin%list_elem_of_In & Hp). eauto.
  - intros (k & v & Hin%list_elem_of_In & Hp). by exists (k, v).
Qed.

(** A value in which an object of another class occurs is refused. *)
Lemma encode_unsupported v :
  has_unsupported v = true -> Encoder_encode v = Raise TypeError.
Proof.
  assert (Hkind : forall v, is_ok (Encoder_encode v) = false ->
                            Encoder_encode v = Raise TypeError).
  { intros v'. destruct (Encoder_encode v') as [| e] eqn:E; [done |].
    intros _. apply encode_raises in E. by subst. }
  intros Hv. apply Hkind. revert Hv.
  induction v as [| b | n | f | s | l IH | l IH | d IH | t | a] using pyval_ind;
    try done; cbn [has_unsupported].
  - rewrite existsb_exists. intros (x & Hx%list_elem_of_In & Hux).
    rewrite Forall_forall in IH. rewrite encode_list.
    pose proof (traverse_Raise Encoder_encode l x Hx (IH x Hx Hux)).
    by destruct (traverse Encoder_encode l).
  - rewrite existsb_exists. intros (x & Hx%list_elem_of_In & Hux).
    rewrite Forall_forall in IH.
    change (Encoder_encode (PTuple l)) with (Encoder_encode (PList l)).
    rewrite encode_list.
    pose proof (traverse_Raise Encoder_encode l x Hx (IH x Hx Hux)).
    by destruct (traverse Encoder_encode l).
  - rewrite existsb_snd_In. intros (k & x & Hx & Hux).
    rewrite Forall_forall in IH. rewrite encode_dict.
    pose proof (traverse_Raise (on_value Encoder_encode) d (k, x) Hx) as Ht.
    destruct (traverse (on_value Encoder_encode) d) as [ms |]; [| done].
    exfalso. enough (is_ok (Ok ms) = false) by done.
    apply Ht. unfold on_value. cbn [fst snd]. specialize (IH _ Hx Hux).
    cbn [fst snd] in IH. by destruct (Encoder_encode x).
Qed.

(** ** The two branches of [set_state] *)

(** No row under the key: the record, without its scratch field, is
    encoded and inserted. *)
Lemma set_state_body_absent s state_id chat_id chat_state :
  s !! (chat_id, state_id) = None ->
  set_state_body state_id chat_id chat_state s
  = match json_encode (PDict (dict_pop chat_state "__memory__")) with
    | Ok text => (Ok tt, <[(chat_id, state_id) := text]> s)
    | Raise e => (Raise e, s)
    end.
Proof.
  intros Hs. unfold set_state_body, try_except, State_getitem, State_new.
  unfold mbind, st_bind, lift. rewrite Hs. cbn [decide].
  destruct (json_encode (PDict (dict_pop chat_state "__memory__"))); [| done].
  by rewrite Hs.
Qed.

(** A row under the key: its mapping is decoded, updated with the record
    without its scratch field, encoded and written back. *)
Lemma set_state_body_present s state_id chat_id chat_state text :
  s !! (chat_id, state_id) = Some text ->
  set_state_body state_id chat_id chat_state s
  = match merged_text text (dict_pop chat_state "__memory__") with
    | Ok text' => (Ok tt, <[(chat_id, state_id) := text']> s)
    | Raise e => (Raise e, s)
    end.
Proof.
  intros Hs. unfold set_state_body, try_except, State_getitem, State_set_info.
  unfold merged_text, mbind, st_bind, lift. rewrite Hs.
  cbn [info telegram_id description].
  destruct (json_decode text) as [info | e] eqn:Ed.
  - destruct (py_update info (dict_pop chat_state "__memory__")) as [info' | e] eqn:Eu.
    + destruct (json_encode info') as [text' | e] eqn:Ee; [done |].
      apply encode_raises in Ee. by subst.
    + destruct info; cbn in Eu; try done; by injection Eu as <-.
  - apply decode_raises in Ed. by destruct Ed as [-> | ->].
Qed.

(** [set_state] returns what its body returns: when the body raises it has
    not written yet, so the rollback has nothing to undo. *)
Lemma set_state_eq_body s state_id chat_id chat_state :
  set_state state_id chat_id chat_state s
  = set_state_body state_id chat_id chat_state s.
Proof.
  unfold set_state, db_session.
  destruct (s !! (chat_id, state_id)) as [text |] eqn:Hs.
  - rewrite (set_state_body_present _ _ _ _ _ Hs).
    by destruct (merged_text _ _).
  - rewrite (set_state_body_absent _ _ _ _ Hs).
    by destruct (json_encode _).
Qed.

Lemma get_state_absent s state_id chat_id :
  s !! (chat_id, state_id) = None ->
  get_state state_id chat_id s = (Ok (PDict []), s).
Proof.
  intros Hs. unfold get_state, db_session, State_get.
  unfold mbind, st_bind, mret, st_ret. by rewrite Hs.
Qed.

Lemma get_state_present s state_id chat_id text :
  s !! (chat_id, state_id) = Some text ->
  get_state state_id chat_id s = (json_decode text, s).
Proof.
  intros Hs. unfold get_state, db_session, State_get.
  unfold mbind, st_bind, lift. rewrite Hs. cbn [fmap option_fmap option_map info].
  by destruct (json_decode text).
Qed.

(** ** Records that can be written and read back *)

Lemma dict_get_elem {V} (d : list (string * V)) k v :
  dict_get d k = Some v -> (k, v) ∈ d.
Proof.
  induction d as [| [k0 v0] d IH]; cbn; [done |].
  destruct (String.eqb_spec k k0) as [-> | Hne].
  - intros [= <-]. left.
  - intros H. right. by apply IH.
Qed.

Lemma dict_get_NoDup {V} (d : list (string * V)) k v :
  NoDup (dict_keys d) -> (k, v) ∈ d -> dict_get d k = Some v.
Proof.
  induction d as [| [k0 v0] d IH]; cbn; [by intros _ ?%elem_of_nil |].
  rewrite NoDup_cons. intros [Hk0 Hnd] [[= -> ->] | Hin]%elem_of_cons.
  - by rewrite String.eqb_refl.
  - destruct (String.eqb_spec k k0) as [-> | Hne]; [| by apply IH].
    exfalso. apply Hk0. unfold dict_keys.
    apply list_elem_of_fmap. by exists (k0, v).
Qed.

Lemma well_formed_dict d :
  well_formed (PDict d) = true
  <-> NoDup (dict_keys d) /\ Forall (fun kv => well_formed kv.2 = true) d.
Proof.
  cbn [well_formed].
  by rewrite andb_true_iff, bool_decide_eq_true, forallb_Forall_snd.
Qed.

Lemma untagged_dict d :
  untagged (PDict d) = true
  <-> ("__datetime__" ∉ dict_keys d)
      /\ Forall (fun kv => untagged kv.2 = true) d.
Proof.
  cbn [untagged].
  by rewrite andb_true_iff, negb_true_iff, dict_contains_false, forallb_Forall_snd.
Qed.

Lemma pop_well_formed d k :
  well_formed (PDict d) = true -> well_formed (PDict (dict_pop d k)) = true.
Proof.
  rewrite !well_formed_dict. intros [Hnd Hall]. split.
  - by apply dict_pop_NoDup.
  - by apply (dict_pop_Forall (fun v => well_formed v = true)).
Qed.

Lemma update_well_formed d other :
  well_formed (PDict d) = true -> well_formed (PDict other) = true ->
  well_formed (PDict (dict_update d other)) = true.
Proof.
  rewrite !well_formed_dict. intros [Hnd Hall] [Hnd' Hall']. split.
  - by apply dict_update_NoDup.
  - by apply (dict_update_Forall (fun v => well_formed v = true)).
Qed.

Lemma update_untagged d other :
  untagged (PDict d) = true -> untagged (PDict other) = true ->
  untagged (PDict (dict_update d other)) = true.
Proof.
  rewrite !untagged_dict. intros [Hk Hall] [Hk' Hall']. split.
  - rewrite dict_keys_update. tauto.
  - by apply (dict_update_Forall (fun v => untagged v = true)).
Qed.

Lemma four_digit_years_dict d :
  four_digit_years (PDict d) = true
  <-> Forall (fun kv => four_digit_years kv.2 = true) d.
Proof. cbn [four_digit_years]. by rewrite forallb_Forall_snd. Qed.

Lemma pop_four_digit_years d k :
  four_digit_years (PDict d) = true ->
  four_digit_years (PDict (dict_pop d k)) = true.
Proof.
  rewrite !four_digit_years_dict.
  by apply (dict_pop_Forall (fun v => four_digit_years v = true)).
Qed.

Lemma update_four_digit_years d other :
  four_digit_years (PDict d) = true -> four_digit_years (PDict other) = true ->
  four_digit_years (PDict (dict_update d other)) = true.
Proof.
  rewrite !four_digit_years_dict.
  by apply (dict_update_Forall (fun v => four_digit_years v = true)).
Qed.

(** A mapping whose fields are those of a mapping without timestamps has
    none. *)
Lemma same_mapping_four_digit_years d d' :
  NoDup (dict_keys d) -> same_mapping d d' ->
  four_digit_years (PDict d') = true -> four_digit_years (PDict d) = true.
Proof.
  rewrite !four_digit_years_dict, !Forall_forall.
  intros Hnd Hsame Hd' [k v] Hin. cbn.
  apply (dict_get_NoDup _ _ _ Hnd) in Hin. rewrite (Hsame k) in Hin.
  apply dict_get_elem in Hin. by apply (Hd' (k, v)).
Qed.

(** The update branch on records of the round-trip domain: the row ends up
    holding the old mapping updated with the record. *)
Lemma set_state_merge s state_id chat_id text d chat_state :
  s !! (chat_id, state_id) = Some text ->
  json_decode text = Ok (PDict d) ->
  four_digit_years (PDict d) = true ->
  well_formed (PDict chat_state) = true ->
  untagged (PDict (dict_pop chat_state "__memory__")) = true ->
  four_digit_years (PDict (dict_pop chat_state "__memory__")) = true ->
  exists text',
    set_state state_id chat_id chat_state s
    = (Ok tt, <[(chat_id, state_id) := text']> s) /\
    json_decode text'
    = Ok (PDict (dict_update d (dict_pop chat_state "__memory__"))).
Proof.
  intros Hs Hd Hyd Hwf Hun Hy.
  destruct (decode_canonical _ _ Hd) as [Hwfd Hund].
  destruct (codec_round_trip
              (PDict (dict_update d (dict_pop chat_state "__memory__"))))
    as (text' & He & Hd').
  { apply update_well_formed; [done | by apply pop_well_formed]. }
  { by apply update_untagged. }
  { by apply update_four_digit_years. }
  exists text'. split; [| done].
  rewrite set_state_eq_body, (set_state_body_present _ _ _ _ _ Hs).
  unfold merged_text. rewrite Hd. cbn [py_update]. rewrite json_encode_eq.
  by rewrite He.
Qed.

(** ** Claims about [set_state] and [get_state] *)

(** C2: [set_state] merges.  Whatever the key, if the row under it decodes
    to the mapping [{a: 1, b: 2}] (its fields in any order), then
    [set_state] with [{b: 3, c: 4}] succeeds and leaves under the key a text
    that decodes to the mapping [{a: 1, b: 3, c: 4}]: [a] survives, [b] is
    overwritten, [c] is added.  It is also what [get_state] then returns,
    and the other rows are as before. *)
Theorem set_state_merges s state_id chat_id text d :
  s !! (chat_id, state_id) = Some text ->
  json_decode text = Ok (PDict d) ->
  same_mapping d [("a", PInt 1); ("b", PInt 2)] ->
  exists text' d',
    set_state state_id chat_id [("b", PInt 3); ("c", PInt 4)] s
    = (Ok tt, <[(chat_id, state_id) := text']> s) /\
    json_decode text' = Ok (PDict d') /\
    same_mapping d' [("a", PInt 1); ("b", PInt 3); ("c", PInt 4)] /\
    get_state state_id chat_id (<[(chat_id, state_id) := text']> s)
    = (Ok (PDict d'), <[(chat_id, state_id) := text']> s).
Proof.
  intros Hs Hd Hsame.
  assert (Hyd : four_digit_years (PDict d) = true).
  { destruct (decode_canonical _ _ Hd) as [Hwfd _].
    apply well_formed_dict in Hwfd as [Hnd _].
    by apply (same_mapping_four_digit_years d _ Hnd Hsame). }
  destruct (set_state_merge s state_id chat_id text d
              [("b", PInt 3); ("c", PInt 4)] Hs Hd Hyd eq_refl eq_refl eq_refl)
    as (text' & Hset & Hdec).
  exists text', (dict_update d [("b", PInt 3); ("c", PInt 4)]).
  split_and!; [done | done | |].
  - intros k. rewrite dict_get_update by (by apply (bool_decide_unpack _)).
    rewrite (Hsame k). cbn [dict_get].
    destruct (String.eqb_spec k "b") as [-> | _]; [done |].
    destruct (String.eqb_spec k "c") as [-> | _]; [done |].
    by destruct (String.eqb_spec k "a").
  - rewrite (get_state_present _ _ _ text') by apply lookup_insert_eq.
    by rewrite Hdec.
Qed.

Lemma set_state_merges_witness :
  ({[(42, "flow") := JObj [("b", JNum 2); ("a", JNum 1)]]} : store)
    !! (42, "flow") = Some (JObj [("b", JNum 2); ("a", JNum 1)]) /\
  json_decode (JObj [("b", JNum 2); ("a", JNum 1)])
  = Ok (PDict [("b", PInt 2); ("a", PInt 1)]) /\
  same_mapping [("b", PInt 2); ("a", PInt 1)] [("a", PInt 1); ("b", PInt 2)] /\
  exists text' d',
    set_state "flow" 42 [("b", PInt 3); ("c", PInt 4)]
      {[(42, "flow") := JObj [("b", JNum 2); ("a", JNum 1)]]}
    = (Ok tt, <[(42, "flow") := text']>
                {[(42, "flow") := JObj [("b", JNum 2); ("a", JNum 1)]]}) /\
    json_decode text' = Ok (PDict d') /\
    same_mapping d' [("a", PInt 1); ("b", PInt 3); ("c", PInt 4)] /\
    get_state "flow" 42
      (<[(42, "flow") := text']>
         {[(42, "flow") := JObj [("b", JNum 2); ("a", JNum 1)]]})
    = (Ok (PDict d'),
       <[(42, "flow") := text']>
         {[(42, "flow") := JObj [("b", JNum 2); ("a", JNum 1)]]}).
Proof.
  assert (Hsame : same_mapping [("b", PInt 2); ("a", PInt 1)]
                    [("a", PInt 1); ("b", PInt 2)]).
  { intros k. cbn [dict_get].
    destruct (String.eqb_spec k "b") as [-> | _]; [reflexivity |].
    destruct (String.eqb_spec k "a"); reflexivity. }
  split; [reflexivity |]. split; [reflexivity |]. split; [exact Hsame |].
  apply (set_state_merges
           {[(42, "flow") := JObj [("b", JNum 2); ("a", JNum 1)]]}
           "flow" 42 (JObj [("b", JNum 2); ("a", JNum 1)])
           [("b", PInt 2); ("a", PInt 1)]).
  - reflexivity.
  - reflexivity.
  - exact Hsame.
Defined.

(** C3: a miss is not an error.  For a key with no row, [get_state] returns
    the empty mapping and leaves the table alone; [set_state] with [{x: 1}]
    then takes the insert branch, adding the row and touching no other; and
    [get_state] after it returns [{x: 1}]. *)
Theorem miss_then_create s state_id chat_id :
  s !! (chat_id, state_id) = None ->
  get_state state_id chat_id s = (Ok (PDict []), s) /\
  set_state state_id chat_id [("x", PInt 1)] s
  = (Ok tt, <[(chat_id, state_id) := JObj [("x", JNum 1)]]> s) /\
  get_state state_id chat_id (<[(chat_id, state_id) := JObj [("x", JNum 1)]]> s)
  = (Ok (PDict [("x", PInt 1)]),
     <[(chat_id, state_id) := JObj [("x", JNum 1)]]> s).
Proof.
  intros Hs. split_and!.
  - by apply get_state_absent.
  - by rewrite set_state_eq_body, (set_state_body_absent _ _ _ _ Hs).
  - by rewrite (get_state_present _ _ _ (JObj [("x", JNum 1)]))
      by apply lookup_insert_eq.
Qed.

Lemma miss_then_create_witness :
  (∅ : store) !! (7, "quiz") = None /\
  get_state "quiz" 7 ∅ = (Ok (PDict []), ∅) /\
  set_state "quiz" 7 [("x", PInt 1)] ∅
  = (Ok tt, <[(7, "quiz") := JObj [("x", JNum 1)]]> ∅) /\
  get_state "quiz" 7 (<[(7, "quiz") := JObj [("x", JNum 1)]]> ∅)
  = (Ok (PDict [("x", PInt 1)]), <[(7, "quiz") := JObj [("x", JNum 1)]]> ∅).
Proof.
  split; [reflexivity |].
  apply (miss_then_create ∅ "quiz" 7). reflexivity.
Defined.

(** ** What a failed or a repeated [set_state] leaves *)

(** [set_state] either commits one row or raises and leaves the table. *)
Lemma set_state_outcome s state_id chat_id chat_state :
  (exists text',
     set_state state_id chat_id chat_state s
     = (Ok tt, <[(chat_id, state_id) := text']> s)) \/
  (exists e, set_state state_id chat_id chat_state s = (Raise e, s)).
Proof.
  rewrite set_state_eq_body.
  destruct (s !! (chat_id, state_id)) as [text |] eqn:Hs.
  - rewrite (set_state_body_present _ _ _ _ _ Hs).
    destruct (merged_text _ _); eauto.
  - rewrite (set_state_body_absent _ _ _ _ Hs).
    destruct (json_encode _); eauto.
Qed.

(** [set_state] looks at the record through [pop('__memory__')] only. *)
Lemma set_state_strip s state_id chat_id r r' :
  dict_pop r "__memory__" = dict_pop r' "__memory__" ->
  set_state state_id chat_id r s = set_state state_id chat_id r' s.
Proof. intros H. unfold set_state, set_state_body. by rewrite H. Qed.

Lemma has_unsupported_update d other :
  NoDup (dict_keys other) ->
  has_unsupported (PDict other) = true ->
  has_unsupported (PDict (dict_update d other)) = true.
Proof.
  cbn [has_unsupported]. rewrite !existsb_snd_In.
  intros Hnd (k & v & Hin & Hv). exists k, v. split; [| done].
  apply dict_get_elem. rewrite dict_get_update by done.
  by rewrite (dict_get_NoDup _ _ _ Hnd Hin).
Qed.

(** C7, as stated, fails.  A record whose unsupported value sits in the
    scratch field is written without any error, the scratch field being
    dropped before the encoder sees it.  And when the row under the key
    does not decode, as the one that [set_state] itself writes for
    [{'__datetime__': 'soon'}], the error of the decoder comes first. *)
Lemma unsupported_in_scratch_is_written :
  (has_unsupported
     (PDict [("step", PInt 1); ("__memory__", PDict [("conn", PObject 7)])])
   = true /\
   set_state "flow" 42
     [("step", PInt 1); ("__memory__", PDict [("conn", PObject 7)])] ∅
   = (Ok tt, {[(42, "flow") := JObj [("step", JNum 1)]]})) /\
  (set_state "flow" 42 [("__datetime__", PStr "soon")] ∅
   = (Ok tt, {[(42, "flow") := JObj [("__datetime__", JStr "soon")]]}) /\
   has_unsupported (PDict [("x", PObject 7)]) = true /\
   set_state "flow" 42 [("x", PObject 7)]
     {[(42, "flow") := JObj [("__datetime__", JStr "soon")]]}
   = (Raise ValueError,
      {[(42, "flow") := JObj [("__datetime__", JStr "soon")]]})).
Proof. repeat split; reflexivity. Qed.

(** C7, amended: when the record (a [dict]: its keys are distinct) without
    its scratch field contains a value of a type the codec does not
    support, [set_state] raises before any write (the body stops with the
    table as it found it), so the table is unchanged; the exception is the
    encoder's [TypeError] whenever the key has no row or its row decodes to
    a mapping. *)
Theorem set_state_unsupported s state_id chat_id chat_state :
  NoDup (dict_keys chat_state) ->
  has_unsupported (PDict (dict_pop chat_state "__memory__")) = true ->
  exists e,
    set_state_body state_id chat_id chat_state s = (Raise e, s) /\
    set_state state_id chat_id chat_state s = (Raise e, s) /\
    ((forall text, s !! (chat_id, state_id) = Some text ->
                   exists d, json_decode text = Ok (PDict d)) ->
     e = TypeError).
Proof.
  intros Hnd Hun. rewrite set_state_eq_body.
  destruct (s !! (chat_id, state_id)) as [text |] eqn:Hs.
  - rewrite (set_state_body_present _ _ _ _ _ Hs). unfold merged_text.
    destruct (json_decode text) as [old | e] eqn:Ed.
    + destruct old as [| | | | | | | d | |];
        try solve [ exists AttributeError; split_and!; try done;
                    intros Hrow; destruct (Hrow _ eq_refl) as (d & Hd);
                    congruence ].
      cbn [py_update]. rewrite json_encode_eq, encode_unsupported.
      * by exists TypeError.
      * apply has_unsupported_update; [| done]. by apply dict_pop_NoDup.
    + exists e. split_and!; try done.
      intros Hrow. destruct (Hrow _ eq_refl) as (d & Hd). congruence.
  - rewrite (set_state_body_absent _ _ _ _ Hs).
    rewrite json_encode_eq, encode_unsupported by done. by exists TypeError.
Qed.

Lemma set_state_unsupported_witness :
  NoDup (dict_keys [("step", PInt 1); ("conn", PObject 7)]) /\
  has_unsupported
    (PDict (dict_pop [("step", PInt 1); ("conn", PObject 7)] "__memory__"))
  = true /\
  exists e,
    set_state_body "flow" 42 [("step", PInt 1); ("conn", PObject 7)]
      {[(42, "flow") := JObj [("step", JNum 0)]]}
    = (Raise e, {[(42, "flow") := JObj [("step", JNum 0)]]}) /\
    set_state "flow" 42 [("step", PInt 1); ("conn", PObject 7)]
      {[(42, "flow") := JObj [("step", JNum 0)]]}
    = (Raise e, {[(42, "flow") := JObj [("step", JNum 0)]]}) /\
    ((forall text,
        ({[(42, "flow") := JObj [("step", JNum 0)]]} : store) !! (42, "flow")
        = Some text ->
        exists d, json_decode text = Ok (PDict d)) ->
     e = TypeError).
Proof.
  split; [by apply (bool_decide_unpack _) |].
  split; [reflexivity |].
  apply (set_state_unsupported
           {[(42, "flow") := JObj [("step", JNum 0)]]} "flow" 42
           [("step", PInt 1); ("conn", PObject 7)]).
  - by apply (bool_decide_unpack _).
  - reflexivity.
Defined.

(** ** Writing the same fields again *)

Lemma traverse_on_value_get {A B} (f : A -> result B) l ys k x :
  traverse (on_value f) l = Ok ys -> dict_get l k = Some x ->
  exists y, dict_get ys k = Some y /\ f x = Ok y.
Proof.
  rewrite traverse_Ok. induction 1 as [| [k1 x1] [k2 y2] l ys H1 _ IH]; [done |].
  unfold on_value in H1. cbn [fst snd] in H1.
  destruct (f x1) as [y1 |] eqn:E1; [| done]. injection H1 as <- <-.
  cbn [dict_get]. destruct (String.eqb k k1); [| done].
  intros [= <-]. eauto.
Qed.

(** Two mappings with the same keys in the same order and the same value
    under each key are the same mapping. *)
Lemma dict_ext {V} (a b : list (string * V)) :
  dict_keys a = dict_keys b -> NoDup (dict_keys a) ->
  (forall k, dict_get a k = dict_get b k) -> a = b.
Proof.
  revert b. induction a as [| [k v] a IH]; intros [| [k' v'] b]; try done.
  unfold dict_keys. cbn [map fst]. intros [= <- Hkeys].
  rewrite NoDup_cons. intros [Hk Hnd] Hget.
  pose proof (Hget k) as Hk0. cbn in Hk0. rewrite String.eqb_refl in Hk0.
  injection Hk0 as <-. f_equal. apply IH; [done | done |].
  intros k0. specialize (Hget k0). cbn [dict_get] in Hget.
  destruct (String.eqb_spec k0 k) as [Heq | Hne]; [subst k0 | done].
  assert (Hb : k ∉ dict_keys b) by (unfold dict_keys; by rewrite <- Hkeys).
  apply dict_get_None in Hk, Hb. congruence.
Qed.

Lemma dict_keys_update_within {V} (d other : list (string * V)) :
  (forall k, k ∈ dict_keys other -> k ∈ dict_keys d) ->
  dict_keys (dict_update d other) = dict_keys d.
Proof.
  unfold dict_update. revert d.
  induction other as [| [k v] other IH]; intros d Hsub; [done |].
  cbn [fold_left fst snd].
  assert (Hk : dict_contains d k = true).
  { apply dict_contains_true, Hsub. left. }
  assert (Hset : dict_keys (dict_set d k v) = dict_keys d)
    by (by rewrite dict_keys_set, Hk).
  rewrite IH, Hset; [done |].
  intros k0 Hk0. rewrite Hset. apply Hsub. by right.
Qed.

(** The text of a mapping is an object with the keys of the mapping. *)
Lemma encode_dict_Ok d text :
  Encoder_encode (PDict d) = Ok text ->
  exists members,
    text = JObj members /\ traverse (on_value Encoder_encode) d = Ok members /\
    dict_keys members = dict_keys d.
Proof.
  rewrite encode_dict.
  destruct (traverse (on_value Encoder_encode) d) as [ms |] eqn:E; [| done].
  intros [= <-]. exists ms. split_and!; try done.
  by apply traverse_on_value_keys in E.
Qed.

(** Only an object without the tag decodes to a mapping; the mapping has
    the names of the members for keys. *)
Lemma decode_dict_Ok text d :
  Decoder_decode text = Ok (PDict d) ->
  exists members pairs,
    text = JObj members /\
    traverse (on_value Decoder_decode) members = Ok pairs /\
    d = dict_of_pairs pairs /\
    forall k, k ∈ dict_keys d <-> k ∈ dict_keys members.
Proof.
  destruct text as [| b | n | f | s | l | m]; try done.
  - rewrite decode_arr. by destruct (traverse Decoder_decode l).
  - rewrite decode_obj.
    destruct (traverse (on_value Decoder_decode) m) as [pairs |] eqn:E; [| done].
    cbn [mbind result_bind]. unfold object_hook.
    destruct (dict_get (dict_of_pairs pairs) "__datetime__") as [x |].
    + by intros (s0 & t & _ & _ & [=])%py_strptime_Ok.
    + intros [= <-]. exists m, pairs. split_and!; try done.
      intros k. unfold dict_of_pairs. rewrite dict_keys_update.
      rewrite (traverse_on_value_keys _ _ _ E). cbn. rewrite elem_of_nil. tauto.
Qed.

(** A mapping [m] is written, read back as [m'], and [m'] is updated with
    fields [r] that [m] had already, the other values of [m] being ones the
    codec returns unchanged when it returns them: the update gives [m]
    again. *)
Lemma update_after_round_trip m r text m' :
  NoDup (dict_keys m) -> NoDup (dict_keys r) ->
  (forall k v, dict_get r k = Some v -> dict_get m k = Some v) ->
  (forall k v, dict_get m k = Some v -> dict_get r k = None ->
               forall j v', Encoder_encode v = Ok j ->
                            Decoder_decode j = Ok v' -> v' = v) ->
  Encoder_encode (PDict m) = Ok text ->
  Decoder_decode text = Ok (PDict m') ->
  dict_update m' r = m.
Proof.
  intros Hm Hr Hsub Hcan
    (ms & -> & Hms & Hkms)%encode_dict_Ok
    (ms' & pairs & [= <-] & Hpairs & -> & _)%decode_dict_Ok.
  assert (Hkp : dict_keys pairs = dict_keys m).
  { by rewrite (traverse_on_value_keys _ _ _ Hpairs). }
  rewrite dict_of_pairs_NoDup by (by rewrite Hkp).
  assert (Hkeys : dict_keys (dict_update pairs r) = dict_keys m).
  { rewrite dict_keys_update_within; [done |].
    intros k Hk. rewrite Hkp.
    destruct (dict_get r k) as [v |] eqn:E.
    - apply Hsub in E. apply dict_contains_true. unfold dict_contains.
      by rewrite E.
    - by apply dict_get_None in E. }
  apply dict_ext; [done | by rewrite Hkeys |].
  intros k. rewrite dict_get_update by done.
  destruct (dict_get r k) as [v |] eqn:Er.
  { symmetry. by apply Hsub. }
  destruct (dict_get m k) as [v |] eqn:Em.
  - destruct (traverse_on_value_get _ _ _ _ _ Hms Em) as (j' & Hj' & Ej').
    destruct (traverse_on_value_get _ _ _ _ _ Hpairs Hj') as (v' & Hv' & Ev').
    rewrite Hv'. f_equal. by apply (Hcan _ _ Em Er j').
  - apply dict_get_None. rewrite Hkp. by apply dict_get_None.
Qed.

(** After a successful [set_state], the same call changes nothing more. *)
Lemma set_state_again s state_id chat_id chat_state s1 :
  NoDup (dict_keys chat_state) ->
  set_state state_id chat_id chat_state s = (Ok tt, s1) ->
  (set_state state_id chat_id chat_state s1).2 = s1.
Proof.
  intros Hnd Hset. set (r := dict_pop chat_state "__memory__").
  assert (Hr : NoDup (dict_keys r)) by (by apply dict_pop_NoDup).
  (* the mapping that the first call wrote *)
  assert (Hfirst : exists m text1,
    s1 = <[(chat_id, state_id) := text1]> s /\
    Encoder_encode (PDict m) = Ok text1 /\ NoDup (dict_keys m) /\
    (forall k v, dict_get r k = Some v -> dict_get m k = Some v) /\
    (forall k v, dict_get m k = Some v -> dict_get r k = None ->
       forall j v', Encoder_encode v = Ok j ->
                    Decoder_decode j = Ok v' -> v' = v)).
  { rewrite set_state_eq_body in Hset.
    destruct (s !! (chat_id, state_id)) as [text0 |] eqn:Hs.
    - rewrite (set_state_body_present _ _ _ _ _ Hs) in Hset.
      fold r in Hset. unfold merged_text in Hset.
      destruct (json_decode text0) as [old |] eqn:Ed; [| done].
      destruct old as [| | | | | | | d0 | |]; try done.
      cbn [py_update] in Hset.
      destruct (json_encode (PDict (dict_update d0 r))) as [text1 |] eqn:Ee; [| done].
      injection Hset as <-.
      destruct (decode_canonical _ _ Ed) as [Hwf Hun].
      apply well_formed_dict in Hwf as [Hnd0 Hwf].
      apply untagged_dict in Hun as [_ Hun].
      exists (dict_update d0 r), text1. split_and!; try done.
      + by apply dict_update_NoDup.
      + intros k v Hk. rewrite dict_get_update by done. by rewrite Hk.
      + intros k v Hk Hrk j v'. rewrite dict_get_update, Hrk in Hk by done.
        apply round_trip_same.
        * by apply (dict_get_Forall (fun v => well_formed v = true) _ _ _ Hwf Hk).
        * by apply (dict_get_Forall (fun v => untagged v = true) _ _ _ Hun Hk).
    - rewrite (set_state_body_absent _ _ _ _ Hs) in Hset. fold r in Hset.
      destruct (json_encode (PDict r)) as [text1 |] eqn:Ee; [| done].
      injection Hset as <-.
      exists r, text1. split_and!; try done.
      intros k v Hk Hrk. congruence. }
  destruct Hfirst as (m & text1 & -> & Hm & Hndm & Hsub & Hcan).
  rewrite set_state_eq_body.
  rewrite (set_state_body_present _ _ _ _ text1) by apply lookup_insert_eq.
  fold r. unfold merged_text.
  destruct (json_decode text1) as [old |] eqn:Ed; [| done].
  destruct old as [| | | | | | | m' | |]; try done.
  cbn [py_update].
  rewrite (update_after_round_trip m r text1 m') by done.
  rewrite json_encode_eq, Hm. cbn [snd]. by rewrite insert_insert_eq.
Qed.

Lemma replay_scratch_only s1 state_id chat_id chat_state records :
  (set_state state_id chat_id chat_state s1).2 = s1 ->
  Forall (fun r => dict_pop r "__memory__" = dict_pop chat_state "__memory__")
    records ->
  replay state_id chat_id records s1 = s1.
Proof.
  intros Hagain. induction 1 as [| r records Hr _ IH]; [done |].
  cbn [replay]. by rewrite (set_state_strip _ _ _ r chat_state Hr), Hagain.
Qed.

(** ** The scratch field and the table *)

(** The text that [set_state] writes has the scratch field among its
    members only if the row had it before. *)
Lemma set_state_scratch_member s state_id chat_id chat_state s' :
  NoDup (dict_keys chat_state) ->
  set_state state_id chat_id chat_state s = (Ok tt, s') ->
  exists text',
    s' = <[(chat_id, state_id) := text']> s /\
    (has_member text' "__memory__" = true ->
     exists text,
       s !! (chat_id, state_id) = Some text /\
       has_member text "__memory__" = true).
Proof.
  intros Hnd. set (r := dict_pop chat_state "__memory__").
  assert (Hr : "__memory__" ∉ dict_keys r) by (by apply dict_pop_NoDup).
  rewrite set_state_eq_body.
  destruct (s !! (chat_id, state_id)) as [text0 |] eqn:Hs.
  - rewrite (set_state_body_present _ _ _ _ _ Hs). fold r. unfold merged_text.
    destruct (json_decode text0) as [old |] eqn:Ed; [| done].
    destruct old as [| | | | | | | d0 | |]; try done. cbn [py_update].
    destruct (json_encode (PDict (dict_update d0 r))) as [text1 |] eqn:Ee; [| done].
    intros [= <-]. exists text1. split; [done |].
    apply encode_dict_Ok in Ee as (ms & -> & _ & Hk).
    apply decode_dict_Ok in Ed as (ms0 & _ & -> & _ & _ & Hk0).
    cbn [has_member]. rewrite !dict_contains_true, Hk, dict_keys_update.
    intros [Hin | Hin]; [| done]. exists (JObj ms0). split; [done |].
    cbn [has_member]. by apply dict_contains_true, Hk0.
  - rewrite (set_state_body_absent _ _ _ _ Hs). fold r.
    destruct (json_encode (PDict r)) as [text1 |] eqn:Ee; [| done].
    intros [= <-]. exists text1. split; [done |].
    apply encode_dict_Ok in Ee as (ms & -> & _ & Hk).
    cbn [has_member]. rewrite dict_contains_true, Hk. done.
Qed.

Lemma set_state_scratch_free s state_id chat_id chat_state :
  NoDup (dict_keys chat_state) ->
  scratch_free s ->
  scratch_free (set_state state_id chat_id chat_state s).2.
Proof.
  intros Hnd Hs.
  destruct (set_state_outcome s state_id chat_id chat_state)
    as [(text' & Hset) | (e & Hset)]; rewrite Hset; [| done].
  destruct (set_state_scratch_member _ _ _ _ _ Hnd Hset) as (text1 & Heq & Hmem).
  cbn [snd]. intros key text. rewrite lookup_insert.
  case_decide as Hkey; [| by apply Hs]. intros [= <-].
  assert (Heq' : text' = text1).
  { apply (f_equal (fun m => m !! (chat_id, state_id))) in Heq.
    rewrite !lookup_insert_eq in Heq. congruence. }
  subst text1.
  destruct (has_member text' "__memory__") eqn:E; [| done].
  destruct (Hmem eq_refl) as (text0 & Hs0 & Hm0).
  by rewrite (Hs _ _ Hs0) in Hm0.
Qed.

(** Every table that [set_state] has built is free of the scratch field. *)
Lemma written_scratch_free s : written_by_set_state s -> scratch_free s.
Proof.
  induction 1 as [| s state_id chat_id chat_state _ IH Hnd].
  - intros key text. by rewrite lookup_empty.
  - by apply set_state_scratch_free.
Qed.

(** C4: the scratch field is never persisted.  Let [set_state] succeed on
    a record (a [dict]: its keys are distinct).  Then (1) it did what it does on the record without its
    scratch field; (2) the text it wrote has no scratch member unless the
    row had one before, which is never so in a table built by [set_state]:
    such a table stays free of the scratch field; (3) calling [set_state]
    again, any number of times, with records that differ from the first in
    their scratch field only, leaves the table, and so the durable record,
    exactly as the first call left it. *)
Theorem scratch_never_persisted s state_id chat_id chat_state s1 records :
  NoDup (dict_keys chat_state) ->
  set_state state_id chat_id chat_state s = (Ok tt, s1) ->
  Forall (fun r => dict_pop r "__memory__" = dict_pop chat_state "__memory__")
    records ->
  set_state state_id chat_id (dict_pop chat_state "__memory__") s = (Ok tt, s1) /\
  (exists text',
     s1 = <[(chat_id, state_id) := text']> s /\
     (has_member text' "__memory__" = true ->
      exists text,
        s !! (chat_id, state_id) = Some text /\
        has_member text "__memory__" = true)) /\
  (written_by_set_state s -> scratch_free s1) /\
  replay state_id chat_id records s1 = s1.
Proof.
  intros Hnd Hset Hrecords. split_and!.
  - rewrite <- Hset. apply set_state_strip. by apply dict_pop_idem.
  - by apply (set_state_scratch_member _ _ _ chat_state).
  - intros Hs%written_scratch_free.
    pose proof (set_state_scratch_free s state_id chat_id chat_state Hnd Hs) as H1.
    by rewrite Hset in H1.
  - apply (replay_scratch_only _ _ _ chat_state); [| done].
    by apply (set_state_again s).
Qed.

Lemma scratch_never_persisted_witness :
  NoDup (dict_keys scratch_record) /\
  set_state "flow" 42 scratch_record ∅ = (Ok tt, flow_table) /\
  Forall (fun r => dict_pop r "__memory__" = dict_pop scratch_record "__memory__")
    [scratch_record'; scratch_record; [("step", PInt 1)]] /\
  set_state "flow" 42 (dict_pop scratch_record "__memory__") ∅
  = (Ok tt, flow_table) /\
  (exists text',
     flow_table = <[(42, "flow") := text']> ∅ /\
     (has_member text' "__memory__" = true ->
      exists text,
        (∅ : store) !! (42, "flow") = Some text /\
        has_member text "__memory__" = true)) /\
  (written_by_set_state ∅ -> scratch_free flow_table) /\
  replay "flow" 42 [scratch_record'; scratch_record; [("step", PInt 1)]]
    flow_table
  = flow_table.
Proof.
  split; [by apply (bool_decide_unpack _) |].
  split; [reflexivity |].
  split; [repeat constructor |].
  apply (scratch_never_persisted ∅ "flow" 42 scratch_record flow_table
           [scratch_record'; scratch_record; [("step", PInt 1)]]).
  - by apply (bool_decide_unpack _).
  - reflexivity.
  - repeat constructor.
Defined.

(** ** The lazy map of [load_states] *)

Lemma st_bind_eq {S A B} (m : st S A) (f : A -> st S B) s :
  (m ≫= f) s
  = match m s with
    | (Ok a, s') => f a s'
    | (Raise e, s') => (Raise e, s')
    end.
Proof. reflexivity. Qed.

Section lazy_map_facts.

Variable other : pyval -> (pydict -> db unit) -> result StateDict.

Lemma filled_from_weaken (K K' : Z * string -> Prop) states :
  (forall key, K key -> K' key) -> filled_from other K states -> filled_from other K' states.
Proof.
  intros HK [Hf Hin]. split; [done |]. intros state_id inner Hi.
  destruct (Hin _ _ Hi) as [Hfi Hrec]. split; [done |]. eauto.
Qed.

Lemma states_setitem_filled K states state_id chat_id record s :
  filled_from other K states ->
  exists states',
    states_setitem states state_id chat_id record s = (Ok states', s) /\
    filled_from other (fun key => K key \/ key = (chat_id, state_id)) states'.
Proof.
  intros [Hf Hin]. unfold states_setitem, MissingDict_getitem.
  destruct (md_items states !! state_id) as [inner |] eqn:Hi.
  - eexists. split; [reflexivity |]. split; [done |].
    intros sid inner'. cbn [MissingDict_setitem md_items default_factory].
    rewrite lookup_insert. case_decide as Hsid.
    + subst sid. intros [= <-].
      cbn [MissingDict_setitem md_items default_factory].
      destruct (Hin _ _ Hi) as [Hfi Hrec]. split; [done |].
      intros cid r. rewrite lookup_insert. case_decide as Hcid.
      * subst cid. by right.
      * intros Hr. left. by apply (Hrec _ _ Hr).
    + intros Hi'. destruct (Hin _ _ Hi') as [Hfi Hrec]. split; [done |].
      intros cid r Hr. left. by apply (Hrec _ _ Hr).
  - rewrite Hf. eexists. split; [reflexivity |]. split; [done |].
    intros sid inner'. cbn [MissingDict_setitem md_items default_factory].
    rewrite insert_insert_eq, lookup_insert. case_decide as Hsid.
    + subst sid. intros [= <-].
      cbn [MissingDict_setitem md_items default_factory]. split; [done |].
      intros cid r. rewrite lookup_insert. case_decide as Hcid.
      * subst cid. by right.
      * by rewrite lookup_empty.
    + intros Hi'. destruct (Hin _ _ Hi') as [Hfi Hrec]. split; [done |].
      intros cid r Hr. left. by apply (Hrec _ _ Hr).
Qed.

Lemma load_rows_filled rows K states s states' s' :
  filled_from other K states ->
  load_rows other rows states s = (Ok states', s') ->
  s' = s /\
  filled_from other
    (fun key => K key \/
                exists state, state ∈ rows /\
                              key = (telegram_id state, description state))
    states'.
Proof.
  revert K states. induction rows as [| state rows IH]; intros K states HK.
  - intros [= <- <-]. split; [done |].
    eapply filled_from_weaken; [| exact HK]. auto.
  - cbn [load_rows]. rewrite st_bind_eq. unfold lift.
    destruct (json_decode (info state)
                ≫= __state_dict other (description state) (telegram_id state))
      as [record | e]; [| done].
    rewrite st_bind_eq.
    destruct (states_setitem_filled K states (description state)
                (telegram_id state) record s HK) as (states1 & -> & H1).
    intros Hrows. destruct (IH _ _ H1 Hrows) as [-> H2]. split; [done |].
    eapply filled_from_weaken; [| exact H2]. cbn beta.
    intros key [[HKk | ->] | (st0 & Hin & ->)].
    + by left.
    + right. exists state. split; [left | done].
    + right. exists st0. split; [by right | done].
Qed.

(** The map that [load_states] returns holds records for keys of the table
    only, and the load writes nothing. *)
Lemma load_states_filled s states s' :
  load_states other s = (Ok states, s') ->
  s' = s /\ filled_from other (fun key => is_Some (s !! key)) states.
Proof.
  unfold load_states, db_session. rewrite st_bind_eq. unfold State_select.
  destruct (load_rows other _ _ s) as [[states0 | e] s0] eqn:E; [| done].
  intros [= <- <-].
  apply load_rows_filled with (K := fun _ => False) in E as [-> HE].
  - split; [done |]. eapply filled_from_weaken; [| exact HE]. cbn beta.
    intros key [[] | (state & Hin & ->)].
    apply list_elem_of_fmap in Hin as ([[cid sid] text] & -> & Hin).
    apply elem_of_map_to_list in Hin. cbn. by rewrite Hin.
  - split; [done |]. intros sid inner. cbn [md_items]. by rewrite lookup_empty.
Qed.

(** What the factory of [load_states] builds for a key with no row. *)
Lemma chat_factory_absent s state_id chat_id :
  s !! (chat_id, state_id) = None ->
  chat_factory other state_id chat_id s
  = (Ok (mk_StateDict [("__memory__", PDict [])]
           (fun state => set_state state_id chat_id state)), s).
Proof.
  intros Hs. unfold chat_factory. rewrite st_bind_eq.
  by rewrite (get_state_absent _ _ _ Hs).
Qed.

Section MissingDict_facts.
Context {K V : Type} `{Countable K}.

Lemma MissingDict_getitem_hit (m : MissingDict K V) k v s :
  md_items m !! k = Some v -> MissingDict_getitem m k s = (Ok (v, m), s).
Proof. intros Hk. unfold MissingDict_getitem. by rewrite Hk. Qed.

Lemma MissingDict_getitem_miss (m : MissingDict K V) k s :
  md_items m !! k = None ->
  MissingDict_getitem m k s
  = match default_factory m k s with
    | (Ok v, s') =>
        (Ok (v, mk_MissingDict (<[k := v]> (md_items m)) (default_factory m)),
         s')
    | (Raise e, s') => (Raise e, s')
    end.
Proof. intros Hk. unfold MissingDict_getitem. by rewrite Hk. Qed.
End MissingDict_facts.

Lemma states_getitem_eq states state_id chat_id s :
  states_getitem states state_id chat_id s
  = match MissingDict_getitem states state_id s with
    | (Ok (inner, states1), s1) =>
        match MissingDict_getitem inner chat_id s1 with
        | (Ok (record, inner1), s2) =>
            (Ok (record, MissingDict_setitem states1 state_id inner1), s2)
        | (Raise e, s2) => (Raise e, s2)
        end
    | (Raise e, s1) => (Raise e, s1)
    end.
Proof.
  unfold states_getitem. rewrite st_bind_eq.
  destruct (MissingDict_getitem states state_id s) as [[[inner states1] | e] s1];
    [| done].
  rewrite st_bind_eq.
  by destruct (MissingDict_getitem inner chat_id s1) as [[[record inner1] | e] s2].
Qed.

(** A field assignment on a record: the dump function runs on the new
    contents without the scratch field. *)
Lemma StateDict_setitem_eq r k v s :
  StateDict_setitem r k v s
  = match dump_function r (dict_pop (dict_set (sd_data r) k v) "__memory__") s with
    | (Ok _, s') => (Ok (mk_StateDict (dict_set (sd_data r) k v) (dump_function r)), s')
    | (Raise e, s') => (Raise e, s')
    end.
Proof. reflexivity. Qed.

(** C9, amended: lazy default materialization.  Take the map that
    [load_states] returned for a table with no row under a key, and read
    the map at that key while the table still has no row under it.  The
    read returns a write-through record whose only field is the scratch
    field, holding an empty mapping, so that its other contents are [{}];
    the table is not written.  The dump function of the record is
    [set_state] for that very key, so that assigning a field of the record
    does to the table what [set_state] on that key with that field does.
    The record is cached: reading the key again returns it without calling
    the factory. *)
Theorem lazy_default_record s states s0 s' state_id chat_id :
  load_states other s = (Ok states, s0) ->
  s !! (chat_id, state_id) = None ->
  s' !! (chat_id, state_id) = None ->
  exists record states',
    states_getitem states state_id chat_id s' = (Ok (record, states'), s') /\
    sd_data record = [("__memory__", PDict [])] /\
    dict_pop (sd_data record) "__memory__" = [] /\
    dict_get (sd_data record) "__memory__" = Some (PDict []) /\
    (forall state s2,
       dump_function record state s2 = set_state state_id chat_id state s2) /\
    (forall k v s2,
       k <> "__memory__" ->
       (StateDict_setitem record k v s2).2
       = (set_state state_id chat_id [(k, v)] s2).2 /\
       is_ok (StateDict_setitem record k v s2).1
       = is_ok (set_state state_id chat_id [(k, v)] s2).1) /\
    (forall s2,
       states_getitem states' state_id chat_id s2 = (Ok (record, states'), s2)).
Proof.
  intros [-> [Hf Hin]]%load_states_filled Hs Hs'.
  set (record := mk_StateDict [("__memory__", PDict [])]
                   (fun state => set_state state_id chat_id state)).
  assert (Hinner : exists inner states1,
    MissingDict_getitem states state_id s' = (Ok (inner, states1), s') /\
    md_items states1 !! state_id = Some inner /\
    default_factory inner = chat_factory other state_id /\
    md_items inner !! chat_id = None).
  { unfold MissingDict_getitem.
    destruct (md_items states !! state_id) as [inner |] eqn:Hi.
    - exists inner, states. destruct (Hin _ _ Hi) as [Hfi Hrec].
      split_and!; try done.
      destruct (md_items inner !! chat_id) as [r |] eqn:Hr; [| done].
      apply Hrec in Hr. rewrite Hs in Hr. by destruct Hr.
    - rewrite Hf. eexists _, _. split; [reflexivity |].
      cbn [md_items default_factory]. by rewrite lookup_insert_eq. }
  destruct Hinner as (inner & states1 & Hget & Hi1 & Hfi & Hnone).
  exists record.
  exists (MissingDict_setitem states1 state_id
            (mk_MissingDict (<[chat_id := record]> (md_items inner))
               (default_factory inner))).
  split_and!; try done.
  - rewrite states_getitem_eq, Hget.
    rewrite (MissingDict_getitem_miss inner) by done.
    by rewrite Hfi, (chat_factory_absent _ _ _ Hs').
  - intros k v s2 Hk. rewrite StateDict_setitem_eq.
    cbn [sd_data dump_function record dict_set dict_pop].
    destruct (String.eqb_spec k "__memory__") as [| _]; [done |].
    cbn [dict_pop]. rewrite String.eqb_refl.
    by destruct (set_state state_id chat_id [(k, v)] s2) as [[[] | e] s3].
  - intros s2. rewrite states_getitem_eq.
    rewrite (MissingDict_getitem_hit _ state_id
               (mk_MissingDict (<[chat_id := record]> (md_items inner))
                  (default_factory inner)))
      by apply lookup_insert_eq.
    rewrite (MissingDict_getitem_hit _ chat_id record)
      by apply lookup_insert_eq.
    unfold MissingDict_setitem. cbn [md_items default_factory].
    by rewrite insert_insert_eq.
Qed.

End lazy_map_facts.

Lemma lazy_default_record_witness :
  exists states,
    load_states refuse_other flow_table = (Ok states, flow_table) /\
    flow_table !! (7, "quiz") = None /\
    exists record states',
      states_getitem states "quiz" 7 flow_table
      = (Ok (record, states'), flow_table) /\
      sd_data record = [("__memory__", PDict [])] /\
      dict_pop (sd_data record) "__memory__" = [] /\
      dict_get (sd_data record) "__memory__" = Some (PDict []) /\
      (forall state s2,
         dump_function record state s2 = set_state "quiz" 7 state s2) /\
      (forall k v s2,
         k <> "__memory__" ->
         (StateDict_setitem record k v s2).2
         = (set_state "quiz" 7 [(k, v)] s2).2 /\
         is_ok (StateDict_setitem record k v s2).1
         = is_ok (set_state "quiz" 7 [(k, v)] s2).1) /\
      (forall s2,
         states_getitem states' "quiz" 7 s2 = (Ok (record, states'), s2)).
Proof.
  eexists. split; [reflexivity |]. split; [reflexivity |].
  eapply (lazy_default_record refuse_other flow_table _ flow_table flow_table
            "quiz" 7);
    reflexivity.
Defined.

(** C9, as stated, fails: the factory reads the table when the key is first
    read, not when the map is loaded.  For a key that had no row at load
    time and has one by the time of the read, the record holds the fields
    of the row. *)
Lemma absent_at_load_counterexample :
  exists states record states',
    load_states refuse_other flow_table = (Ok states, flow_table) /\
    flow_table !! (7, "quiz") = None /\
    set_state "quiz" 7 [("x", PInt 1)] flow_table
    = (Ok tt, <[(7, "quiz") := JObj [("x", JNum 1)]]> flow_table) /\
    states_getitem states "quiz" 7
      (<[(7, "quiz") := JObj [("x", JNum 1)]]> flow_table)
    = (Ok (record, states'),
       <[(7, "quiz") := JObj [("x", JNum 1)]]> flow_table) /\
    dict_pop (sd_data record) "__memory__" = [("x", PInt 1)].
Proof. eexists _, _, _. repeat split. Qed.

(** ** [set_state] and the caller's record *)

Lemma fresh_unused (h : gmap nat pydict) : h !! fresh (dom h) = None.
Proof. apply not_elem_of_dom, is_fresh. Qed.

Lemma used_not_fresh (h : gmap nat pydict) b :
  is_Some (h !! b) -> b <> fresh (dom h).
Proof. intros [d Hb] ->. by rewrite fresh_unused in Hb. Qed.

(** The part of [set_state] after the copy and the [pop], the copy being
    at [a1] and holding [r]. *)
Lemma set_state_after_copy m state_id chat_id a1 r :
  Obj.heap m !! a1 = Some r ->
  exists h',
    (forall b, b <> a1 -> is_Some (Obj.heap m !! b) -> h' !! b = Obj.heap m !! b) /\
    try_except
      (state ← Obj.orm (State_getitem chat_id state_id);
       info ← Obj.decode_text (info state);
       _ ← Obj.update info a1;
       text ← Obj.encode_ref info;
       Obj.orm (State_set_info state text))
      ObjectNotFound
      (text ← Obj.encode_ref (Obj.Ref a1);
       Obj.orm (State_new chat_id state_id text)) m
    = match Obj.table m !! (chat_id, state_id) with
      | Some text =>
          match merged_text text r with
          | Ok text' =>
              (Ok tt, Obj.mk_mem h' (<[(chat_id, state_id) := text']> (Obj.table m)))
          | Raise e => (Raise e, Obj.mk_mem h' (Obj.table m))
          end
      | None =>
          match json_encode (PDict r) with
          | Ok text =>
              (Ok tt, Obj.mk_mem h' (<[(chat_id, state_id) := text]> (Obj.table m)))
          | Raise e => (Raise e, Obj.mk_mem h' (Obj.table m))
          end
      end.
Proof.
  destruct m as [h t]. cbn [Obj.heap Obj.table]. intros Ha1.
  unfold try_except. rewrite st_bind_eq.
  unfold Obj.orm at 1, State_getitem. cbn [Obj.heap Obj.table].
  destruct (t !! (chat_id, state_id)) as [text |] eqn:Hk.
  - cbn [info]. rewrite st_bind_eq. unfold Obj.decode_text, merged_text.
    destruct (json_decode text) as [old | e] eqn:Ed.
    + destruct old as [| | | | | | | d0 | |];
        try solve [ exists h; split; [done | reflexivity] ].
      set (a2 := fresh (dom h)).
      assert (Ha2 : a1 <> a2).
      { apply used_not_fresh. by rewrite Ha1. }
      exists (<[a2 := dict_update d0 r]> h). split.
      { intros b Hb1 Hb. rewrite lookup_insert_ne; [done |].
        intros <-. by apply (used_not_fresh h a2). }
      cbn [py_update].
      unfold Obj.alloc, Obj.update, Obj.encode_ref, Obj.orm, State_set_info.
      unfold Obj.read, Obj.write, lift, mbind, mret, st_bind, st_ret.
      cbn [Obj.heap Obj.table telegram_id description info fst snd]. fold a2.
      rewrite lookup_insert_eq, (lookup_insert_ne _ a2 a1) by done.
      rewrite Ha1. cbn [from_option id Obj.heap Obj.table].
      rewrite lookup_insert_eq, insert_insert_eq. cbn [from_option id].
      destruct (json_encode (PDict (dict_update d0 r))) as [text' | e] eqn:Ee;
        [done |].
      apply encode_raises in Ee. by subst e.
    + apply decode_raises in Ed. exists h. split; [done |].
      cbn [st_bind lift]. unfold lift, mbind, st_bind.
      by destruct Ed as [-> | ->].
  - cbn [decide]. exists h. split; [done |].
    unfold Obj.encode_ref, Obj.orm, State_new. 
    unfold Obj.read, lift, mbind, mret, st_bind, st_ret.
    cbn [Obj.heap Obj.table]. rewrite Ha1. cbn [from_option id].
    destruct (json_encode (PDict r)) as [text' | e]; [| done].
    cbn [Obj.heap Obj.table]. by rewrite Hk.
Qed.

(** C10: [set_state] does not write to the record its caller holds.
    When [set_state] is called on the address of a mapping, then after
    the call, whether it returned or raised, the mapping at that address
    is the one that was there before, and so is every other object that
    existed before the call: the scratch field is popped from a copy.
    What the call returns and what it does to the table is what
    [set_state] on the contents of the record returns and does. *)
Theorem set_state_keeps_argument m state_id chat_id a d :
  Obj.heap m !! a = Some d ->
  Obj.heap (Obj.set_state state_id chat_id a m).2 !! a = Some d /\
  Obj.preserves m (Obj.set_state state_id chat_id a m).2 /\
  ((Obj.set_state state_id chat_id a m).1,
   Obj.table (Obj.set_state state_id chat_id a m).2)
  = set_state state_id chat_id d (Obj.table m).
Proof.
  destruct m as [h t]. cbn [Obj.heap Obj.table]. intros Ha.
  remember (Obj.set_state state_id chat_id a (Obj.mk_mem h t)) as res eqn:Hres.
  unfold Obj.set_state, Obj.session in Hres.
  rewrite st_bind_eq in Hres. unfold Obj.copy at 1 in Hres.
  rewrite st_bind_eq in Hres. unfold Obj.read at 1 in Hres.
  cbn [Obj.heap Obj.table] in Hres. rewrite Ha in Hres.
  cbn [from_option id] in Hres. unfold Obj.alloc at 1 in Hres.
  cbn [Obj.heap Obj.table] in Hres. set (a1 := fresh (dom h)) in Hres.
  rewrite st_bind_eq in Hres. unfold Obj.pop at 1 in Hres.
  rewrite st_bind_eq in Hres. unfold Obj.read at 1 in Hres.
  cbn [Obj.heap Obj.table] in Hres. rewrite lookup_insert_eq in Hres.
  cbn [from_option id] in Hres. unfold Obj.write at 1 in Hres.
  cbn [Obj.heap Obj.table] in Hres. rewrite insert_insert_eq in Hres.
  destruct (set_state_after_copy
              (Obj.mk_mem (<[a1 := dict_pop d "__memory__"]> h) t)
              state_id chat_id a1 (dict_pop d "__memory__")
              (lookup_insert_eq _ _ _))
    as (h' & Hframe & Heq).
  rewrite Heq in Hres. clear Heq. cbn [Obj.heap Obj.table] in Hres, Hframe.
  assert (Hfresh : forall b, is_Some (h !! b) -> h' !! b = h !! b).
  { intros b Hb. pose proof (used_not_fresh h b Hb) as Hne. fold a1 in Hne.
    rewrite Hframe; [by rewrite lookup_insert_ne | done |].
    by rewrite lookup_insert_ne. }
  assert (Hheap : Obj.heap res.2 = h' /\
                  (res.1, Obj.table res.2)
                  = set_state state_id chat_id d t).
  { rewrite set_state_eq_body.
    destruct (t !! (chat_id, state_id)) as [text |] eqn:Hk.
    - rewrite (set_state_body_present _ _ _ _ _ Hk).
      by destruct (merged_text text (dict_pop d "__memory__")); subst res.
    - rewrite (set_state_body_absent _ _ _ _ Hk).
      by destruct (json_encode (PDict (dict_pop d "__memory__"))); subst res. }
  destruct Hheap as [Hh Hsim]. split_and!; [| | done].
  - rewrite Hh, Hfresh by (by rewrite Ha). done.
  - intros b Hb. cbn [Obj.heap] in *. by rewrite Hh, Hfresh.
Qed.

Lemma set_state_keeps_argument_witness :
  Obj.heap (Obj.mk_mem {[5%nat := scratch_record]} flow_table) !! 5%nat
  = Some scratch_record /\
  Obj.heap (Obj.set_state "flow" 42 5
          (Obj.mk_mem {[5%nat := scratch_record]} flow_table)).2 !! 5%nat
  = Some scratch_record /\
  Obj.preserves (Obj.mk_mem {[5%nat := scratch_record]} flow_table)
    (Obj.set_state "flow" 42 5
       (Obj.mk_mem {[5%nat := scratch_record]} flow_table)).2 /\
  ((Obj.set_state "flow" 42 5
      (Obj.mk_mem {[5%nat := scratch_record]} flow_table)).1,
   Obj.table (Obj.set_state "flow" 42 5
            (Obj.mk_mem {[5%nat := scratch_record]} flow_table)).2)
  = set_state "flow" 42 scratch_record flow_table.
Proof.
  split; [reflexivity |].
  apply (set_state_keeps_argument
           (Obj.mk_mem {[5%nat := scratch_record]} flow_table) "flow" 42 5%nat
           scratch_record).
  reflexivity.
Defined.

(** * More of the code *)

(** ** More on the codec *)

(** X1: a naive timestamp is encoded without complaint, as a tagged string
    with no offset, and that text cannot be decoded: the decoder raises
    [ValueError]. *)
Theorem naive_timestamp_encodes_not_decodes t :
  valid_datetime t = true -> utcoffset t = None ->
  json_encode (PDatetime t)
  = Ok (JObj [("__datetime__", JStr (strftime t))]) /\
  json_decode (JObj [("__datetime__", JStr (strftime t))]) = Raise ValueError.
Proof.
  intros Hv Hn. split; [reflexivity |].
  rewrite json_decode_eq, decode_tag. unfold py_strptime.
  by rewrite strptime_naive.
Qed.

Lemma naive_timestamp_encodes_not_decodes_witness :
  valid_datetime (mk_datetime 2021 7 4 9 30 0 0 None) = true /\
  utcoffset (mk_datetime 2021 7 4 9 30 0 0 None) = None /\
  json_encode (PDatetime (mk_datetime 2021 7 4 9 30 0 0 None))
  = Ok (JObj [("__datetime__",
               JStr (strftime (mk_datetime 2021 7 4 9 30 0 0 None)))]) /\
  json_decode
    (JObj [("__datetime__",
            JStr (strftime (mk_datetime 2021 7 4 9 30 0 0 None)))])
  = Raise ValueError.
Proof.
  split; [reflexivity |]. split; [reflexivity |].
  apply (naive_timestamp_encodes_not_decodes
           (mk_datetime 2021 7 4 9 30 0 0 None)); reflexivity.
Defined.

(** X2: what the decoder returns is in the normal form of the codec: it
    holds no tuple, no object of another class and no mapping with the key
    ["__datetime__"], and its timestamps have a zone.  Encoding it and
    decoding the result gives it back when its timestamps are of the year
    1000 or later, and raises [ValueError] when one of them is earlier: the
    decoder reads a year written with four digits, zeros included, and the
    encoder writes the year without them. *)
Theorem decoded_value_is_stable j v :
  json_decode j = Ok v ->
  well_formed v = true /\ untagged v = true /\
  json_encode v ≫= json_decode
  = if four_digit_years v then Ok v else Raise ValueError.
Proof.
  rewrite json_decode_eq. intros Hd.
  destruct (decode_canonical j v Hd) as [Hwf Hun]. split_and!; try done.
  rewrite json_encode_eq.
  destruct (encode_then_decode v Hwf Hun) as (j' & -> & Hd'). exact Hd'.
Qed.

Lemma decoded_value_is_stable_witness :
  json_decode
    (JObj [("when",
            JObj [("__datetime__", JStr "0999-01-02T03:04:05.000006-0300")]);
           ("n", JNum 1); ("n", JNum 2)])
  = Ok (PDict [("when", PDatetime early_time); ("n", PInt 2)]) /\
  well_formed (PDict [("when", PDatetime early_time); ("n", PInt 2)]) = true /\
  untagged (PDict [("when", PDatetime early_time); ("n", PInt 2)]) = true /\
  json_encode (PDict [("when", PDatetime early_time); ("n", PInt 2)])
    ≫= json_decode
  = Raise ValueError.
Proof.
  split; [vm_compute; reflexivity |].
  apply (decoded_value_is_stable
           (JObj [("when",
                   JObj [("__datetime__",
                          JStr "0999-01-02T03:04:05.000006-0300")]);
                  ("n", JNum 1); ("n", JNum 2)])).
  vm_compute. reflexivity.
Defined.

Lemma traverse_total {A B} (f : A -> result B) l :
  Forall (fun x => exists y, f x = Ok y) l -> exists ys, traverse f l = Ok ys.
Proof.
  induction 1 as [| x l (y & Hy) _ (ys & Hys)]; [by exists [] |].
  exists (y :: ys). cbn. by rewrite Hy, Hys.
Qed.

(** A value in which no object of another class occurs has an encoding. *)
Lemma encode_supported v :
  has_unsupported v = false -> exists j, Encoder_encode v = Ok j.
Proof.
  induction v as [| b | n | f | s | l IH | l IH | d IH | t | a] using pyval_ind;
    try done; try (intros _; eexists; reflexivity); cbn [has_unsupported].
  - intros Hl. destruct (traverse_total Encoder_encode l) as (js & Hjs).
    { rewrite Forall_forall in IH |- *. intros x Hx. apply (IH x Hx).
      destruct (has_unsupported x) eqn:E; [| done].
      rewrite <- Hl. symmetry. apply existsb_exists. exists x.
      split; [by apply list_elem_of_In | done]. }
    exists (JArr js). by rewrite encode_list, Hjs.
  - intros Hl. destruct (traverse_total Encoder_encode l) as (js & Hjs).
    { rewrite Forall_forall in IH |- *. intros x Hx. apply (IH x Hx).
      destruct (has_unsupported x) eqn:E; [| done].
      rewrite <- Hl. symmetry. apply existsb_exists. exists x.
      split; [by apply list_elem_of_In | done]. }
    exists (JArr js).
    change (Encoder_encode (PTuple l)) with (Encoder_encode (PList l)).
    by rewrite encode_list, Hjs.
  - intros Hd.
    destruct (traverse_total (on_value Encoder_encode) d) as (ms & Hms).
    { rewrite Forall_forall in IH |- *. intros [k x] Hx.
      destruct (IH _ Hx) as (j & Hj).
      - cbn [snd]. destruct (has_unsupported x) eqn:E; [| done].
        rewrite <- Hd. symmetry. apply existsb_snd_In. eauto.
      - exists (k, j). unfold on_value. cbn [fst snd] in *. by rewrite Hj. }
    exists (JObj ms). by rewrite encode_dict, Hms.
Qed.

(** X3: the encoder fails exactly on the values in which an object of a
    class other than the ones it knows occurs, whether at the top or inside
    lists, tuples and mappings, and then with [TypeError]; every other
    value, naive timestamps included, has an encoding. *)
Theorem encode_fails_iff_unsupported v :
  (has_unsupported v = true /\ json_encode v = Raise TypeError) \/
  (has_unsupported v = false /\ exists j, json_encode v = Ok j).
Proof.
  rewrite json_encode_eq. destruct (has_unsupported v) eqn:E.
  - left. split; [done |]. by apply encode_unsupported.
  - right. split; [done |]. by apply encode_supported.
Qed.

Lemma traverse_map {A B} (f : A -> result B) (g : A -> B) l :
  Forall (fun x => f x = Ok (g x)) l -> traverse f l = Ok (map g l).
Proof.
  induction 1 as [| x l Hx _ IH]; [done |]. cbn. by rewrite Hx, IH.
Qed.

Lemma decode_tag_free j : tag_free j = true -> Decoder_decode j = Ok (plain j).
Proof.
  induction j as [| b | n | f | s | l IH | m IH] using json_ind; try done.
  - cbn [tag_free plain]. rewrite forallb_forall. intros Hl.
    rewrite decode_arr, (traverse_map _ plain); [done |].
    rewrite Forall_forall in IH |- *. intros x Hx. apply (IH x Hx), Hl.
    by apply list_elem_of_In.
  - cbn [tag_free plain]. rewrite andb_true_iff, negb_true_iff.
    rewrite forallb_Forall_snd. intros [Htag Hm].
    rewrite decode_obj.
    rewrite (traverse_map _ (fun kv => (kv.1, plain kv.2))).
    + cbn [mbind result_bind]. unfold object_hook.
      destruct (dict_get _ "__datetime__") as [x |] eqn:Ex; [| done].
      exfalso. apply dict_contains_false in Htag. apply Htag.
      assert (Hin : "__datetime__"
                    ∈ dict_keys (dict_of_pairs
                                   (map (fun kv => (kv.1, plain kv.2)) m))).
      { apply dict_contains_true. unfold dict_contains. by rewrite Ex. }
      unfold dict_of_pairs in Hin. apply dict_keys_update in Hin as [Hin | Hin].
      * by apply elem_of_nil in Hin.
      * unfold dict_keys in Hin |- *. rewrite map_map in Hin. exact Hin.
    + rewrite Forall_forall in IH, Hm |- *. intros [k x] Hx.
      pose proof (IH _ Hx (Hm _ Hx)) as Hdec.
      unfold on_value. cbn [fst snd] in *. by rewrite Hdec.
Qed.

Lemma plain_no_timestamp j : has_timestamp (plain j) = false.
Proof.
  induction j as [| b | n | f | s | l IH | m IH] using json_ind; try done.
  - cbn [plain has_timestamp]. apply not_true_is_false.
    rewrite existsb_exists. intros (v & Hv & Ht).
    apply in_map_iff in Hv as (x & <- & Hx).
    rewrite Forall_forall in IH. apply list_elem_of_In in Hx.
    by rewrite (IH x Hx) in Ht.
  - cbn [plain has_timestamp]. apply not_true_is_false.
    rewrite existsb_snd_In. intros (k & v & Hin & Ht).
    assert (Hall : Forall (fun kv : string * pyval => has_timestamp kv.2 = false)
                     (dict_of_pairs (map (fun kv => (kv.1, plain kv.2)) m))).
    { apply (dict_update_Forall (fun v => has_timestamp v = false));
        [constructor |].
      rewrite Forall_forall in IH. rewrite Forall_forall. intros [k' v'] Hkv.
      apply list_elem_of_fmap in Hkv as ([k0 x0] & [= -> ->] & Hx0).
      by apply (IH _ Hx0). }
    rewrite Forall_forall in Hall. specialize (Hall _ Hin). cbn in Hall.
    congruence.
Qed.

(** X4: the decoder can raise, and can return a timestamp, only for a
    document in which some object has a member named ["__datetime__"].
    Every other document decodes, to the value with its structure: arrays
    as lists, objects as mappings, no timestamp anywhere. *)
Theorem decode_without_tag j :
  tag_free j = true ->
  json_decode j = Ok (plain j) /\ has_timestamp (plain j) = false.
Proof.
  intros Hj. split; [by apply decode_tag_free | apply plain_no_timestamp].
Qed.

Lemma decode_without_tag_witness :
  tag_free (JObj [("a", JArr [JNum 1; JNull]); ("a", JStr "__datetime__");
                  ("b", JObj [])]) = true /\
  json_decode (JObj [("a", JArr [JNum 1; JNull]); ("a", JStr "__datetime__");
                     ("b", JObj [])])
  = Ok (plain (JObj [("a", JArr [JNum 1; JNull]); ("a", JStr "__datetime__");
                     ("b", JObj [])])) /\
  has_timestamp
    (plain (JObj [("a", JArr [JNum 1; JNull]); ("a", JStr "__datetime__");
                  ("b", JObj [])])) = false.
Proof.
  split; [reflexivity |].
  apply (decode_without_tag
           (JObj [("a", JArr [JNum 1; JNull]); ("a", JStr "__datetime__");
                  ("b", JObj [])])).
  reflexivity.
Defined.

(** ** More on [set_state] and [get_state] *)

(** [set_state] in one equation: it looks at the row under its key only, and
    writes under that key only. *)
Lemma set_state_row s state_id chat_id chat_state :
  set_state state_id chat_id chat_state s
  = match new_text (s !! (chat_id, state_id)) chat_state with
    | Ok text => (Ok tt, <[(chat_id, state_id) := text]> s)
    | Raise e => (Raise e, s)
    end.
Proof.
  rewrite set_state_eq_body.
  destruct (s !! (chat_id, state_id)) as [text |] eqn:Hs.
  - by rewrite (set_state_body_present _ _ _ _ _ Hs).
  - by rewrite (set_state_body_absent _ _ _ _ Hs).
Qed.

(** [get_state] in one equation. *)
Lemma get_state_row s state_id chat_id :
  get_state state_id chat_id s
  = (match s !! (chat_id, state_id) with
     | Some text => json_decode text
     | None => Ok (PDict [])
     end, s).
Proof.
  destruct (s !! (chat_id, state_id)) as [text |] eqn:Hs.
  - by apply get_state_present.
  - by apply get_state_absent.
Qed.

(** X5: [set_state] touches one row.  Whatever it is given, the rows under
    the other keys are as before and no row is ever removed; when it
    returns, there is a row under its key; when it raises, the table is
    the one it found. *)
Theorem set_state_one_row s state_id chat_id chat_state :
  (forall key, key <> (chat_id, state_id) ->
     (set_state state_id chat_id chat_state s).2 !! key = s !! key) /\
  (forall key, is_Some (s !! key) ->
     is_Some ((set_state state_id chat_id chat_state s).2 !! key)) /\
  (is_ok (set_state state_id chat_id chat_state s).1 = true ->
   is_Some ((set_state state_id chat_id chat_state s).2 !! (chat_id, state_id))) /\
  (is_ok (set_state state_id chat_id chat_state s).1 = false ->
   (set_state state_id chat_id chat_state s).2 = s).
Proof.
  rewrite set_state_row.
  destruct (new_text (s !! (chat_id, state_id)) chat_state) as [text | e];
    cbn [fst snd is_ok]; split_and!; try done.
  - intros key Hkey. by rewrite lookup_insert_ne.
  - intros key Hkey. rewrite lookup_insert. by case_decide.
  - intros _. by rewrite lookup_insert_eq.
Qed.

(** X8: calls of [set_state] for two different keys can be swapped: either
    order gives the same table, and each call returns or raises the same
    in both orders. *)
Theorem set_state_commutes s state_id1 chat_id1 r1 state_id2 chat_id2 r2 :
  (chat_id1, state_id1) <> (chat_id2, state_id2) ->
  (set_state state_id2 chat_id2 r2 (set_state state_id1 chat_id1 r1 s).2).2
  = (set_state state_id1 chat_id1 r1 (set_state state_id2 chat_id2 r2 s).2).2 /\
  (set_state state_id1 chat_id1 r1 (set_state state_id2 chat_id2 r2 s).2).1
  = (set_state state_id1 chat_id1 r1 s).1 /\
  (set_state state_id2 chat_id2 r2 (set_state state_id1 chat_id1 r1 s).2).1
  = (set_state state_id2 chat_id2 r2 s).1.
Proof.
  intros Hne.
  assert (Hne' : (chat_id2, state_id2) <> (chat_id1, state_id1)) by congruence.
  rewrite (set_state_row s state_id1), (set_state_row s state_id2).
  destruct (new_text (s !! (chat_id1, state_id1)) r1) as [t1 | e1] eqn:E1;
    destruct (new_text (s !! (chat_id2, state_id2)) r2) as [t2 | e2] eqn:E2;
    cbn [fst snd]; rewrite !set_state_row;
    rewrite ?lookup_insert_ne by done; rewrite ?E1, ?E2; cbn [fst snd];
    split_and!; try done.
  by apply insert_insert_ne.
Qed.

Lemma set_state_commutes_witness :
  ((7, "quiz") : Z * string) <> (42, "flow") /\
  (set_state "flow" 42 scratch_record
     (set_state "quiz" 7 [("x", PObject 1)] flow_table).2).2
  = (set_state "quiz" 7 [("x", PObject 1)]
       (set_state "flow" 42 scratch_record flow_table).2).2 /\
  (set_state "quiz" 7 [("x", PObject 1)]
     (set_state "flow" 42 scratch_record flow_table).2).1
  = (set_state "quiz" 7 [("x", PObject 1)] flow_table).1 /\
  (set_state "flow" 42 scratch_record
     (set_state "quiz" 7 [("x", PObject 1)] flow_table).2).1
  = (set_state "flow" 42 scratch_record flow_table).1.
Proof.
  split; [discriminate |].
  apply (set_state_commutes flow_table "quiz" 7 [("x", PObject 1)]
           "flow" 42 scratch_record).
  discriminate.
Defined.







Lemma traverse_on_value_single {A B} (f : A -> result B) k x :
  traverse (on_value f) [(k, x)]
  = match f x with Ok y => Ok [(k, y)] | Raise e => Raise e end.
Proof. unfold on_value. cbn. by destruct (f x). Qed.

(** X9: a naive timestamp blocks its key.  [set_state] on a key with no
    row accepts a record with a naive timestamp and writes the row; from
    then on [get_state] on that key raises [ValueError], and so does every
    [set_state] on it, whatever the record, the row staying as it is. *)
Theorem naive_timestamp_blocks_key s state_id chat_id k t :
  s !! (chat_id, state_id) = None ->
  valid_datetime t = true -> utcoffset t = None -> k <> "__memory__" ->
  exists s1,
    set_state state_id chat_id [(k, PDatetime t)] s = (Ok tt, s1) /\
    get_state state_id chat_id s1 = (Raise ValueError, s1) /\
    forall chat_state,
      set_state state_id chat_id chat_state s1 = (Raise ValueError, s1).
Proof.
  intros Hs Hv Hn Hk.
  set (text := JObj [(k, JObj [("__datetime__", JStr (strftime t))])]).
  assert (Hdec : json_decode text = Raise ValueError).
  { rewrite json_decode_eq. unfold text. rewrite decode_obj.
    rewrite traverse_on_value_single, decode_tag. unfold py_strptime.
    by rewrite strptime_naive. }
  exists (<[(chat_id, state_id) := text]> s). split_and!.
  - rewrite set_state_row, Hs. unfold new_text. cbn [dict_pop].
    destruct (String.eqb_spec "__memory__" k) as [<- | _]; [done |].
    reflexivity.
  - by rewrite get_state_row, lookup_insert_eq, Hdec.
  - intros chat_state. rewrite set_state_row, lookup_insert_eq.
    unfold new_text, merged_text. by rewrite Hdec.
Qed.

Lemma naive_timestamp_blocks_key_witness :
  (∅ : store) !! (7, "quiz") = None /\
  valid_datetime (mk_datetime 2021 7 4 9 30 0 0 None) = true /\
  utcoffset (mk_datetime 2021 7 4 9 30 0 0 None) = None /\
  "due" <> "__memory__" /\
  exists s1,
    set_state "quiz" 7
      [("due", PDatetime (mk_datetime 2021 7 4 9 30 0 0 None))] ∅
    = (Ok tt, s1) /\
    get_state "quiz" 7 s1 = (Raise ValueError, s1) /\
    forall chat_state,
      set_state "quiz" 7 chat_state s1 = (Raise ValueError, s1).
Proof.
  split; [reflexivity |]. split; [reflexivity |]. split; [reflexivity |].
  split; [discriminate |].
  apply (naive_timestamp_blocks_key ∅ "quiz" 7 "due"
           (mk_datetime 2021 7 4 9 30 0 0 None));
    [reflexivity | reflexivity | reflexivity | discriminate].
Defined.

(** X10: a record that is itself of the tagging shape is taken for a
    timestamp.  [set_state] on a key with no row accepts the record
    [{'__datetime__': <formatted string>}], the string being the
    fixed-width spelling of an aware timestamp, and writes it; [get_state]
    then returns a timestamp instead of a mapping, and every later
    [set_state] on the key raises [AttributeError], the row staying as it
    is. *)
Theorem tagged_record_read_as_timestamp s state_id chat_id t :
  s !! (chat_id, state_id) = None ->
  valid_datetime t = true -> is_aware t = true ->
  exists s1,
    set_state state_id chat_id [("__datetime__", PStr (fixed_width t))] s
    = (Ok tt, s1) /\
    get_state state_id chat_id s1 = (Ok (PDatetime t), s1) /\
    forall chat_state,
      set_state state_id chat_id chat_state s1 = (Raise AttributeError, s1).
Proof.
  intros Hs Hv Ha.
  set (text := JObj [("__datetime__", JStr (fixed_width t))]).
  assert (Hdec : json_decode text = Ok (PDatetime t)).
  { rewrite json_decode_eq. unfold text. rewrite decode_tag.
    unfold py_strptime. by rewrite strptime_fixed_width. }
  exists (<[(chat_id, state_id) := text]> s). split_and!.
  - by rewrite set_state_row, Hs.
  - by rewrite get_state_row, lookup_insert_eq, Hdec.
  - intros chat_state. rewrite set_state_row, lookup_insert_eq.
    unfold new_text, merged_text. by rewrite Hdec.
Qed.

Lemma tagged_record_read_as_timestamp_witness :
  (∅ : store) !! (7, "quiz") = None /\
  valid_datetime sample_time = true /\ is_aware sample_time = true /\
  exists s1,
    set_state "quiz" 7 [("__datetime__", PStr (fixed_width sample_time))] ∅
    = (Ok tt, s1) /\
    get_state "quiz" 7 s1 = (Ok (PDatetime sample_time), s1) /\
    forall chat_state,
      set_state "quiz" 7 chat_state s1 = (Raise AttributeError, s1).
Proof.
  split; [reflexivity |]. split; [reflexivity |]. split; [reflexivity |].
  apply (tagged_record_read_as_timestamp ∅ "quiz" 7 sample_time); reflexivity.
Defined.

(** ** More on [load_states] *)

Lemma states_lookup_Some (states : states_map) state_id chat_id record :
  states_lookup states (chat_id, state_id) = Some record <->
  exists inner,
    md_items states !! state_id = Some inner /\
    md_items inner !! chat_id = Some record.
Proof.
  unfold states_lookup. cbn [fst snd].
  destruct (md_items states !! state_id) as [inner |]; cbn.
  - split; [eauto |]. by intros (inner' & [= <-] & Hr).
  - split; [done |]. by intros (inner' & [=] & _).
Qed.

(** Reading a key that is in the map: the record, and the same map. *)
Lemma states_getitem_hit (states : states_map) state_id chat_id record s :
  states_lookup states (chat_id, state_id) = Some record ->
  states_getitem states state_id chat_id s = (Ok (record, states), s).
Proof.
  intros (inner & Hi & Hr)%states_lookup_Some.
  rewrite states_getitem_eq, (MissingDict_getitem_hit _ _ inner) by done.
  rewrite (MissingDict_getitem_hit _ _ record) by done.
  destruct states as [items f]. unfold MissingDict_setitem.
  cbn [md_items default_factory] in *. by rewrite insert_id.
Qed.

Lemma State_select_rows s :
  State_select s
  = (Ok (map (fun r => mk_State r.1.1 r.1.2 r.2) (map_to_list s)), s).
Proof. reflexivity. Qed.

Lemma select_keys_NoDup (s : store) :
  NoDup (map (fun state => (telegram_id state, description state))
           (map (fun r : Z * string * json => mk_State r.1.1 r.1.2 r.2)
              (map_to_list s))).
Proof.
  rewrite map_map. cbn [telegram_id description].
  replace (map (fun x : Z * string * json => (x.1.1, x.1.2)) (map_to_list s))
    with (map fst (map_to_list s)).
  - apply NoDup_fst_map_to_list.
  - apply map_ext. by intros [[cid sid] text].
Qed.

Lemma select_row_elem (s : store) chat_id state_id text :
  s !! (chat_id, state_id) = Some text ->
  mk_State chat_id state_id text
    ∈ map (fun r : Z * string * json => mk_State r.1.1 r.1.2 r.2)
        (map_to_list s).
Proof.
  intros Hs. apply list_elem_of_fmap. exists (chat_id, state_id, text).
  split; [done |]. by apply elem_of_map_to_list.
Qed.

(** An object decodes to a mapping or to a timestamp. *)
Lemma decode_obj_kind members v :
  Decoder_decode (JObj members) = Ok v ->
  (exists d, v = PDict d) \/ (exists t, v = PDatetime t).
Proof.
  rewrite decode_obj.
  destruct (traverse (on_value Decoder_decode) members) as [pairs |]; [| done].
  cbn [mbind result_bind]. unfold object_hook.
  destruct (dict_get (dict_of_pairs pairs) "__datetime__") as [x |].
  - intros (s & t & _ & _ & ->)%py_strptime_Ok. right. by exists t.
  - intros [= <-]. left. by eexists.
Qed.

(** Every row of a table built by [set_state] is an object. *)
Lemma written_rows_objects s key text :
  written_by_set_state s -> s !! key = Some text ->
  exists members, text = JObj members.
Proof.
  intros Hw. revert key text.
  induction Hw as [| s state_id chat_id chat_state _ IH Hnd]; intros key text.
  - by rewrite lookup_empty.
  - rewrite set_state_row.
    destruct (new_text (s !! (chat_id, state_id)) chat_state)
      as [text1 |] eqn:Enew; cbn [snd]; [| apply IH].
    rewrite lookup_insert. case_decide as Hkey; [| apply IH].
    intros [= <-]. unfold new_text, merged_text in Enew.
    destruct (s !! (chat_id, state_id)) as [text0 |].
    + destruct (json_decode text0) as [old |]; [| done].
      destruct old as [| | | | | | | d0 | |]; try done.
      cbn [py_update] in Enew. rewrite json_encode_eq in Enew.
      apply encode_dict_Ok in Enew as (ms & -> & _). by exists ms.
    + rewrite json_encode_eq in Enew.
      apply encode_dict_Ok in Enew as (ms & -> & _). by exists ms.
Qed.

Section loaded_map.

Variable other : pyval -> (pydict -> db unit) -> result StateDict.

(** Storing a record in the map: it is then under its key, and what is
    under the other keys has not moved. *)
Lemma states_setitem_lookup (states : states_map) state_id chat_id record s :
  default_factory states = state_factory other ->
  exists states',
    states_setitem states state_id chat_id record s = (Ok states', s) /\
    default_factory states' = state_factory other /\
    states_lookup states' (chat_id, state_id) = Some record /\
    forall key, key <> (chat_id, state_id) ->
      states_lookup states' key = states_lookup states key.
Proof.
  intros Hf. unfold states_setitem. rewrite st_bind_eq.
  assert (Hother : forall (inner : MissingDict Z StateDict) (key : Z * string),
    key <> (chat_id, state_id) ->
    (md_items states !! state_id = Some inner \/
     (md_items states !! state_id = None /\ md_items inner = ∅)) ->
    states_lookup
      (MissingDict_setitem
         (mk_MissingDict (<[state_id := inner]> (md_items states))
            (default_factory states))
         state_id (MissingDict_setitem inner chat_id record)) key
    = states_lookup states key).
  { intros inner [cid sid] Hkey Hinner. unfold states_lookup.
    cbn [fst snd MissingDict_setitem md_items default_factory].
    rewrite insert_insert_eq, lookup_insert. case_decide as Hsid.
    - subst sid. cbn. rewrite lookup_insert_ne by congruence.
      destruct Hinner as [-> | [-> ->]]; [done |]. by rewrite lookup_empty.
    - done. }
  destruct (md_items states !! state_id) as [inner |] eqn:Hi.
  - rewrite (MissingDict_getitem_hit _ _ inner) by done.
    eexists. split; [reflexivity |]. split_and!; [done | |].
    + unfold states_lookup. cbn [fst snd MissingDict_setitem md_items].
      rewrite lookup_insert_eq. cbn. by rewrite lookup_insert_eq.
    + intros key Hkey. rewrite <- (Hother inner key Hkey) by auto.
      unfold MissingDict_setitem. cbn [md_items default_factory].
      by rewrite insert_insert_eq.
  - rewrite (MissingDict_getitem_miss _ _ _ Hi), Hf.
    eexists. split; [reflexivity |]. split_and!; [done | |].
    + unfold states_lookup. cbn [fst snd MissingDict_setitem md_items].
      rewrite lookup_insert_eq. cbn. by rewrite lookup_insert_eq.
    + intros key Hkey.
      apply (Hother (mk_MissingDict ∅ (chat_factory other state_id)) key Hkey).
      right. by split.
Qed.

(** The record of a row that decodes to a mapping. *)
Lemma state_dict_mapping state_id chat_id text d :
  json_decode text = Ok (PDict d) ->
  json_decode text ≫= __state_dict other state_id chat_id
  = Ok (record_for state_id chat_id d).
Proof. by intros ->. Qed.

(** Where [__state_dict] raises by itself, whatever the constructor of the
    record does. *)
Lemma state_dict_no_record state_id chat_id v :
  no_record v = true -> __state_dict other state_id chat_id v = Raise TypeError.
Proof.
  destruct v as [| | | | s | l | l | | |]; cbn [no_record __state_dict];
    try done.
  - by intros ->%negb_true_iff.
  - by intros ->%negb_true_iff.
  - by intros ->%negb_true_iff.
Qed.

(** The loop of [load_states] over rows with distinct keys: it writes
    nothing, and leaves under the key of each row the record of the row. *)
Lemma load_rows_lookup rows (states : states_map) s states' s' :
  default_factory states = state_factory other ->
  NoDup (map (fun state => (telegram_id state, description state)) rows) ->
  load_rows other rows states s = (Ok states', s') ->
  s' = s /\
  default_factory states' = state_factory other /\
  (forall key,
     key ∉ map (fun state => (telegram_id state, description state)) rows ->
     states_lookup states' key = states_lookup states key) /\
  (forall state, state ∈ rows ->
     exists record,
       json_decode (info state)
         ≫= __state_dict other (description state) (telegram_id state)
       = Ok record /\
       states_lookup states' (telegram_id state, description state)
       = Some record).
Proof.
  revert states. induction rows as [| state rows IH]; intros states Hf Hnd.
  - intros [= <- <-]. split_and!; try done. by intros state ?%elem_of_nil.
  - cbn [load_rows]. rewrite st_bind_eq. unfold lift.
    destruct (json_decode (info state)
                ≫= __state_dict other (description state) (telegram_id state))
      as [record | e] eqn:Erec; [| done].
    rewrite st_bind_eq.
    destruct (states_setitem_lookup states (description state)
                (telegram_id state) record s Hf)
      as (states1 & -> & Hf1 & Hhit & Hmiss).
    cbn [map] in Hnd. apply NoDup_cons in Hnd as [Hhead Hnd].
    intros Hrows. destruct (IH states1 Hf1 Hnd Hrows) as (-> & Hf' & Hout & Hin).
    split_and!; try done.
    + intros key Hkey. cbn [map] in Hkey. apply not_elem_of_cons in Hkey as [Hk1 Hk2].
      rewrite (Hout key Hk2). by apply Hmiss.
    + intros state0 [-> | Hin0]%elem_of_cons; [| by apply Hin].
      exists record. split; [done |]. by rewrite (Hout _ Hhead).
Qed.

(** What [load_states] returns holds, under the key of every row, the
    record of the row; the load writes nothing. *)
Lemma load_states_lookup s states s0 chat_id state_id text :
  load_states other s = (Ok states, s0) ->
  s !! (chat_id, state_id) = Some text ->
  s0 = s /\
  exists record,
    json_decode text ≫= __state_dict other state_id chat_id = Ok record /\
    states_lookup states (chat_id, state_id) = Some record.
Proof.
  unfold load_states, db_session. rewrite st_bind_eq, State_select_rows.
  destruct (load_rows other _ _ s) as [[states0 | e] s1] eqn:E; [| done].
  intros [= <- <-] Hs.
  apply load_rows_lookup in E as (-> & _ & _ & Hin);
    [| done | apply select_keys_NoDup].
  split; [done |].
  by destruct (Hin _ (select_row_elem s chat_id state_id text Hs))
    as (record & Hrec & Hl); exists record.
Qed.

(** The same for a row that decodes to a mapping. *)
Lemma load_states_lookup_mapping s states s0 chat_id state_id text d :
  load_states other s = (Ok states, s0) ->
  s !! (chat_id, state_id) = Some text ->
  json_decode text = Ok (PDict d) ->
  s0 = s /\
  states_lookup states (chat_id, state_id)
  = Some (record_for state_id chat_id d).
Proof.
  intros Hload Hs Hd.
  destruct (load_states_lookup _ _ _ _ _ _ Hload Hs) as (-> & record & Hrec & Hl).
  rewrite (state_dict_mapping _ _ _ _ Hd) in Hrec. injection Hrec as <-.
  by split.
Qed.

(** X11: what [load_states] returns for the rows.  When it succeeds, the
    table is as before, and for every row that decodes to a mapping,
    reading the map at the key of the row returns, whatever the table is by
    then and without any read of it, the record built by [__state_dict]
    from that mapping: the mapping itself, with an empty scratch field added
    if it had none, dumping through [set_state] for that key.  The read
    leaves the map as it is. *)
Theorem load_states_holds_rows s states s0 chat_id state_id text d :
  load_states other s = (Ok states, s0) ->
  s !! (chat_id, state_id) = Some text ->
  json_decode text = Ok (PDict d) ->
  s0 = s /\
  forall s',
    states_getitem states state_id chat_id s'
    = (Ok (record_for state_id chat_id d, states), s').
Proof.
  intros Hload Hs Hd.
  destruct (load_states_lookup_mapping _ _ _ _ _ _ _ Hload Hs Hd) as (-> & Hl).
  split; [done |]. intros s'. by apply states_getitem_hit.
Qed.

(** The loop of [load_states] stops at the first row of which no record
    comes. *)
Lemma load_rows_fails rows (states : states_map) s state :
  default_factory states = state_factory other ->
  state ∈ rows ->
  is_ok (json_decode (info state)
           ≫= __state_dict other (description state) (telegram_id state))
  = false ->
  exists e, load_rows other rows states s = (Raise e, s).
Proof.
  revert states. induction rows as [| state0 rows IH]; intros states Hf Hin Hbad.
  - by apply elem_of_nil in Hin.
  - cbn [load_rows]. rewrite st_bind_eq. unfold lift.
    destruct (json_decode (info state0)
                ≫= __state_dict other (description state0) (telegram_id state0))
      as [record | e] eqn:Erec; [| by exists e].
    rewrite st_bind_eq.
    destruct (states_setitem_lookup states (description state0)
                (telegram_id state0) record s Hf)
      as (states1 & -> & Hf1 & _ & _).
    apply elem_of_cons in Hin as [-> | Hin]; [by rewrite Erec in Hbad |].
    by apply IH.
Qed.

(** X12: one bad row is enough for [load_states] to fail.  If the text of
    some row does not decode (as after a naive timestamp was stored), or
    decodes to a value on which [__state_dict] raises by itself ([None], a
    number, a timestamp, or a list or a string without ['__memory__']),
    then [load_states] raises and returns no map at all; the table is as
    before. *)
Theorem load_states_fails_on_bad_row s chat_id state_id text :
  s !! (chat_id, state_id) = Some text ->
  (forall v, json_decode text = Ok v -> no_record v = true) ->
  exists e, load_states other s = (Raise e, s).
Proof.
  intros Hs Hbad. unfold load_states, db_session.
  rewrite st_bind_eq, State_select_rows.
  destruct (load_rows_fails _ (mk_MissingDict ∅ (state_factory other)) s
              (mk_State chat_id state_id text) eq_refl
              (select_row_elem s chat_id state_id text Hs)) as (e & ->);
    [| by exists e].
  cbn [info description telegram_id].
  destruct (json_decode text) as [v |]; [| done].
  cbn [mbind result_bind]. by rewrite state_dict_no_record by auto.
Qed.

(** X13: the scratch field is never loaded back.  In a table built by
    [set_state], whatever the scratch fields of the records written were,
    the record that a successful [load_states] holds for a row has an empty
    mapping for scratch field. *)
Theorem scratch_not_reloaded s states s0 chat_id state_id text :
  written_by_set_state s ->
  load_states other s = (Ok states, s0) ->
  s !! (chat_id, state_id) = Some text ->
  exists record,
    (forall s', states_getitem states state_id chat_id s'
                = (Ok (record, states), s')) /\
    dict_get (sd_data record) "__memory__" = Some (PDict []).
Proof.
  intros Hw Hload Hs.
  destruct (written_rows_objects _ _ _ Hw Hs) as (ms & ->).
  apply written_scratch_free in Hw.
  destruct (load_states_lookup _ _ _ _ _ _ Hload Hs) as (_ & record & Hrec & Hl).
  exists record. split; [intros s'; by apply states_getitem_hit |].
  rewrite json_decode_eq in Hrec.
  destruct (Decoder_decode (JObj ms)) as [v |] eqn:Hd; [| done].
  cbn [mbind result_bind] in Hrec.
  destruct (decode_obj_kind _ _ Hd) as [[d ->] | [t ->]]; [| done].
  injection Hrec as <-.
  pose proof (Hw _ _ Hs) as Hfree.
  apply decode_dict_Ok in Hd as (ms' & _ & [= <-] & _ & _ & Hk).
  cbn [has_member] in Hfree.
  assert (Hd : dict_contains d "__memory__" = false).
  { apply dict_contains_false. rewrite Hk. by apply dict_contains_false. }
  cbn [sd_data]. rewrite Hd, dict_get_set.
  by rewrite String.eqb_refl.
Qed.

End loaded_map.

Lemma load_states_holds_rows_witness :
  exists states,
    load_states refuse_other flow_table = (Ok states, flow_table) /\
    flow_table !! (42, "flow") = Some (JObj [("step", JNum 1)]) /\
    json_decode (JObj [("step", JNum 1)]) = Ok (PDict [("step", PInt 1)]) /\
    flow_table = flow_table /\
    forall s',
      states_getitem states "flow" 42 s'
      = (Ok (record_for "flow" 42 [("step", PInt 1)], states), s').
Proof.
  eexists. split; [reflexivity |]. split; [reflexivity |].
  split; [reflexivity |].
  eapply (load_states_holds_rows refuse_other flow_table _ flow_table 42 "flow"
            (JObj [("step", JNum 1)]) [("step", PInt 1)]); reflexivity.
Defined.

Lemma load_states_fails_on_bad_row_witness :
  (<[(7, "quiz") := JArr [JNum 1]]> flow_table : store) !! (7, "quiz")
  = Some (JArr [JNum 1]) /\
  (forall v, json_decode (JArr [JNum 1]) = Ok v -> no_record v = true) /\
  exists e,
    load_states refuse_other (<[(7, "quiz") := JArr [JNum 1]]> flow_table)
    = (Raise e, <[(7, "quiz") := JArr [JNum 1]]> flow_table).
Proof.
  assert (Hbad : forall v, json_decode (JArr [JNum 1]) = Ok v ->
                           no_record v = true).
  { by intros v [= <-]. }
  split; [reflexivity |]. split; [exact Hbad |].
  apply (load_states_fails_on_bad_row refuse_other
           (<[(7, "quiz") := JArr [JNum 1]]> flow_table) 7 "quiz"
           (JArr [JNum 1])); [reflexivity | exact Hbad].
Defined.

Lemma scratch_not_reloaded_witness :
  exists states,
    written_by_set_state (set_state "flow" 42 scratch_record ∅).2 /\
    load_states refuse_other (set_state "flow" 42 scratch_record ∅).2
    = (Ok states, (set_state "flow" 42 scratch_record ∅).2) /\
    (set_state "flow" 42 scratch_record ∅).2 !! (42, "flow")
    = Some (JObj [("step", JNum 1)]) /\
    exists record,
      (forall s', states_getitem states "flow" 42 s'
                  = (Ok (record, states), s')) /\
      dict_get (sd_data record) "__memory__" = Some (PDict []).
Proof.
  assert (Hw : written_by_set_state (set_state "flow" 42 scratch_record ∅).2).
  { apply written_set; [apply written_empty |].
    by apply (bool_decide_unpack _). }
  eexists. split; [exact Hw |]. split; [reflexivity |]. split; [reflexivity |].
  eapply (scratch_not_reloaded refuse_other
            (set_state "flow" 42 scratch_record ∅).2 _
            (set_state "flow" 42 scratch_record ∅).2 42 "flow"
            (JObj [("step", JNum 1)]));
    [exact Hw | reflexivity | reflexivity].
Defined.

(** ** Write-through of a loaded record *)

Lemma dict_pop_set_same {V} (d : list (string * V)) k v :
  k ∉ dict_keys d -> dict_pop (dict_set d k v) k = d.
Proof.
  induction d as [| [k0 v0] d IH]; cbn.
  - intros _. by rewrite String.eqb_refl.
  - rewrite not_elem_of_cons. intros [Hne Hnin].
    destruct (String.eqb_spec k k0) as [-> | _]; [done |].
    cbn. destruct (String.eqb_spec k k0) as [-> | _]; [done |].
    by rewrite IH.
Qed.



Section write_through.

Variable other : pyval -> (pydict -> db unit) -> result StateDict.


End write_through.

(** ** [update_states] *)

(** What every call of [set_state] in the loops maintains, the loops
    maintain, whether they return or raise. *)
Lemma update_chats_invariant (I : store -> Prop) state_id data :
  (forall chat_id r s,
     (chat_id, r) ∈ data -> I s -> I (set_state state_id chat_id r s).2) ->
  forall s, I s -> I (update_chats state_id data s).2.
Proof.
  induction data as [| [chat_id r] data IH]; intros Hstep s Hs; [done |].
  cbn [update_chats]. rewrite st_bind_eq.
  assert (H1 : I (set_state state_id chat_id r s).2).
  { apply Hstep; [apply elem_of_cons; by left | done]. }
  destruct (set_state state_id chat_id r s) as [[[] | e] s1]; [| done].
  apply IH; [| done]. intros chat_id' r' s' Hin.
  apply Hstep, elem_of_cons. by right.
Qed.

Lemma update_entries_invariant (I : store -> Prop) states :
  (forall state_id data chat_id r s,
     (state_id, data) ∈ states -> (chat_id, r) ∈ data ->
     I s -> I (set_state state_id chat_id r s).2) ->
  forall s, I s -> I (update_entries states s).2.
Proof.
  induction states as [| [state_id data] states IH]; intros Hstep s Hs; [done |].
  cbn [update_entries]. rewrite st_bind_eq.
  assert (H1 : I (update_chats state_id data s).2).
  { apply update_chats_invariant; [| done]. intros chat_id r s' Hin.
    apply (Hstep state_id data); [apply elem_of_cons; by left | done]. }
  destruct (update_chats state_id data s) as [[[] | e] s1]; [| done].
  apply IH; [| done]. intros state_id' data' chat_id r s' Hin.
  apply Hstep, elem_of_cons. by right.
Qed.

Lemma update_states_invariant (I : store -> Prop) states :
  (forall state_id data chat_id r s,
     (state_id, data) ∈ states -> (chat_id, r) ∈ data ->
     I s -> I (set_state state_id chat_id r s).2) ->
  forall s, I s -> I (update_states states s).2.
Proof.
  intros Hstep s Hs. unfold update_states, db_session.
  pose proof (update_entries_invariant I states Hstep s Hs) as H1.
  by destruct (update_entries states s) as [[[] | e] s1].
Qed.

(** The loops return when every call of [set_state] returns on the tables
    that satisfy an invariant of the calls. *)
Lemma update_chats_returns (I : store -> Prop) state_id data :
  (forall chat_id r s,
     (chat_id, r) ∈ data -> I s ->
     is_ok (set_state state_id chat_id r s).1 = true /\
     I (set_state state_id chat_id r s).2) ->
  forall s, I s ->
    is_ok (update_chats state_id data s).1 = true /\
    I (update_chats state_id data s).2.
Proof.
  induction data as [| [chat_id r] data IH]; intros Hstep s Hs; [done |].
  cbn [update_chats]. rewrite st_bind_eq.
  destruct (Hstep chat_id r s) as [H1 H2]; [apply elem_of_cons; by left | done |].
  destruct (set_state state_id chat_id r s) as [[[] | e] s1]; [| done].
  apply IH; [| done]. intros chat_id' r' s' Hin.
  apply Hstep, elem_of_cons. by right.
Qed.

Lemma update_entries_returns (I : store -> Prop) states :
  (forall state_id data chat_id r s,
     (state_id, data) ∈ states -> (chat_id, r) ∈ data -> I s ->
     is_ok (set_state state_id chat_id r s).1 = true /\
     I (set_state state_id chat_id r s).2) ->
  forall s, I s ->
    is_ok (update_entries states s).1 = true /\
    I (update_entries states s).2.
Proof.
  induction states as [| [state_id data] states IH]; intros Hstep s Hs; [done |].
  cbn [update_entries]. rewrite st_bind_eq.
  destruct (update_chats_returns I state_id data) with (s := s) as [H1 H2];
    [| done |].
  { intros chat_id r s' Hin.
    apply (Hstep state_id data); [apply elem_of_cons; by left | done]. }
  destruct (update_chats state_id data s) as [[[] | e] s1]; [| done].
  apply IH; [| done]. intros state_id' data' chat_id r s' Hin.
  apply Hstep, elem_of_cons. by right.
Qed.

Lemma update_states_eq states s :
  update_states states s
  = match update_entries states s with
    | (Ok a, s') => (Ok a, s')
    | (Raise e, _) => (Raise e, s)
    end.
Proof. reflexivity. Qed.

(** One call of [set_state], row by row. *)
Lemma set_state_frame s state_id chat_id r key :
  key <> (chat_id, state_id) ->
  (set_state state_id chat_id r s).2 !! key = s !! key.
Proof.
  intros Hkey. rewrite set_state_row.
  destruct (new_text (s !! (chat_id, state_id)) r); [| done].
  by apply lookup_insert_ne.
Qed.

Lemma set_state_keeps s state_id chat_id r key :
  is_Some (s !! key) -> is_Some ((set_state state_id chat_id r s).2 !! key).
Proof.
  intros Hkey. rewrite set_state_row.
  destruct (new_text (s !! (chat_id, state_id)) r); [| done].
  cbn [snd]. rewrite lookup_insert. by case_decide.
Qed.

Lemma update_chats_frame state_id data s key :
  key ∉ map (fun chat : Z * pydict => (chat.1, state_id)) data ->
  (update_chats state_id data s).2 !! key = s !! key.
Proof.
  intros Hkey.
  apply (update_chats_invariant (fun s' => s' !! key = s !! key));
    [| done].
  intros chat_id r s' Hin <-. apply set_state_frame. intros ->.
  apply Hkey, list_elem_of_fmap. by exists (chat_id, r).
Qed.

Lemma snapshot_keys_elem states key :
  key ∈ snapshot_keys states <->
  exists state_id data r,
    (state_id, data) ∈ states /\ (key.1, r) ∈ data /\ key.2 = state_id.
Proof.
  unfold snapshot_keys. rewrite list_elem_of_In, in_flat_map. split.
  - intros ([state_id data] & Hin & Hkey).
    apply list_elem_of_In, list_elem_of_fmap in Hkey as ([chat_id r] & -> & Hc).
    exists state_id, data, r. by rewrite list_elem_of_In.
  - intros (state_id & data & r & Hin & Hc & Hk). exists (state_id, data).
    split; [by apply list_elem_of_In |].
    apply list_elem_of_In, list_elem_of_fmap. exists (key.1, r).
    split; [| done]. destruct key. cbn in *. by subst.
Qed.

Lemma update_entries_frame states s key :
  key ∉ snapshot_keys states ->
  (update_entries states s).2 !! key = s !! key.
Proof.
  intros Hkey.
  apply (update_entries_invariant (fun s' => s' !! key = s !! key));
    [| done].
  intros state_id data chat_id r s' Hin Hc <-. apply set_state_frame.
  intros ->. apply Hkey, snapshot_keys_elem. by exists state_id, data, r.
Qed.

(** When the loops return, every key of the snapshot has a row. *)
Lemma update_chats_rows state_id data s s' :
  update_chats state_id data s = (Ok tt, s') ->
  forall chat_id r, (chat_id, r) ∈ data -> is_Some (s' !! (chat_id, state_id)).
Proof.
  revert s. induction data as [| [chat_id0 r0] data IH]; intros s Hrun chat_id r.
  - by rewrite elem_of_nil.
  - cbn [update_chats] in Hrun. rewrite st_bind_eq in Hrun.
    assert (Hrow : is_ok (set_state state_id chat_id0 r0 s).1 = true ->
                   is_Some ((set_state state_id chat_id0 r0 s).2
                              !! (chat_id0, state_id))).
    { rewrite set_state_row.
      destruct (new_text (s !! (chat_id0, state_id)) r0); [| done].
      intros _. cbn [snd]. by rewrite lookup_insert_eq. }
    destruct (set_state state_id chat_id0 r0 s) as [[[] | e] s1]; [| done].
    rewrite elem_of_cons. intros [[= -> ->] | Hin]; [| by eapply IH].
    specialize (Hrow eq_refl). cbn [snd] in Hrow.
    assert (Hinv : is_Some ((update_chats state_id data s1).2
                              !! (chat_id0, state_id))).
    { apply (update_chats_invariant
               (fun s => is_Some (s !! (chat_id0, state_id)))); [| done].
      intros c r' s2 _ Hs2. by apply set_state_keeps. }
    by rewrite Hrun in Hinv.
Qed.

Lemma update_entries_rows states s s' :
  update_entries states s = (Ok tt, s') ->
  forall key, key ∈ snapshot_keys states -> is_Some (s' !! key).
Proof.
  revert s.
  induction states as [| [state_id data] states IH]; intros s Hrun key.
  - by rewrite elem_of_nil.
  - cbn [update_entries] in Hrun. rewrite st_bind_eq in Hrun.
    destruct (update_chats state_id data s) as [[[] | e] s1] eqn:Hchats;
      [| done].
    unfold snapshot_keys. cbn [flat_map]. rewrite elem_of_app.
    intros [Hin | Hin]; [| by eapply IH].
    apply list_elem_of_fmap in Hin as ([chat_id r] & -> & Hin). cbn [fst snd].
    pose proof (update_chats_rows _ _ _ _ Hchats _ _ Hin) as Hrow.
    assert (Hinv : is_Some ((update_entries states s1).2
                              !! (chat_id, state_id))).
    { apply (update_entries_invariant
               (fun s => is_Some (s !! (chat_id, state_id)))); [| done].
      intros sid d c r' s2 _ _ Hs2. by apply set_state_keeps. }
    by rewrite Hrun in Hinv.
Qed.

(** X15: what [update_states] leaves alone.  Whatever the snapshot, the
    rows whose key the snapshot does not name are as before, and no row is
    ever removed.  When [update_states] returns, every key that the snapshot
    names has a row.  When it raises, the table is the one it found: what
    the calls of [set_state] before the failing one wrote is rolled back
    with the session. *)
Theorem update_states_frame states s :
  (forall key, key ∉ snapshot_keys states ->
     (update_states states s).2 !! key = s !! key) /\
  (forall key, is_Some (s !! key) ->
     is_Some ((update_states states s).2 !! key)) /\
  (is_ok (update_states states s).1 = true ->
   forall key, key ∈ snapshot_keys states ->
     is_Some ((update_states states s).2 !! key)) /\
  (is_ok (update_states states s).1 = false ->
   (update_states states s).2 = s).
Proof.
  split_and!.
  - intros key Hkey. rewrite update_states_eq.
    pose proof (update_entries_frame states s key Hkey) as H1.
    by destruct (update_entries states s) as [[[] | e] s1].
  - intros key Hkey.
    apply (update_states_invariant (fun s => is_Some (s !! key))); [| done].
    intros sid d c r' s2 _ _ Hs2. by apply set_state_keeps.
  - rewrite update_states_eq.
    destruct (update_entries states s) as [[[] | e] s1] eqn:Hrun; [| done].
    intros _ key Hkey. by apply (update_entries_rows _ _ _ Hrun).
  - rewrite update_states_eq.
    by destruct (update_entries states s) as [[[] | e] s1].
Qed.

(** X16: [update_states] never persists a scratch field.  When the records
    of the snapshot are dicts (their keys are distinct) and no row of the
    table has a scratch member, no row has one afterwards, whatever the
    records hold in their scratch fields and whether the call returns or
    raises. *)
Theorem update_states_scratch_free states s :
  (forall state_id data chat_id r,
     (state_id, data) ∈ states -> (chat_id, r) ∈ data ->
     NoDup (dict_keys r)) ->
  scratch_free s ->
  scratch_free (update_states states s).2.
Proof.
  intros Hnd. apply update_states_invariant.
  intros state_id data chat_id r s' Hin Hc.
  apply set_state_scratch_free. by eapply Hnd.
Qed.

Lemma update_states_scratch_free_witness :
  scratch_free flow_table /\
  scratch_free
    (update_states
       [("flow", [(42, scratch_record); (7, scratch_record')]);
        ("quiz", [(42, scratch_record')])]
       flow_table).2 /\
  (update_states
     [("flow", [(42, scratch_record); (7, scratch_record')]);
      ("quiz", [(42, scratch_record')])]
     flow_table).2 !! (7, "flow") = Some (JObj [("step", JNum 1)]).
Proof.
  assert (Hfree : scratch_free flow_table).
  { intros key text Hrow. unfold flow_table in Hrow.
    apply lookup_singleton_Some in Hrow as [_ <-]. reflexivity. }
  split; [exact Hfree |]. split; [| reflexivity].
  apply (update_states_scratch_free
           [("flow", [(42, scratch_record); (7, scratch_record')]);
            ("quiz", [(42, scratch_record')])]
           flow_table); [| exact Hfree].
  intros state_id data chat_id r Hin Hc.
  assert (Hr : r = scratch_record \/ r = scratch_record').
  { rewrite !elem_of_cons, elem_of_nil in Hin.
    destruct Hin as [[= -> ->] | [[= -> ->] | []]];
      rewrite !elem_of_cons, elem_of_nil in Hc.
    - destruct Hc as [[= _ ->] | [[= _ ->] | []]]; auto.
    - destruct Hc as [[= _ ->] | []]; auto. }
  destruct Hr as [-> | ->]; by apply (bool_decide_unpack _).
Defined.

Lemma update_chats_independent state_id data s :
  NoDup (map (fun chat : Z * pydict => (chat.1, state_id)) data) ->
  match update_chats state_id data s with
  | (Ok _, s') =>
      forall chat_id r, (chat_id, r) ∈ data ->
        exists text,
          new_text (s !! (chat_id, state_id)) r = Ok text /\
          s' !! (chat_id, state_id) = Some text
  | (Raise e, _) =>
      exists chat_id r,
        (chat_id, r) ∈ data /\
        new_text (s !! (chat_id, state_id)) r = Raise e
  end.
Proof.
  revert s. induction data as [| [c0 r0] data IH]; intros s Hnd.
  - cbn. intros chat_id r Hin. by apply elem_of_nil in Hin.
  - cbn [map fst] in Hnd. apply NoDup_cons in Hnd as [Hnin Hnd].
    assert (Hother : forall chat_id r,
               (chat_id, r) ∈ data -> (chat_id, state_id) <> (c0, state_id)).
    { intros chat_id r Hin [= ->]. apply Hnin, list_elem_of_fmap.
      by exists (c0, r). }
    cbn [update_chats]. rewrite st_bind_eq, set_state_row.
    destruct (new_text (s !! (c0, state_id)) r0) as [t0 | e] eqn:E0.
    + specialize (IH (<[(c0, state_id) := t0]> s) Hnd).
      pose proof (update_chats_frame state_id data
                    (<[(c0, state_id) := t0]> s) (c0, state_id) Hnin) as Hfr.
      destruct (update_chats state_id data (<[(c0, state_id) := t0]> s))
        as [[[] | e] s'].
      * intros chat_id r. rewrite elem_of_cons. intros [[= -> ->] | Hin].
        -- exists t0. split; [done |]. cbn [snd] in Hfr.
           by rewrite Hfr, lookup_insert_eq.
        -- destruct (IH _ _ Hin) as (text & Hn & Hrow). exists text.
           split; [| done].
           by rewrite lookup_insert_ne in Hn by (symmetry; by eapply Hother).
      * destruct IH as (chat_id & r & Hin & Hn). exists chat_id, r.
        split; [apply elem_of_cons; by right |].
        by rewrite lookup_insert_ne in Hn by (symmetry; by eapply Hother).
    + exists c0, r0. split; [apply elem_of_cons; by left | done].
Qed.

Lemma update_entries_independent states s :
  NoDup (snapshot_keys states) ->
  match update_entries states s with
  | (Ok _, s') =>
      forall state_id data chat_id r,
        (state_id, data) ∈ states -> (chat_id, r) ∈ data ->
        exists text,
          new_text (s !! (chat_id, state_id)) r = Ok text /\
          s' !! (chat_id, state_id) = Some text
  | (Raise e, _) =>
      exists state_id data chat_id r,
        (state_id, data) ∈ states /\ (chat_id, r) ∈ data /\
        new_text (s !! (chat_id, state_id)) r = Raise e
  end.
Proof.
  revert s. induction states as [| [sid0 data0] states IH]; intros s Hnd.
  - cbn. intros state_id data chat_id r Hin. by apply elem_of_nil in Hin.
  - unfold snapshot_keys in Hnd. cbn [flat_map fst snd] in Hnd.
    fold (snapshot_keys states) in Hnd.
    apply NoDup_app in Hnd as (Hnd0 & Hdisj & Hnd).
    assert (Hhead : forall chat_id r,
               (chat_id, r) ∈ data0 ->
               (chat_id, sid0) ∉ snapshot_keys states).
    { intros chat_id r Hin. apply Hdisj, list_elem_of_fmap.
      by exists (chat_id, r). }
    assert (Htail : forall state_id data chat_id r,
               (state_id, data) ∈ states -> (chat_id, r) ∈ data ->
               (chat_id, state_id)
                 ∉ map (fun chat : Z * pydict => (chat.1, sid0)) data0).
    { intros state_id data chat_id r Hin Hc Hk. apply (Hdisj _ Hk).
      apply snapshot_keys_elem. by exists state_id, data, r. }
    cbn [update_entries]. rewrite st_bind_eq.
    pose proof (update_chats_independent sid0 data0 s Hnd0) as H0.
    pose proof (fun key => update_chats_frame sid0 data0 s key) as Hfr0.
    destruct (update_chats sid0 data0 s) as [[[] | e] s1].
    + cbn [snd] in Hfr0. specialize (IH s1 Hnd).
      pose proof (fun key => update_entries_frame states s1 key) as Hfr.
      destruct (update_entries states s1) as [[[] | e] s'].
      * cbn [snd] in Hfr. intros state_id data chat_id r.
        rewrite elem_of_cons. intros [[= -> ->] | Hin] Hc.
        -- destruct (H0 _ _ Hc) as (text & Hn & Hrow). exists text.
           split; [done |]. rewrite Hfr; [done |]. by eapply Hhead.
        -- destruct (IH _ _ _ _ Hin Hc) as (text & Hn & Hrow). exists text.
           split; [| done]. rewrite Hfr0 in Hn; [done |]. by eapply Htail.
      * destruct IH as (state_id & data & chat_id & r & Hin & Hc & Hn).
        exists state_id, data, chat_id, r.
        split; [apply elem_of_cons; by right |]. split; [done |].
        rewrite Hfr0 in Hn; [done |]. by eapply Htail.
    + destruct H0 as (chat_id & r & Hc & Hn). exists sid0, data0, chat_id, r.
      split; [apply elem_of_cons; by left | done].
Qed.

(** X17: the records of one snapshot do not interfere.  The snapshot is a
    dict of dicts, so it names no key twice.  Then [update_states] returns
    exactly when [set_state] alone, on the table as it was found, returns
    for every record; when it returns, the row under each key of the
    snapshot is the row that [set_state] alone would have written; and when
    it raises, it raises what [set_state] alone raises for one of the
    records. *)
Theorem update_states_independent states s :
  NoDup (snapshot_keys states) ->
  (is_ok (update_states states s).1 = true <->
   forall state_id data chat_id r,
     (state_id, data) ∈ states -> (chat_id, r) ∈ data ->
     is_ok (set_state state_id chat_id r s).1 = true) /\
  (is_ok (update_states states s).1 = true ->
   forall state_id data chat_id r,
     (state_id, data) ∈ states -> (chat_id, r) ∈ data ->
     (update_states states s).2 !! (chat_id, state_id)
     = (set_state state_id chat_id r s).2 !! (chat_id, state_id)) /\
  (forall e, (update_states states s).1 = Raise e ->
     exists state_id data chat_id r,
       (state_id, data) ∈ states /\ (chat_id, r) ∈ data /\
       (set_state state_id chat_id r s).1 = Raise e).
Proof.
  intros Hnd. pose proof (update_entries_independent states s Hnd) as H.
  rewrite update_states_eq.
  destruct (update_entries states s) as [[[] | e] s']; cbn [fst snd is_ok].
  - split_and!.
    + split; [| done]. intros _ state_id data chat_id r Hin Hc.
      destruct (H _ _ _ _ Hin Hc) as (text & Hn & _).
      by rewrite set_state_row, Hn.
    + intros _ state_id data chat_id r Hin Hc.
      destruct (H _ _ _ _ Hin Hc) as (text & Hn & Hrow).
      rewrite set_state_row, Hn. cbn [snd]. by rewrite lookup_insert_eq.
    + done.
  - destruct H as (state_id & data & chat_id & r & Hin & Hc & Hn).
    split_and!.
    + split; [done |]. intros Hall. specialize (Hall _ _ _ _ Hin Hc).
      by rewrite set_state_row, Hn in Hall.
    + done.
    + intros e' [= <-]. exists state_id, data, chat_id, r.
      split_and!; [done | done |]. by rewrite set_state_row, Hn.
Qed.

Lemma update_states_independent_witness :
  NoDup (snapshot_keys
           [("flow", [(42, scratch_record); (7, [("at", PDatetime sample_time)])]);
            ("quiz", [(42, [("bad", PObject 3)])])]) /\
  (update_states
     [("flow", [(42, scratch_record); (7, [("at", PDatetime sample_time)])]);
      ("quiz", [(42, [("bad", PObject 3)])])]
     flow_table).1 = Raise TypeError /\
  exists state_id data chat_id r,
    (state_id, data)
      ∈ [("flow", [(42, scratch_record); (7, [("at", PDatetime sample_time)])]);
         ("quiz", [(42, [("bad", PObject 3)])])] /\
    (chat_id, r) ∈ data /\
    (set_state state_id chat_id r flow_table).1 = Raise TypeError.
Proof.
  assert (Hnd : NoDup (snapshot_keys
           [("flow", [(42, scratch_record); (7, [("at", PDatetime sample_time)])]);
            ("quiz", [(42, [("bad", PObject 3)])])])).
  { by apply (bool_decide_unpack _). }
  split; [exact Hnd |]. split; [reflexivity |].
  apply (update_states_independent
           [("flow", [(42, scratch_record); (7, [("at", PDatetime sample_time)])]);
            ("quiz", [(42, [("bad", PObject 3)])])]
           flow_table Hnd).
  reflexivity.
Defined.

(** ** Writing back what was loaded *)

Lemma dict_pop_elem {V} (d : list (string * V)) k kv :
  kv ∈ dict_pop d k -> kv ∈ d.
Proof.
  induction d as [| [k0 v0] d IH]; cbn; [done |].
  destruct (String.eqb k k0).
  - intros Hin. apply elem_of_cons. by right.
  - rewrite !elem_of_cons. intros [-> | Hin]; [by left | right; by apply IH].
Qed.

(** Updating a mapping with some of its own fields changes nothing. *)
Lemma dict_update_within_self {V} (d r : list (string * V)) :
  NoDup (dict_keys d) -> NoDup (dict_keys r) ->
  (forall kv, kv ∈ r -> kv ∈ d) ->
  dict_update d r = d.
Proof.
  intros Hd Hr Hsub.
  assert (Hkeys : forall k, k ∈ dict_keys r -> k ∈ dict_keys d).
  { intros k. unfold dict_keys. rewrite !list_elem_of_fmap.
    intros (kv & -> & Hin). exists kv. split; [done | by apply Hsub]. }
  apply dict_ext.
  - by apply dict_keys_update_within.
  - by rewrite dict_keys_update_within.
  - intros k. rewrite dict_get_update by done.
    destruct (dict_get r k) as [v |] eqn:Hk; [| done].
    symmetry. apply dict_get_NoDup; [done |]. by apply Hsub, dict_get_elem.
Qed.

(** The record that [__state_dict] makes from a row, written back as it
    is: the row decodes as before. *)
Lemma set_state_unmodified s state_id chat_id text d :
  s !! (chat_id, state_id) = Some text ->
  json_decode text = Ok (PDict d) ->
  four_digit_years (PDict d) = true ->
  exists text',
    set_state state_id chat_id (sd_data (record_for state_id chat_id d)) s
    = (Ok tt, <[(chat_id, state_id) := text']> s) /\
    json_decode text' = Ok (PDict d).
Proof.
  intros Hs Hd Hy. pose proof Hd as Hd0. rewrite json_decode_eq in Hd0.
  destruct (decode_canonical _ _ Hd0) as [Hwf _].
  apply well_formed_dict in Hwf as [Hnd _].
  destruct (decode_encode_decode _ _ Hd0 Hy) as (text' & He & Hd').
  exists text'. split; [| done].
  rewrite set_state_row, Hs. unfold new_text, merged_text. rewrite Hd.
  cbn [py_update].
  assert (Hsame : dict_update d
                    (dict_pop (sd_data (record_for state_id chat_id d))
                       "__memory__") = d).
  { unfold record_for. cbn [sd_data].
    destruct (dict_contains d "__memory__") eqn:Hm.
    - apply dict_update_within_self; [done | by apply dict_pop_NoDup |].
      intros kv. apply dict_pop_elem.
    - apply dict_contains_false in Hm. rewrite dict_pop_set_same by done.
      by apply dict_update_within_self. }
  by rewrite Hsame, json_encode_eq, He.
Qed.

Section flush.

Variable other : pyval -> (pydict -> db unit) -> result StateDict.

(** X18: writing back what was loaded changes nothing that can be read.
    Let [load_states] return a map, and let a snapshot hold records of that
    map as they were loaded, any of them and in any order, each the record
    of a row that decodes to a mapping with no timestamp of a year before
    1000.  Then [update_states] on the snapshot returns; afterwards
    [get_state] answers for every key what it answered before, and the
    table has a row under exactly the keys that had one. *)
Theorem flush_after_load s states s0 snap :
  load_states other s = (Ok states, s0) ->
  (forall state_id data chat_id r,
     (state_id, data) ∈ snap -> (chat_id, r) ∈ data ->
     exists record text d,
       states_lookup states (chat_id, state_id) = Some record /\
       sd_data record = r /\
       s !! (chat_id, state_id) = Some text /\
       json_decode text = Ok (PDict d) /\
       four_digit_years (PDict d) = true) ->
  exists s',
    update_states snap s = (Ok tt, s') /\
    (forall state_id chat_id,
       (get_state state_id chat_id s').1 = (get_state state_id chat_id s).1) /\
    (forall key, is_Some (s' !! key) <-> is_Some (s !! key)).
Proof.
  intros Hload Hsnap.
  set (I := fun s1 : store =>
              forall key, json_decode <$> s1 !! key = json_decode <$> s !! key).
  assert (Hrun : is_ok (update_entries snap s).1 = true /\
                 I (update_entries snap s).2).
  { apply update_entries_returns; [| done].
    intros state_id data chat_id r s1 Hin Hc Hs1.
    destruct (Hsnap _ _ _ _ Hin Hc) as (record & text & d & Hrec & <- & Hs & Hd & Hy).
    destruct (load_states_lookup_mapping other _ _ _ _ _ _ _ Hload Hs Hd)
      as (_ & Hl).
    rewrite Hl in Hrec. injection Hrec as <-.
    pose proof (Hs1 (chat_id, state_id)) as Hkey. rewrite Hs in Hkey.
    apply fmap_Some in Hkey as (text1 & Hs1' & Hd1). rewrite Hd in Hd1.
    destruct (set_state_unmodified s1 state_id chat_id text1 d Hs1')
      as (text2 & -> & Hd2); [done | done |].
    split; [done |]. cbn [snd]. intros key. rewrite lookup_insert.
    case_decide as Hk; [| apply Hs1]. subst key. rewrite Hs.
    change (Some (json_decode text2) = Some (json_decode text)).
    by rewrite Hd2, Hd. }
  rewrite update_states_eq.
  destruct (update_entries snap s) as [[[] | e] s'];
    cbn [fst snd is_ok] in Hrun; destruct Hrun as [Hok HI]; [| done].
  exists s'. split; [done |]. split.
  - intros state_id chat_id. rewrite !get_state_row. cbn [fst].
    specialize (HI (chat_id, state_id)).
    destruct (s' !! (chat_id, state_id)) as [text1 |],
             (s !! (chat_id, state_id)) as [text2 |];
      [| discriminate HI | discriminate HI | done].
    change (Some (json_decode text1) = Some (json_decode text2)) in HI.
    by injection HI.
  - intros key. specialize (HI key). rewrite <- !fmap_is_Some with (f := json_decode).
    by rewrite HI.
Qed.

End flush.

Lemma flush_after_load_witness :
  exists states,
    load_states refuse_other loaded_table = (Ok states, loaded_table) /\
    exists s',
      update_states
        [("quiz", [(7, [("at", PDatetime sample_time);
                        ("__memory__", PDict [])])]);
         ("flow", [(42, [("step", PInt 2); ("__memory__", PDict [])])])]
        loaded_table
      = (Ok tt, s') /\
      (forall state_id chat_id,
         (get_state state_id chat_id s').1
         = (get_state state_id chat_id loaded_table).1) /\
      (forall key, is_Some (s' !! key) <-> is_Some (loaded_table !! key)).
Proof.
  eexists. split; [reflexivity |].
  eapply (flush_after_load refuse_other loaded_table _ _
            [("quiz", [(7, [("at", PDatetime sample_time);
                            ("__memory__", PDict [])])]);
             ("flow", [(42, [("step", PInt 2); ("__memory__", PDict [])])])]);
    [reflexivity |].
  intros state_id data chat_id r Hin Hc.
  rewrite !elem_of_cons, elem_of_nil in Hin.
  destruct Hin as [[= -> ->] | [[= -> ->] | []]];
    rewrite !elem_of_cons, elem_of_nil in Hc;
    destruct Hc as [[= -> ->] | []]; eexists _, _, _;
    (split; [reflexivity |]); (split; [reflexivity |]);
    (split; [reflexivity |]); split; reflexivity.
Defined.
(** ** Deleting a field of a loaded record *)

(** Whatever is left of the record of a row after fields were popped, the
    scratch field among them, is part of the mapping of the row. *)
Lemma record_fields_within state_id chat_id d k kv :
  NoDup (dict_keys d) ->
  kv ∈ dict_pop (dict_pop (sd_data (record_for state_id chat_id d)) k)
         "__memory__" ->
  kv.1 <> "__memory__" /\ kv ∈ d.
Proof.
  intros Hnd Hin. unfold record_for in Hin. cbn [sd_data] in Hin.
  set (data := if dict_contains d "__memory__" then d
               else dict_set d "__memory__" (PDict [])) in *.
  assert (Hdata : NoDup (dict_keys data)).
  { unfold data. destruct (dict_contains d "__memory__"); [done |].
    by apply dict_set_NoDup. }
  destruct (dict_pop_NoDup data k Hdata) as [Hnd1 _].
  destruct (dict_pop_NoDup _ "__memory__" Hnd1) as [_ Hmem].
  assert (Hne : kv.1 <> "__memory__").
  { intros Heq. apply Hmem. unfold dict_keys.
    apply list_elem_of_fmap. by exists kv. }
  split; [done |].
  apply dict_pop_elem, dict_pop_elem in Hin. unfold data in Hin.
  destruct (dict_contains d "__memory__") eqn:Hm; [done |].
  apply dict_contains_false in Hm. rewrite dict_set_fresh in Hin by done.
  apply elem_of_app in Hin as [Hin | Hin]; [done |].
  apply list_elem_of_singleton in Hin. by subst kv.
Qed.

Section lazy_reads.

Variable other : pyval -> (pydict -> db unit) -> result StateDict.

(** X19: a field deleted from a record stays in the row.  Take a row that
    decodes to a mapping with no timestamp of a year before 1000, the
    record that [load_states] holds for it, and delete one of the fields of
    the mapping from the record.  The dump that follows succeeds and the
    record in memory no longer has the field; but [set_state] only merges
    what it is given into the row, so [get_state] still returns the mapping
    of the row as it was, the deleted field included. *)
Theorem deleted_field_stays s states s0 chat_id state_id text d k :
  load_states other s = (Ok states, s0) ->
  s !! (chat_id, state_id) = Some text ->
  json_decode text = Ok (PDict d) ->
  four_digit_years (PDict d) = true ->
  dict_contains d k = true ->
  exists record record' s',
    states_getitem states state_id chat_id s = (Ok (record, states), s) /\
    StateDict_delitem record k s = (Ok record', s') /\
    dict_contains (sd_data record') k = false /\
    get_state state_id chat_id s' = (Ok (PDict d), s').
Proof.
  intros Hload Hs Hd Hy Hdk.
  destruct (load_states_lookup_mapping other _ _ _ _ _ _ _ Hload Hs Hd)
    as (_ & Hl).
  pose proof Hd as Hd0. rewrite json_decode_eq in Hd0.
  destruct (decode_canonical _ _ Hd0) as [Hwf _].
  apply well_formed_dict in Hwf as [Hnd _].
  destruct (decode_encode_decode _ _ Hd0 Hy) as (text' & He & Hd').
  set (record := record_for state_id chat_id d).
  assert (Hdata : NoDup (dict_keys (sd_data record))).
  { unfold record, record_for. cbn [sd_data].
    destruct (dict_contains d "__memory__"); [done | by apply dict_set_NoDup]. }
  exists record,
    (mk_StateDict (dict_pop (sd_data record) k) (dump_function record)),
    (<[(chat_id, state_id) := text']> s).
  split_and!; [by apply states_getitem_hit | | |].
  - unfold StateDict_delitem, StateDict_dump. rewrite st_bind_eq.
    cbn [sd_data dump_function record record_for].
    rewrite set_state_row, Hs. unfold new_text, merged_text. rewrite Hd.
    cbn [py_update].
    assert (Hsame : dict_update d
                      (dict_pop
                         (dict_pop (dict_pop (sd_data record) k) "__memory__")
                         "__memory__") = d).
    { destruct (dict_pop_NoDup _ k Hdata) as [Hnd1 _].
      destruct (dict_pop_NoDup _ "__memory__" Hnd1) as [Hnd2 Hmem].
      rewrite (dict_pop_absent _ "__memory__" Hmem).
      apply dict_update_within_self; [done | done |].
      intros kv Hin. by apply (record_fields_within state_id chat_id d k kv). }
    unfold record, record_for in Hsame. cbn [sd_data] in Hsame.
    by rewrite Hsame, json_encode_eq, He.
  - cbn [sd_data]. apply dict_contains_false.
    by apply (dict_pop_NoDup _ k Hdata).
  - by rewrite get_state_row, lookup_insert_eq, json_decode_eq, Hd'.
Qed.

(** ** Reading the lazy map where nothing was loaded *)

(** In the map that [load_states] returned, a key that had no row is a
    miss of the inner map, whose factory is [chat_factory]. *)
Lemma loaded_map_miss s states s0 state_id chat_id s' :
  load_states other s = (Ok states, s0) ->
  s !! (chat_id, state_id) = None ->
  exists inner states1,
    MissingDict_getitem states state_id s' = (Ok (inner, states1), s') /\
    md_items states1 !! state_id = Some inner /\
    default_factory inner = chat_factory other state_id /\
    md_items inner !! chat_id = None.
Proof.
  intros [-> [Hf Hin]]%load_states_filled Hs.
  unfold MissingDict_getitem.
  destruct (md_items states !! state_id) as [inner |] eqn:Hi.
  - exists inner, states. destruct (Hin _ _ Hi) as [Hfi Hrec].
    split_and!; try done.
    destruct (md_items inner !! chat_id) as [r |] eqn:Hr; [| done].
    apply Hrec in Hr. rewrite Hs in Hr. by destruct Hr.
  - rewrite Hf. eexists _, _. split; [reflexivity |].
    cbn [md_items default_factory]. by rewrite lookup_insert_eq.
Qed.

Lemma chat_factory_row s state_id chat_id text :
  s !! (chat_id, state_id) = Some text ->
  chat_factory other state_id chat_id s
  = (json_decode text ≫= __state_dict other state_id chat_id, s).
Proof.
  intros Hs. unfold chat_factory. rewrite st_bind_eq, get_state_row, Hs.
  by destruct (json_decode text).
Qed.

(** X20: a miss reads the table as it is at the time of the read.  Take
    the map that [load_states] returned and a key that had no row then, and
    read the map at that key later, when the table has a row under it.  If
    the row decodes to a mapping, the read returns the record that
    [__state_dict] builds from it, leaves the table alone and caches the
    record: later reads return it whatever the table holds by then.  If the
    row does not decode, or decodes to a value on which [__state_dict]
    raises by itself ([None], a number, a timestamp, or a list or a string
    without ['__memory__']), the read raises and the table is as it was. *)
Theorem lazy_read_sees_current_row s states s0 state_id chat_id s' text :
  load_states other s = (Ok states, s0) ->
  s !! (chat_id, state_id) = None ->
  s' !! (chat_id, state_id) = Some text ->
  (forall d, json_decode text = Ok (PDict d) ->
     exists states',
       states_getitem states state_id chat_id s'
       = (Ok (record_for state_id chat_id d, states'), s') /\
       forall s2,
         states_getitem states' state_id chat_id s2
         = (Ok (record_for state_id chat_id d, states'), s2)) /\
  ((forall v, json_decode text = Ok v -> no_record v = true) ->
   exists e, states_getitem states state_id chat_id s' = (Raise e, s')).
Proof.
  intros Hload Hs Hs'.
  destruct (loaded_map_miss _ _ _ state_id chat_id s' Hload Hs)
    as (inner & states1 & Hget & Hi1 & Hfi & Hnone).
  split.
  - intros d Hd.
    exists (MissingDict_setitem states1 state_id
              (mk_MissingDict
                 (<[chat_id := record_for state_id chat_id d]> (md_items inner))
                 (default_factory inner))).
    split.
    + rewrite states_getitem_eq, Hget.
      rewrite (MissingDict_getitem_miss inner) by done.
      by rewrite Hfi, (chat_factory_row _ _ _ _ Hs'), Hd.
    + intros s2. apply states_getitem_hit, states_lookup_Some.
      eexists. split; [apply lookup_insert_eq |].
      cbn [md_items]. apply lookup_insert_eq.
  - intros Hbad. rewrite states_getitem_eq, Hget.
    rewrite (MissingDict_getitem_miss inner) by done.
    rewrite Hfi, (chat_factory_row _ _ _ _ Hs').
    destruct (json_decode text) as [v | e] eqn:Hd; [| by exists e].
    cbn [mbind result_bind].
    rewrite (state_dict_no_record other) by auto. by exists TypeError.
Qed.

End lazy_reads.

Lemma deleted_field_stays_witness :
  exists states,
    load_states refuse_other
      {[(42, "flow") := JObj [("step", JNum 1); ("name", JStr "ana")]]}
    = (Ok states,
       {[(42, "flow") := JObj [("step", JNum 1); ("name", JStr "ana")]]}) /\
    exists record record' s',
      states_getitem states "flow" 42
        {[(42, "flow") := JObj [("step", JNum 1); ("name", JStr "ana")]]}
      = (Ok (record, states),
         {[(42, "flow") := JObj [("step", JNum 1); ("name", JStr "ana")]]}) /\
      StateDict_delitem record "name"
        {[(42, "flow") := JObj [("step", JNum 1); ("name", JStr "ana")]]}
      = (Ok record', s') /\
      dict_contains (sd_data record') "name" = false /\
      get_state "flow" 42 s'
      = (Ok (PDict [("step", PInt 1); ("name", PStr "ana")]), s').
Proof.
  eexists. split; [reflexivity |].
  eapply (deleted_field_stays refuse_other
            {[(42, "flow") := JObj [("step", JNum 1); ("name", JStr "ana")]]}
            _ _ 42 "flow"
            (JObj [("step", JNum 1); ("name", JStr "ana")])
            [("step", PInt 1); ("name", PStr "ana")] "name");
    reflexivity.
Defined.

Lemma lazy_read_sees_current_row_witness :
  exists states,
    load_states refuse_other flow_table = (Ok states, flow_table) /\
    (forall d,
       json_decode (JObj [("n", JNum 3)]) = Ok (PDict d) ->
       exists states',
         states_getitem states "quiz" 7
           (<[(7, "quiz") := JObj [("n", JNum 3)]]> flow_table)
         = (Ok (record_for "quiz" 7 d, states'),
            <[(7, "quiz") := JObj [("n", JNum 3)]]> flow_table) /\
         forall s2,
           states_getitem states' "quiz" 7 s2
           = (Ok (record_for "quiz" 7 d, states'), s2)) /\
    ((forall v, json_decode (JObj [("n", JNum 3)]) = Ok v ->
                no_record v = true) ->
     exists e,
       states_getitem states "quiz" 7
         (<[(7, "quiz") := JObj [("n", JNum 3)]]> flow_table)
       = (Raise e, <[(7, "quiz") := JObj [("n", JNum 3)]]> flow_table)).
Proof.
  eexists. split; [reflexivity |].
  eapply (lazy_read_sees_current_row refuse_other flow_table _ flow_table
            "quiz" 7
            (<[(7, "quiz") := JObj [("n", JNum 3)]]> flow_table)
            (JObj [("n", JNum 3)]));
    reflexivity.
Defined.
(** ** The order of a snapshot *)

(** X21: the order of a snapshot does not matter.  Two snapshots that name
    no key twice and hold the same records under the same keys, in whatever
    order of state ids and of chats, are treated alike by [update_states]:
    it returns for both or raises for both, and leaves the same table. *)
Theorem update_states_order snap1 snap2 s :
  NoDup (snapshot_keys snap1) ->
  NoDup (snapshot_keys snap2) ->
  (forall state_id chat_id r,
     (exists data, (state_id, data) ∈ snap1 /\ (chat_id, r) ∈ data) <->
     (exists data, (state_id, data) ∈ snap2 /\ (chat_id, r) ∈ data)) ->
  is_ok (update_states snap1 s).1 = is_ok (update_states snap2 s).1 /\
  (update_states snap1 s).2 = (update_states snap2 s).2.
Proof.
  intros Hnd1 Hnd2 Hsame.
  pose proof (update_entries_independent snap1 s Hnd1) as E1.
  pose proof (update_entries_independent snap2 s Hnd2) as E2.
  pose proof (fun key => update_entries_frame snap1 s key) as F1.
  pose proof (fun key => update_entries_frame snap2 s key) as F2.
  rewrite !update_states_eq.
  destruct (update_entries snap1 s) as [[[] | e1] s1],
           (update_entries snap2 s) as [[[] | e2] s2];
    cbn [fst snd is_ok] in *.
  - split; [done |]. apply map_eq. intros key.
    destruct (decide (key ∈ snapshot_keys snap1)) as [Hin | Hnin].
    + apply snapshot_keys_elem in Hin as (sid & data & r & Hin & Hc & Hk).
      destruct key as [cid sid']. cbn [fst snd] in *. subst sid'.
      destruct (E1 _ _ _ _ Hin Hc) as (text1 & Hn1 & ->).
      destruct (proj1 (Hsame sid cid r)) as (data2 & Hin2 & Hc2);
        [by exists data |].
      destruct (E2 _ _ _ _ Hin2 Hc2) as (text2 & Hn2 & ->). congruence.
    + assert (Hnin2 : key ∉ snapshot_keys snap2).
      { intros (sid & data & r & Hin & Hc & Hk)%snapshot_keys_elem.
        destruct (proj2 (Hsame sid key.1 r)) as (data1 & Hin1 & Hc1);
          [by exists data |].
        apply Hnin, snapshot_keys_elem. by exists sid, data1, r. }
      by rewrite F1, F2.
  - destruct E2 as (sid & data & cid & r & Hin & Hc & Hn).
    destruct (proj2 (Hsame sid cid r)) as (data1 & Hin1 & Hc1);
      [by exists data |].
    destruct (E1 _ _ _ _ Hin1 Hc1) as (text1 & Hn1 & _). congruence.
  - destruct E1 as (sid & data & cid & r & Hin & Hc & Hn).
    destruct (proj1 (Hsame sid cid r)) as (data2 & Hin2 & Hc2);
      [by exists data |].
    destruct (E2 _ _ _ _ Hin2 Hc2) as (text2 & Hn2 & _). congruence.
  - done.
Qed.

Lemma update_states_order_witness :
  is_ok (update_states
           [("flow", [(42, scratch_record); (7, [("n", PInt 3)])]);
            ("quiz", [(42, [("at", PDatetime sample_time)])])]
           flow_table).1
  = is_ok (update_states
             [("quiz", [(42, [("at", PDatetime sample_time)])]);
              ("flow", [(7, [("n", PInt 3)]); (42, scratch_record)])]
             flow_table).1 /\
  (update_states
     [("flow", [(42, scratch_record); (7, [("n", PInt 3)])]);
      ("quiz", [(42, [("at", PDatetime sample_time)])])]
     flow_table).2
  = (update_states
       [("quiz", [(42, [("at", PDatetime sample_time)])]);
        ("flow", [(7, [("n", PInt 3)]); (42, scratch_record)])]
       flow_table).2.
Proof.
  apply (update_states_order
           [("flow", [(42, scratch_record); (7, [("n", PInt 3)])]);
            ("quiz", [(42, [("at", PDatetime sample_time)])])]
           [("quiz", [(42, [("at", PDatetime sample_time)])]);
            ("flow", [(7, [("n", PInt 3)]); (42, scratch_record)])]
           flow_table).
  - by apply (bool_decide_unpack _).
  - by apply (bool_decide_unpack _).
  - intros state_id chat_id r. split; intros (data & Hin & Hc);
      rewrite !elem_of_cons, elem_of_nil in Hin;
      destruct Hin as [[= -> ->] | [[= -> ->] | []]];
      rewrite !elem_of_cons, elem_of_nil in Hc;
      repeat (destruct Hc as [[= -> ->] | Hc]); try (by destruct Hc);
      (eexists; split;
       [(apply elem_of_cons; left; reflexivity)
        + (apply elem_of_cons; right; apply elem_of_cons; left; reflexivity)
       |]);
      rewrite !elem_of_cons; auto.
Defined.
